(** * es-bulk-loader: a shallow embedding of [cmd/es-bulk-loader/main.go]

    The program is one linear [main]: parse flags, validate them, build
    an Elasticsearch client, decide what to do with the target index,
    create it, read a JSON array of documents and upload it in batches.

    Everything the program does is an interaction with its surroundings
    (log lines, file reads, HTTP requests, process exit), so the
    embedding is a small state-and-exit monad over the history of the
    run: a computation receives the events so far, appends its own and
    either returns, exits, panics or runs out of fuel.  The surroundings
    (file system, cluster) are a deterministic oracle [World] that
    answers each call from the history so far. *)

From Stdlib Require Import ZArith List String Ascii Bool Lia Arith.
From Stdlib Require Import DecimalString.
Import ListNotations.

#[local] Open Scope string_scope.
#[local] Open Scope list_scope.
#[local] Open Scope Z_scope.

(** ** Go values *)

Module Go.

(** [int] on the 64-bit targets the tool is built for: two's
    complement, arithmetic wraps around silently. *)
Definition int_min : Z := - 2 ^ 63.
Definition int_max : Z := 2 ^ 63 - 1.

Definition in_int (z : Z) : Prop := int_min <= z <= int_max.

Definition wrap (z : Z) : Z := (z + 2 ^ 63) mod 2 ^ 64 - 2 ^ 63.

Definition add (a b : Z) : Z := wrap (a + b).

(** [len(s)] as an [int]. *)
Definition len {A : Type} (s : list A) : Z := Z.of_nat (List.length s).

(** The slice expression [s[lo:hi]].  The run-time check is
    [0 <= lo <= hi <= cap(s)]; [None] is the run-time panic "slice
    bounds out of range".  The capacity of the slice is taken to be
    its length: the only slice expression of the program has
    [hi <= len(s)] whenever it is reached with [lo <= hi]. *)
Definition slice {A : Type} (s : list A) (lo hi : Z) : option (list A) :=
  if (0 <=? lo) && (lo <=? hi) && (hi <=? len s)
  then Some (firstn (Z.to_nat (hi - lo)) (skipn (Z.to_nat lo) s))
  else None.

(** [s != ""] *)
Definition nonempty (s : string) : bool := negb (s =? "")%string.

(** The byte 0x22 and the byte 0x0A as one-byte strings. *)
Definition dquote : string := String (ascii_of_nat 34) EmptyString.
Definition newline : string := String (ascii_of_nat 10) EmptyString.

End Go.

(** ** Text *)

Definition is_newline (c : ascii) : bool := Ascii.eqb c (ascii_of_nat 10).

Fixpoint no_newline (s : string) : bool :=
  match s with
  | EmptyString => true
  | String c r => negb (is_newline c) && no_newline r
  end.

(** The lines of a text: the pieces between its newline bytes, a last
    piece without a newline included. *)
Fixpoint split_lines (s : string) : list string :=
  match s with
  | EmptyString => []
  | String c r =>
      if is_newline c then EmptyString :: split_lines r
      else
        match split_lines r with
        | [] => [String c EmptyString]
        | l :: ls => String c l :: ls
        end
  end.

(** Texts one after the other. *)
Fixpoint cat (l : list string) : string :=
  match l with
  | [] => EmptyString
  | s :: l' => (s ++ cat l')%string
  end.

(** ** What the run can be observed to do *)

(** The flags after [flag.Parse()] (lines 23-38); the [-config] flag is
    consumed by the flag package itself. *)
Record Flags : Type := mkFlags {
  url          : string;
  insecure     : bool;
  index        : string;
  settingsFile : string;
  mappingsFile : string;
  dataFile     : string;
  batchSize    : Z;
  deleteIndex  : bool;
  addToIndex   : bool;
  user         : string;
  pass         : string;
  apiKey       : string
}.

(** [elasticsearch.Config], the fields the program sets (lines 56-74). *)
Record Config : Type := mkConfig {
  Addresses          : list string;
  InsecureSkipVerify : bool;
  Username           : string;
  Password           : string;
  APIKey             : string
}.

(** zerolog levels used by the program and the typed fields it attaches
    to a line.  Durations ([batch_time_s], [total_time_s]) are wall-clock
    readings and are left out. *)
Inductive Level : Type := Info | Warn | Fatal.

Inductive Field : Type :=
| Str (key value : string)
| Int (key : string) (value : Z)
| Err (err : string).

Inductive Event : Type :=
| Log (lvl : Level) (fields : list Field) (msg : string)
| Usage                                        (* flag.Usage() *)
| NewClient (cfg : Config)                     (* elasticsearch.NewClient *)
| ReadFile (path : string)                     (* os.ReadFile *)
| IndicesExists (name : string)                (* es.Indices.Exists *)
| IndicesDelete (name : string)                (* es.Indices.Delete *)
| IndicesCreate (name body : string)           (* es.Indices.Create *)
| Bulk (body : string).                        (* es.Bulk *)

Definition History : Type := list Event.

(** An [esapi] call returns [(res, err)]: either a transport error or a
    response with a status code. *)
Inductive Reply : Type :=
| Failed (err : string)
| Responded (StatusCode : Z).

(** [res.IsError()]: status above 299. *)
Definition IsError (StatusCode : Z) : bool := StatusCode >? 299.

(** The surroundings of a run.  Each oracle sees the history up to the
    call it answers, so a cluster may answer the third bulk request
    differently from the first. *)
Record World : Type := mkWorld {
  new_client     : History -> Config -> option string;  (* Some err / None *)
  read_file      : History -> string -> string * option string;  (* content, err *)
  indices_exists : History -> string -> Reply;
  indices_delete : History -> string -> Reply;
  indices_create : History -> string -> string -> Reply;
  bulk           : History -> string -> Reply
}.

(** How a computation ends. *)
Inductive Result (A : Type) : Type :=
| Done (a : A)
| Exited (code : Z)       (* os.Exit, also through log.Fatal *)
| Panicked (msg : string) (* Go run-time panic *)
| OutOfFuel.              (* the loop was still running *)

Arguments Done {A} a.
Arguments Exited {A} code.
Arguments Panicked {A} msg.
Arguments OutOfFuel {A}.

Definition M (A : Type) : Type := History -> Result A * History.

Definition ret {A} (a : A) : M A := fun h => (Done a, h).

Definition bind {A B} (m : M A) (f : A -> M B) : M B :=
  fun h =>
    match m h with
    | (Done a, h')     => f a h'
    | (Exited c, h')   => (Exited c, h')
    | (Panicked s, h') => (Panicked s, h')
    | (OutOfFuel, h')  => (OutOfFuel, h')
    end.

Declare Scope go_scope.
Delimit Scope go_scope with go.
Notation "x <- m ;; k" := (bind m (fun x => k))
  (at level 61, m at next level, right associativity) : go_scope.
Notation "m ;; k" := (bind m (fun _ => k))
  (at level 61, right associativity) : go_scope.
#[local] Open Scope go_scope.

Definition emit (e : Event) : M unit := fun h => (Done tt, h ++ [e]).
Definition os_Exit {A} (code : Z) : M A := fun h => (Exited code, h).
Definition panic {A} (msg : string) : M A := fun h => (Panicked msg, h).
Definition out_of_fuel {A} : M A := fun h => (OutOfFuel, h).

(** [if c { body }] *)
Definition when (c : bool) (body : M unit) : M unit :=
  if c then body else ret tt.

(** zerolog: [log.Info()...Msg], [log.Warn()...Msg], and
    [log.Fatal()...Msg], which writes the line and calls [os.Exit(1)]. *)
Definition log_Info (fields : list Field) (msg : string) : M unit :=
  emit (Log Info fields msg).
Definition log_Warn (fields : list Field) (msg : string) : M unit :=
  emit (Log Warn fields msg).
Definition log_Fatal {A} (fields : list Field) (msg : string) : M A :=
  emit (Log Fatal fields msg) ;; os_Exit 1.

Definition flag_Usage : M unit := emit Usage.

(** ** [encoding/json], as far as the program uses it

    The program decodes the data file into [[]map[string]interface{}]
    and encodes each element again; it never looks inside a document, so
    the document type is left abstract.  The action line is the encoding
    of a [map[string]map[string]string]. *)
Class EncodingJSON : Type := {
  Doc : Type;
  (** [json.Unmarshal(data, &records)]: the slice as it is left, and
      the error *)
  Unmarshal_records : string -> list Doc * option string;
  (** [json.Marshal(doc)] *)
  Marshal_doc : Doc -> string;
  (** [json.Marshal(meta)] *)
  Marshal_meta : list (string * list (string * string)) -> string;
  (** [json.Unmarshal(line, &doc)], used to read a document line back *)
  Unmarshal_doc : string -> option Doc
}.

(** ** The program *)

Section Program.

Context {J : EncodingJSON}.
Variable w : World.

(** *** Calls into the surroundings: ask the oracle, record the call *)

Definition call {A} (answer : History -> A) (e : Event) : M A :=
  fun h => (Done (answer h), h ++ [e]).

Definition elasticsearch_NewClient (cfg : Config) : M (option string) :=
  call (fun h => new_client w h cfg) (NewClient cfg).

Definition os_ReadFile (path : string) : M (string * option string) :=
  call (fun h => read_file w h path) (ReadFile path).

Definition es_Indices_Exists (name : string) : M Reply :=
  call (fun h => indices_exists w h name) (IndicesExists name).

Definition es_Indices_Delete (name : string) : M Reply :=
  call (fun h => indices_delete w h name) (IndicesDelete name).

Definition es_Indices_Create (name body : string) : M Reply :=
  call (fun h => indices_create w h name body) (IndicesCreate name body).

Definition es_Bulk (body : string) : M Reply :=
  call (fun h => bulk w h body) (Bulk body).

(** The [err] half of an [esapi] result. *)
Definition err_of (r : Reply) : option string :=
  match r with
  | Failed e => Some e
  | Responded _ => None
  end.

(** *** [checkErr] (lines 167-171) *)
Definition checkErr (context : string) (err : option string) : M unit :=
  match err with
  | Some e => log_Fatal [Err e] ("Error during " ++ context)%string
  | None => ret tt
  end.

(** *** [indexExists] (lines 173-186) *)
Definition indexExists (name : string) : M (bool * option string) :=
  r <- es_Indices_Exists name ;;
  match r with
  | Failed e => ret (false, Some e)
  | Responded StatusCode =>
      if StatusCode =? 200 then ret (true, None)
      else if StatusCode =? 404 then ret (false, None)
      else ret (false,
                Some ("unexpected status code "
                      ++ DecimalString.NilZero.string_of_int
                           (Z.to_int StatusCode))%string)
  end.

(** *** [deleteAndCheck] (lines 188-196) *)
Definition deleteAndCheck (name : string) : M unit :=
  r <- es_Indices_Delete name ;;
  checkErr "deleting index" (err_of r) ;;
  match r with
  | Responded StatusCode =>
      when (IsError StatusCode)
           (log_Fatal [Str "index" name] "Failed to delete index")
  | Failed _ => ret tt  (* not reached: [checkErr] has exited *)
  end.

(** *** [buildCreateIndexBody] (lines 198-219) *)

(** [fmt.Sprintf(`{"settings": %s, "mappings": %s}`, settings, mappings)] *)
Definition create_index_body (settings mappings : string) : string :=
  ("{" ++ Go.dquote ++ "settings" ++ Go.dquote ++ ": " ++ settings
   ++ ", " ++ Go.dquote ++ "mappings" ++ Go.dquote ++ ": " ++ mappings
   ++ "}")%string.

Definition buildCreateIndexBody (settingsFile mappingsFile : string)
  : M string :=
  settings <-
    (if Go.nonempty settingsFile then
       r <- os_ReadFile settingsFile ;;
       match snd r with
       | None => ret (fst r)
       | Some err => log_Fatal [Err err] "Reading settings file"
       end
     else ret "{}") ;;
  mappings <-
    (if Go.nonempty mappingsFile then
       r <- os_ReadFile mappingsFile ;;
       match snd r with
       | None => ret (fst r)
       | Some err => log_Fatal [Err err] "Reading mappings file"
       end
     else ret "{}") ;;
  ret (create_index_body settings mappings).

(** *** [main] *)

(** Lines 44-53: the two checks on the parsed flags. *)
Definition auth_conflict (f : Flags) : bool :=
  (Go.nonempty (user f) || Go.nonempty (pass f)) && Go.nonempty (apiKey f).

Definition validate (f : Flags) : M unit :=
  when (auth_conflict f)
       (log_Info [] "Cannot use both basic auth and API key. Choose one method." ;;
        flag_Usage ;;
        os_Exit 1) ;;
  when ((index f =? "")%string || (dataFile f =? "")%string)
       (flag_Usage ;;
        os_Exit 1).

(** Lines 56-74: the client configuration. *)
Definition client_config (f : Flags) : Config :=
  let cfg := {| Addresses := [url f];
                InsecureSkipVerify := insecure f;
                Username := ""; Password := ""; APIKey := "" |} in
  (* Basic Auth *)
  let cfg := if Go.nonempty (user f) && Go.nonempty (pass f)
             then {| Addresses := Addresses cfg;
                     InsecureSkipVerify := InsecureSkipVerify cfg;
                     Username := user f; Password := pass f;
                     APIKey := APIKey cfg |}
             else cfg in
  (* API Key *)
  let cfg := if Go.nonempty (apiKey f)
             then {| Addresses := Addresses cfg;
                     InsecureSkipVerify := InsecureSkipVerify cfg;
                     Username := Username cfg; Password := Password cfg;
                     APIKey := apiKey f |}
             else cfg in
  cfg.

(** Lines 82-108: what to do with the index; the value is the new
    [exists]. *)
Definition lifecycle (f : Flags) (exists_ : bool) : M bool :=
  if exists_ then
    if addToIndex f && deleteIndex f then
      log_Info [Str "index" (index f)]
               "Deleting and recreating index before adding documents" ;;
      deleteAndCheck (index f) ;;
      ret false
    else if deleteIndex f then
      log_Info [Str "index" (index f)] "Deleting index" ;;
      deleteAndCheck (index f) ;;
      ret false
    else if addToIndex f then
      log_Info [Str "index" (index f)]
               "Appending documents to existing index" ;;
      ret true
    else
      log_Fatal [Str "index" (index f)]
                "Index exists. Use -delete to recreate or -add to append."
  else
    when (deleteIndex f)
         (log_Warn [Str "index" (index f)]
                   "Index does not exist. Nothing to delete.") ;;
    (if addToIndex f
     then log_Info [Str "index" (index f)]
                   "Creating index to append documents"
     else log_Info [Str "index" (index f)]
                   "Creating index before loading data") ;;
    ret false.

(** Lines 110-117: create the index if needed. *)
Definition create_if_needed (f : Flags) (exists_ : bool) : M unit :=
  when (negb exists_)
       (body <- buildCreateIndexBody (settingsFile f) (mappingsFile f) ;;
        r <- es_Indices_Create (index f) body ;;
        checkErr "creating index" (err_of r) ;;
        log_Info [Str "index" (index f)] "Index created").

(** Lines 78-117 together. *)
Definition prepare_index (f : Flags) : M unit :=
  r <- indexExists (index f) ;;
  checkErr "checking if index exists" (snd r) ;;
  exists_ <- lifecycle f (fst r) ;;
  create_if_needed f exists_.

(** Lines 119-125: load the documents. *)
Definition load_records (f : Flags) : M (list Doc) :=
  r <- os_ReadFile (dataFile f) ;;
  checkErr "reading data file" (snd r) ;;
  let data := fst r in
  let u := Unmarshal_records data in
  checkErr "parsing data JSON" (snd u) ;;
  ret (fst u).

(** Lines 137-147: the body of one bulk request. *)
Definition meta (name : string) : list (string * list (string * string)) :=
  [("index", [("_index", name)])].

Fixpoint write_docs (name : string) (docs : list Doc) (buf : string)
  : string :=
  match docs with
  | [] => buf
  | doc :: rest =>
      let metaLine := Marshal_meta (meta name) in
      let docLine := Marshal_doc doc in
      write_docs name rest
        (buf ++ metaLine ++ Go.newline ++ docLine ++ Go.newline)%string
  end.

(** Lines 131-161: the upload loop, from loop index [i]. *)
Fixpoint upload (f : Flags) (records : list Doc) (fuel : nat) (i : Z)
  : M unit :=
  let total := Go.len records in
  if i <? total then
    match fuel with
    | O => out_of_fuel
    | S fuel' =>
        let end_ := Go.add i (batchSize f) in
        let end_ := if end_ >? total then total else end_ in
        match Go.slice records i end_ with
        | None => panic "slice bounds out of range"
        | Some docs =>
            let buf := write_docs (index f) docs "" in
            res <- es_Bulk buf ;;
            checkErr "bulk insert" (err_of res) ;;
            log_Info [Int "inserted" end_; Int "total" total]
                     "Batch inserted" ;;
            upload f records fuel' (Go.add i (batchSize f))
        end
    end
  else ret tt.

(** Lines 119-164. *)
Definition bulk_load (f : Flags) (fuel : nat) : M unit :=
  records <- load_records f ;;
  log_Info [Int "total" (Go.len records)] "Starting bulk insert" ;;
  upload f records fuel 0 ;;
  log_Info [] "Bulk load completed".

Definition main (f : Flags) (fuel : nat) : M unit :=
  validate f ;;
  err <- elasticsearch_NewClient (client_config f) ;;
  checkErr "creating Elasticsearch client" err ;;
  prepare_index f ;;
  bulk_load f fuel.

End Program.

(** ** A JSON codec

    A concrete reader and writer for JSON texts (RFC 8259), in the
    compact style of [json.Marshal]: no insignificant white space,
    object members in key order, control characters and the characters
    [<], [>], [&] inside strings escaped.  Numbers keep their literal
    text, as [json.Number] does; bytes above 0x7F are passed through.
    It decides which file contents are JSON texts and provides an
    [EncodingJSON] to run the program on. *)

Module JSON.

#[local] Unset Elimination Schemes.
Inductive value : Type :=
| Null
| Bool (b : bool)
| Number (literal : string)
| Str (s : string)
| Arr (elems : list value)
| Obj (members : list (string * value)).
#[local] Set Elimination Schemes.

(** *** Characters *)

Definition code (c : ascii) : N := N_of_ascii c.

Definition DQUOTE : ascii := ascii_of_nat 34.
Definition BSLASH : ascii := ascii_of_nat 92.

Definition is_ws (c : ascii) : bool :=
  (code c =? 32)%N || (code c =? 9)%N || (code c =? 10)%N || (code c =? 13)%N.

Definition is_digit (c : ascii) : bool :=
  (48 <=? code c)%N && (code c <=? 57)%N.

Fixpoint skip_ws (s : string) : string :=
  match s with
  | String c r => if is_ws c then skip_ws r else s
  | EmptyString => s
  end.

(** The longest prefix of digits, and what follows it. *)
Fixpoint digits (s : string) : string * string :=
  match s with
  | String c r =>
      if is_digit c
      then let (ds, rest) := digits r in (String c ds, rest)
      else (EmptyString, s)
  | EmptyString => (EmptyString, EmptyString)
  end.

(** *** Numbers

    An optional minus sign; an integer part, either the digit 0 alone
    or a digit from 1 to 9 followed by any digits; an optional fraction,
    a point followed by one or more digits; an optional exponent, the
    letter e or E, an optional sign and one or more digits. *)

Definition scan_sign (s : string) : string * string :=
  match s with
  | String c r => if (code c =? 45)%N then (String c EmptyString, r)
                  else (EmptyString, s)
  | EmptyString => (EmptyString, s)
  end.

Definition scan_int (s : string) : option (string * string) :=
  match s with
  | String c r =>
      if (code c =? 48)%N then Some (String c EmptyString, r)
      else if is_digit c
           then let (ds, rest) := digits r in Some (String c ds, rest)
           else None
  | EmptyString => None
  end.

Definition scan_frac (s : string) : option (string * string) :=
  match s with
  | String c r =>
      if (code c =? 46)%N then
        match digits r with
        | (EmptyString, _) => None
        | (ds, rest) => Some (String c ds, rest)
        end
      else Some (EmptyString, s)
  | EmptyString => Some (EmptyString, s)
  end.

Definition scan_exp (s : string) : option (string * string) :=
  match s with
  | String c r =>
      if (code c =? 101)%N || (code c =? 69)%N then
        let (sg, r1) :=
          match r with
          | String d r' =>
              if (code d =? 43)%N || (code d =? 45)%N
              then (String d EmptyString, r')
              else (EmptyString, r)
          | EmptyString => (EmptyString, r)
          end in
        match digits r1 with
        | (EmptyString, _) => None
        | (ds, rest) => Some (String c (sg ++ ds), rest)
        end
      else Some (EmptyString, s)
  | EmptyString => Some (EmptyString, s)
  end.

Definition scan_number (s : string) : option (string * string) :=
  let (sg, s1) := scan_sign s in
  match scan_int s1 with
  | None => None
  | Some (ip, s2) =>
      match scan_frac s2 with
      | None => None
      | Some (fp, s3) =>
          match scan_exp s3 with
          | None => None
          | Some (ep, s4) => Some (sg ++ ip ++ fp ++ ep, s4)
          end
      end
  end%string.

(** *** Strings *)

Definition hex_digit (n : N) : ascii :=
  if (n <? 10)%N then ascii_of_N (48 + n) else ascii_of_N (87 + n).

Definition hex_value (c : ascii) : option N :=
  let n := code c in
  if (48 <=? n)%N && (n <=? 57)%N then Some (n - 48)%N
  else if (97 <=? n)%N && (n <=? 102)%N then Some (n - 87)%N
  else if (65 <=? n)%N && (n <=? 70)%N then Some (n - 55)%N
  else None.

(** Four hexadecimal digits. *)
Definition hex4 (s : string) : option (N * string) :=
  match s with
  | String a (String b (String c (String d r))) =>
      match hex_value a, hex_value b, hex_value c, hex_value d with
      | Some x, Some y, Some z, Some t =>
          Some (((x * 16 + y) * 16 + z) * 16 + t, r)%N
      | _, _, _, _ => None
      end
  | _ => None
  end.

Definition byte (n : N) : string := String (ascii_of_N n) EmptyString.

(** UTF-8 of a code point. *)
Definition utf8 (cp : N) : string :=
  (if (cp <? 128)%N then byte cp
   else if (cp <? 2048)%N then
     byte (192 + cp / 64) ++ byte (128 + cp mod 64)
   else if (cp <? 65536)%N then
     byte (224 + cp / 4096) ++ byte (128 + (cp / 64) mod 64)
     ++ byte (128 + cp mod 64)
   else
     byte (240 + cp / 262144) ++ byte (128 + (cp / 4096) mod 64)
     ++ byte (128 + (cp / 64) mod 64) ++ byte (128 + cp mod 64))%string.

Definition replacement : N := 65533.  (* U+FFFD *)

(** The byte a two-character escape stands for. *)
Definition simple_escape (e : ascii) : option ascii :=
  let n := code e in
  if (n =? 34)%N then Some DQUOTE
  else if (n =? 92)%N then Some BSLASH
  else if (n =? 47)%N then Some e                     (* \/ *)
  else if (n =? 98)%N then Some (ascii_of_nat 8)      (* \b *)
  else if (n =? 102)%N then Some (ascii_of_nat 12)    (* \f *)
  else if (n =? 110)%N then Some (ascii_of_nat 10)    (* \n *)
  else if (n =? 114)%N then Some (ascii_of_nat 13)    (* \r *)
  else if (n =? 116)%N then Some (ascii_of_nat 9)     (* \t *)
  else None.

(** After [\uXXXX] with value [cp]: the code point denoted, and the
    rest.  A high surrogate takes the low surrogate escape that
    follows it; a surrogate on its own reads as U+FFFD. *)
Definition unicode_escape (cp : N) (r : string) : N * string :=
  if (55296 <=? cp)%N && (cp <? 56320)%N then
    match r with
    | String b (String u r') =>
        if (code b =? 92)%N && (code u =? 117)%N then
          match hex4 r' with
          | Some (lo, r'') =>
              if (56320 <=? lo)%N && (lo <? 57344)%N
              then (65536 + (cp - 55296) * 1024 + (lo - 56320), r'')%N
              else (replacement, r)
          | None => (replacement, r)
          end
        else (replacement, r)
    | _ => (replacement, r)
    end
  else if (56320 <=? cp)%N && (cp <? 57344)%N then (replacement, r)
  else (cp, r).

(** The string after its opening quote, up to the closing quote: one
    character or escape at a time, [continue] reading what follows. *)
Definition unquote_step (continue : string -> option (string * string))
  (s : string) : option (string * string) :=
  match s with
  | EmptyString => None
  | String c r =>
      if (code c =? 34)%N then Some (EmptyString, r)
      else if (code c =? 92)%N then
        match r with
        | EmptyString => None
        | String e r' =>
            if (code e =? 117)%N then
              match hex4 r' with
              | None => None
              | Some (cp, r'') =>
                  let (cp', r3) := unicode_escape cp r'' in
                  match continue r3 with
                  | None => None
                  | Some (t, rest) => Some (utf8 cp' ++ t, rest)%string
                  end
              end
            else
              match simple_escape e with
              | None => None
              | Some b =>
                  match continue r' with
                  | None => None
                  | Some (t, rest) => Some (String b t, rest)
                  end
              end
        end
      else if (code c <? 32)%N then None
      else
        match continue r with
        | None => None
        | Some (t, rest) => Some (String c t, rest)
        end
  end.

Fixpoint unquote (fuel : nat) (s : string) : option (string * string) :=
  match fuel with
  | O => None
  | S fuel' => unquote_step (unquote fuel') s
  end.

Definition escape (c : ascii) : string :=
  let n := code c in
  let bs := String BSLASH EmptyString in
  (if (n =? 34)%N || (n =? 92)%N then bs ++ String c EmptyString
   else if (n =? 8)%N then bs ++ "b"
   else if (n =? 12)%N then bs ++ "f"
   else if (n =? 10)%N then bs ++ "n"
   else if (n =? 13)%N then bs ++ "r"
   else if (n =? 9)%N then bs ++ "t"
   else if (n <? 32)%N || (n =? 60)%N || (n =? 62)%N || (n =? 38)%N
        then bs ++ "u00" ++ String (hex_digit (n / 16)) EmptyString
                ++ String (hex_digit (n mod 16)) EmptyString
   else String c EmptyString)%string.

Fixpoint quote_body (s : string) : string :=
  match s with
  | EmptyString => EmptyString
  | String c r => (escape c ++ quote_body r)%string
  end.

Definition quote (s : string) : string :=
  (String DQUOTE (quote_body s) ++ String DQUOTE EmptyString)%string.

(** *** Values *)

(** [strip_prefix p s]: what follows [p] in [s]. *)
Fixpoint strip_prefix (p s : string) : option string :=
  match p with
  | EmptyString => Some s
  | String a p' =>
      match s with
      | String b s' => if Ascii.eqb a b then strip_prefix p' s' else None
      | EmptyString => None
      end
  end.

(** Objects are kept as member lists in strictly increasing key order.
    A member is added in front of the members that follow it in the
    text; where the key is already there, the later member stays. *)
Fixpoint add_member (k : string) (v : value) (m : list (string * value))
  : list (string * value) :=
  match m with
  | [] => [(k, v)]
  | (k', v') :: m' =>
      match String.compare k k' with
      | Lt => (k, v) :: m
      | Eq => m
      | Gt => (k', v') :: add_member k v m'
      end
  end.

Fixpoint parse_value (fuel : nat) (s : string) : option (value * string) :=
  match fuel with
  | O => None
  | S fuel' =>
      match skip_ws s with
      | EmptyString => None
      | String c r =>
          let n := code c in
          if (n =? 110)%N then                                   (* null *)
            match strip_prefix "ull" r with
            | Some r' => Some (Null, r')
            | None => None
            end
          else if (n =? 116)%N then                              (* true *)
            match strip_prefix "rue" r with
            | Some r' => Some (Bool true, r')
            | None => None
            end
          else if (n =? 102)%N then                              (* false *)
            match strip_prefix "alse" r with
            | Some r' => Some (Bool false, r')
            | None => None
            end
          else if (n =? 34)%N then                               (* string *)
            match unquote (S (String.length r)) r with
            | Some (t, r') => Some (Str t, r')
            | None => None
            end
          else if (n =? 91)%N then                               (* array *)
            match skip_ws r with
            | EmptyString => None
            | String d r' =>
                if (code d =? 93)%N then Some (Arr [], r')
                else
                  match parse_elems fuel' r with
                  | Some (l, r'') => Some (Arr l, r'')
                  | None => None
                  end
            end
          else if (n =? 123)%N then                              (* object *)
            match skip_ws r with
            | EmptyString => None
            | String d r' =>
                if (code d =? 125)%N then Some (Obj [], r')
                else
                  match parse_members fuel' r with
                  | Some (m, r'') => Some (Obj m, r'')
                  | None => None
                  end
            end
          else
            match scan_number (String c r) with
            | Some (lit, r') => Some (Number lit, r')
            | None => None
            end
      end
  end

with parse_elems (fuel : nat) (s : string) : option (list value * string) :=
  match fuel with
  | O => None
  | S fuel' =>
      match parse_value fuel' s with
      | None => None
      | Some (v, r) =>
          match skip_ws r with
          | EmptyString => None
          | String c r' =>
              if (code c =? 44)%N then
                match parse_elems fuel' r' with
                | Some (l, r'') => Some (v :: l, r'')
                | None => None
                end
              else if (code c =? 93)%N then Some ([v], r')
              else None
          end
      end
  end

with parse_members (fuel : nat) (s : string)
  : option (list (string * value) * string) :=
  match fuel with
  | O => None
  | S fuel' =>
      match skip_ws s with
      | EmptyString => None
      | String q r =>
          if (code q =? 34)%N then
            match unquote (S (String.length r)) r with
            | None => None
            | Some (k, r1) =>
                match skip_ws r1 with
                | EmptyString => None
                | String c r2 =>
                    if (code c =? 58)%N then
                      match parse_value fuel' r2 with
                      | None => None
                      | Some (v, r3) =>
                          match skip_ws r3 with
                          | EmptyString => None
                          | String d r4 =>
                              if (code d =? 44)%N then
                                match parse_members fuel' r4 with
                                | Some (m, r5) => Some (add_member k v m, r5)
                                | None => None
                                end
                              else if (code d =? 125)%N
                                   then Some ([(k, v)], r4)
                                   else None
                          end
                      end
                    else None
                end
            end
          else None
      end
  end.

(** A whole text: one value, then only white space. *)
Definition parse (s : string) : option value :=
  match parse_value (S (String.length s)) s with
  | Some (v, r) =>
      match skip_ws r with
      | EmptyString => Some v
      | String _ _ => None
      end
  | None => None
  end.

(** [json.Valid] *)
Definition Valid (s : string) : bool :=
  match parse s with
  | Some _ => true
  | None => false
  end.

(** Texts joined by commas. *)
Fixpoint join (l : list string) : string :=
  match l with
  | [] => EmptyString
  | a :: l' =>
      match l' with
      | [] => a
      | _ :: _ => (a ++ "," ++ join l')%string
      end
  end.

Fixpoint encode (v : value) : string :=
  match v with
  | Null => "null"
  | Bool b => if b then "true" else "false"
  | Number literal => literal
  | Str s => quote s
  | Arr elems => ("[" ++ join (map encode elems) ++ "]")%string
  | Obj members =>
      ("{" ++ join (map (fun kv => let '(k, x) := kv in
                                   quote k ++ ":" ++ encode x) members)
           ++ "}")%string
  end.

(** Values the reader produces: number literals are numbers, members
    are in strictly increasing key order. *)
Fixpoint keys_sorted (m : list (string * value)) : bool :=
  match m with
  | [] => true
  | (k1, _) :: m' =>
      match m' with
      | [] => true
      | (k2, _) :: _ => String.ltb k1 k2 && keys_sorted m'
      end
  end.

Definition is_number (literal : string) : bool :=
  match scan_number literal with
  | Some (l, EmptyString) => String.eqb l literal
  | _ => false
  end.

Fixpoint wf (v : value) : bool :=
  match v with
  | Null | Bool _ | Str _ => true
  | Number literal => is_number literal
  | Arr elems => forallb wf elems
  | Obj members =>
      keys_sorted members
      && forallb (fun kv => let '(_, x) := kv in wf x) members
  end.

(** What fits a [map[string]interface{}]: an object, or [null] for the
    nil map. *)
Definition is_map (v : value) : bool :=
  match v with
  | Obj _ | Null => true
  | _ => false
  end.

(** A [map[string]map[string]string] as a value. *)
Definition of_meta (m : list (string * list (string * string))) : value :=
  Obj (fold_right
         (fun kv acc =>
            add_member (fst kv)
              (Obj (fold_right
                      (fun kv' acc' => add_member (fst kv') (Str (snd kv')) acc')
                      [] (snd kv)))
              acc)
         [] m).

(** *** Measures and character classes used to reason about the codec *)

(** The first character, if any, satisfies [p]. *)
Definition head_is (p : ascii -> bool) (s : string) : bool :=
  match s with
  | String c _ => p c
  | EmptyString => false
  end.

Definition is_minus (c : ascii) : bool := (code c =? 45)%N.

Definition is_dot (c : ascii) : bool := (code c =? 46)%N.

Definition is_e (c : ascii) : bool := (code c =? 101)%N || (code c =? 69)%N.

Definition is_sign (c : ascii) : bool := (code c =? 43)%N || (code c =? 45)%N.

(** A character that can stand in a number. *)
Definition in_number (c : ascii) : bool :=
  is_digit c || is_sign c || is_dot c || is_e c.

Fixpoint all_in_number (s : string) : bool :=
  match s with
  | EmptyString => true
  | String c r => in_number c && all_in_number r
  end.

(** What may follow a number for the scan to end there. *)
Definition stops (s : string) : bool := negb (head_is in_number s).

(** The characters a value can start with. *)
Definition value_start (c : ascii) : bool :=
  is_digit c || is_minus c
  || (code c =? 110)%N || (code c =? 116)%N || (code c =? 102)%N
  || (code c =? 34)%N || (code c =? 91)%N || (code c =? 123)%N.

(** Fuel that is enough to read a value back. *)
Definition sum_sizes {A : Type} (sz : A -> nat) : list A -> nat :=
  fix go (l : list A) : nat :=
    match l with
    | [] => 0%nat
    | x :: l' => S (sz x + go l')
    end.

Fixpoint size (v : value) : nat :=
  match v with
  | Arr l => S (sum_sizes size l)
  | Obj m => S (sum_sizes (fun kv => let '(_, x) := kv in size x) m)
  | _ => 1%nat
  end.

(** Reading a value written by [encode], with enough fuel, in front of
    anything that stops a number. *)
Definition reads_back (v : value) : Prop :=
  wf v = true ->
  forall fuel rest, (size v <= fuel)%nat -> stops rest = true ->
    parse_value fuel (encode v ++ rest) = Some (v, rest).

(** One member of an object as [encode] writes it. *)
Definition encode_member (kv : string * value) : string :=
  let '(k, x) := kv in (quote k ++ ":" ++ encode x)%string.

(** [k] is below the first key of [m]. *)
Definition lt_head (k : string) (m : list (string * value)) : bool :=
  match m with
  | [] => true
  | (k', _) :: _ => String.ltb k k'
  end.

(** Number literals without a newline: all the writer needs to stay on
    one line. *)
Fixpoint one_line (v : value) : bool :=
  match v with
  | Number literal => no_newline literal
  | Arr elems => forallb one_line elems
  | Obj members => forallb (fun kv => let '(_, x) := kv in one_line x) members
  | _ => true
  end.

#[export] Instance codec : EncodingJSON := {
  Doc := value;
  Unmarshal_records data :=
    match parse data with
    | Some (Arr elems) =>
        if forallb is_map elems then (elems, None)
        else (elems, Some "json: cannot unmarshal into Go value of type map[string]interface {}")
    | Some Null => ([], None)
    | Some _ => ([], Some "json: cannot unmarshal into Go value of type []map[string]interface {}")
    | None => ([], Some "invalid character")
    end;
  Marshal_doc := encode;
  Marshal_meta m := encode (of_meta m);
  Unmarshal_doc line :=
    match parse line with
    | Some v => if is_map v then Some v else None
    | None => None
    end
}.

End JSON.

(** ** Observations on a run *)

(** Requests sent to the cluster. *)
Definition is_request (e : Event) : bool :=
  match e with
  | IndicesExists _ | IndicesDelete _ | IndicesCreate _ _ | Bulk _ => true
  | _ => false
  end.

(** Requests that change the index: delete and create. *)
Definition is_index_change (e : Event) : bool :=
  match e with
  | IndicesDelete _ | IndicesCreate _ _ => true
  | _ => false
  end.

Definition is_bulk (e : Event) : bool :=
  match e with
  | Bulk _ => true
  | _ => false
  end.

(** The bodies of the bulk requests of a history, in order. *)
Definition bulk_bodies (t : History) : list string :=
  flat_map (fun e => match e with Bulk b => [b] | _ => [] end) t.

(** ** Worlds and flags to run the program on *)

(** The defaults of the flag declarations (lines 23-34), with the two
    required flags given. *)
Definition default_flags (index_name data_path : string) : Flags :=
  {| url := "http://localhost:9200"; insecure := false;
     index := index_name; settingsFile := ""; mappingsFile := "";
     dataFile := data_path; batchSize := 1000;
     deleteIndex := false; addToIndex := false;
     user := ""; pass := ""; apiKey := "" |}.

(** The flags with one of them changed. *)
Definition with_batchSize (f : Flags) (b : Z) : Flags :=
  {| url := url f; insecure := insecure f; index := index f;
     settingsFile := settingsFile f; mappingsFile := mappingsFile f;
     dataFile := dataFile f; batchSize := b;
     deleteIndex := deleteIndex f; addToIndex := addToIndex f;
     user := user f; pass := pass f; apiKey := apiKey f |}.

Definition with_auth (f : Flags) (u p k : string) : Flags :=
  {| url := url f; insecure := insecure f; index := index f;
     settingsFile := settingsFile f; mappingsFile := mappingsFile f;
     dataFile := dataFile f; batchSize := batchSize f;
     deleteIndex := deleteIndex f; addToIndex := addToIndex f;
     user := u; pass := p; apiKey := k |}.

Definition with_lifecycle (f : Flags) (add delete : bool) : Flags :=
  {| url := url f; insecure := insecure f; index := index f;
     settingsFile := settingsFile f; mappingsFile := mappingsFile f;
     dataFile := dataFile f; batchSize := batchSize f;
     deleteIndex := delete; addToIndex := add;
     user := user f; pass := pass f; apiKey := apiKey f |}.

Definition with_settings (f : Flags) (path : string) : Flags :=
  {| url := url f; insecure := insecure f; index := index f;
     settingsFile := path; mappingsFile := mappingsFile f;
     dataFile := dataFile f; batchSize := batchSize f;
     deleteIndex := deleteIndex f; addToIndex := addToIndex f;
     user := user f; pass := pass f; apiKey := apiKey f |}.

Fixpoint lookup (files : list (string * string)) (path : string)
  : string * option string :=
  match files with
  | [] => ("", Some ("open " ++ path ++ ": no such file or directory")%string)
  | (p, content) :: files' =>
      if String.eqb p path then (content, None) else lookup files' path
  end.

(** A cluster that answers every request with status 200, except that
    the existence check answers [exists_status], that a create request
    whose body is not a JSON text is answered with status 400, and that
    the bulk request number [failing] (counted from 0), if any, fails
    in transport. *)
Definition cluster (exists_status : Z) (failing : option nat)
  (files : list (string * string)) : World :=
  {| new_client := fun _ _ => None;
     read_file := fun _ path => lookup files path;
     indices_exists := fun _ _ => Responded exists_status;
     indices_delete := fun _ _ => Responded 200;
     indices_create := fun _ _ body =>
       Responded (if JSON.Valid body then 200 else 400);
     bulk := fun h _ =>
       match failing with
       | Some k =>
           if Nat.eqb (List.length (bulk_bodies h)) k
           then Failed "connection refused"
           else Responded 200
       | None => Responded 200
       end |}.

(** ** The decision table of the specification, section 4.3

    Written from the table, row by row, to be compared with what
    [main] does: the steps a row lists, in order. *)

Inductive Step : Type := StepWarn | StepDelete | StepCreate | StepFatal.

Definition table_4_3 (present add delete : bool) : list Step :=
  match present, add, delete with
  | false, false, false => [StepCreate]
  | false, true,  false => [StepCreate]
  | false, false, true  => [StepWarn; StepCreate]
  | false, true,  true  => [StepCreate]
  | true,  true,  false => []
  | true,  false, true  => [StepDelete; StepCreate]
  | true,  true,  true  => [StepDelete; StepCreate]
  | true,  false, false => [StepFatal]
  end.

(** The steps of a history: warnings, index deletions and creations,
    and the fatal message of the lifecycle decision. *)
Definition step_of (e : Event) : list Step :=
  match e with
  | Log Warn _ _ => [StepWarn]
  | Log Fatal _ _ => [StepFatal]
  | IndicesDelete _ => [StepDelete]
  | IndicesCreate _ _ => [StepCreate]
  | _ => []
  end.

Definition steps (t : History) : list Step := flat_map step_of t.

(** ** Batches, as the specification words them

    [ceil_div n b] is the number of batches; batch [k] is the slice
    of the documents from [k * b], of length at most [b]. *)
Definition ceil_div (n b : nat) : nat := ((n + b - 1) / b)%nat.

Definition batch {A : Type} (b : nat) (docs : list A) (k : nat) : list A :=
  firstn b (skipn (k * b) docs).

Definition batches {A : Type} (b : nat) (docs : list A) : list (list A) :=
  map (batch b docs) (seq 0 (ceil_div (List.length docs) b)).

(** ** What the statements below are written with *)

(** A computation whose new events all satisfy [P]. *)
Definition emits {A} (P : Event -> Prop) (m : M A) : Prop :=
  forall h r h', m h = (r, h') -> exists t, h' = h ++ t /\ Forall P t.

Definition bulk_or_log (e : Event) : Prop :=
  match e with
  | Bulk _ | Log _ _ _ => True
  | _ => False
  end.

(** The whole run when both ways to authenticate are given. *)
Definition conflict_trace : History :=
  [Log Info [] "Cannot use both basic auth and API key. Choose one method.";
   Usage].

(** What one optional file contributes: the default [{}] without a
    read when no path is given, else what the read returns. *)
Definition file_or_default (w : World) (path : string) (h : History)
  : string * option string :=
  if Go.nonempty path then read_file w h path else ("{}", None).

Definition after_read (path : string) (h : History) : History :=
  if Go.nonempty path then h ++ [ReadFile path] else h.

(** The log line that follows the reply to the create request, and how
    the create step ends. *)
Definition create_reply_trace (name : string) (r : Reply) : History :=
  match r with
  | Failed e => [Log Fatal [Err e] "Error during creating index"]
  | Responded _ => [Log Info [Str "index" name] "Index created"]
  end.

Definition create_result (r : Reply) : Result unit :=
  match r with
  | Failed _ => Exited 1
  | Responded _ => Done tt
  end.

(** Surroundings in which the steps of the lifecycle go through: the
    client can be built, the existence check answers [status], a delete
    request is answered without error, the settings and mappings files,
    where given, can be read, the create request is answered, every bulk
    request is answered (whatever the status). *)
Definition client_ok (w : World) (f : Flags) : Prop :=
  new_client w [] (client_config f) = None.

Definition exists_status (w : World) (f : Flags) (status : Z) : Prop :=
  forall h, indices_exists w h (index f) = Responded status.

Definition delete_ok (w : World) (f : Flags) : Prop :=
  forall h, exists c,
    indices_delete w h (index f) = Responded c /\ IsError c = false.

Definition files_ok (w : World) (f : Flags) : Prop :=
  forall h,
    snd (file_or_default w (settingsFile f) h) = None
    /\ snd (file_or_default w (mappingsFile f) h) = None.

Definition create_ok (w : World) (f : Flags) : Prop :=
  forall h body, exists c, indices_create w h (index f) body = Responded c.

Definition bulk_ok (w : World) : Prop :=
  forall h body, exists c, bulk w h body = Responded c.

(** What the lifecycle decision (lines 82-108) adds to the history when
    a delete request goes through, and how it ends. *)
Definition lifecycle_trace (f : Flags) (present : bool) : History :=
  let field := [Str "index" (index f)] in
  if present then
    if addToIndex f && deleteIndex f then
      [Log Info field "Deleting and recreating index before adding documents";
       IndicesDelete (index f)]
    else if deleteIndex f then
      [Log Info field "Deleting index"; IndicesDelete (index f)]
    else if addToIndex f then
      [Log Info field "Appending documents to existing index"]
    else
      [Log Fatal field "Index exists. Use -delete to recreate or -add to append."]
  else
    (if deleteIndex f
     then [Log Warn field "Index does not exist. Nothing to delete."]
     else [])
    ++ [Log Info field (if addToIndex f
                        then "Creating index to append documents"
                        else "Creating index before loading data")].

Definition lifecycle_result (f : Flags) (present : bool) : Result bool :=
  if present then
    if deleteIndex f then Done false
    else if addToIndex f then Done true
    else Exited 1
  else Done false.

Definition nothing_to_delete (f : Flags) : Event :=
  Log Warn [Str "index" (index f)] "Index does not exist. Nothing to delete.".

(** The body of the request for a batch, and the two events of one
    round of the loop that is answered. *)
Definition batch_body {J : EncodingJSON} (f : Flags) (docs : list Doc)
  : string :=
  write_docs (index f) docs "".

Definition round {J : EncodingJSON} (f : Flags) (records : list Doc)
  (b : nat) (k : nat) : History :=
  [Bulk (batch_body f (batch b records k));
   Log Info [Int "inserted"
               (Z.min (Z.of_nat (S k) * batchSize f) (Go.len records));
             Int "total" (Go.len records)]
       "Batch inserted"].

(** The round of a loop whose batch size is 0. *)
Definition empty_round {J : EncodingJSON} (records : list Doc) : History :=
  [Bulk "";
   Log Info [Int "inserted" 0; Int "total" (Go.len records)] "Batch inserted"].

(** The loop is still running after any number of rounds. *)
Definition never_ends {J : EncodingJSON} (w : World) (f : Flags)
  (records : list Doc) (h : History) : Prop :=
  forall fuel, fst (upload w f records fuel 0 h) = OutOfFuel.

(** In the events [t] added after [h]: a bulk request whose reply is a
    transport error is followed by the fatal log line and nothing else,
    and the run has exited with status 1. *)
Definition failure_is_last {A} (w : World) (h t : History) (r : Result A)
  : Prop :=
  forall t1 body t2 e,
    t = t1 ++ Bulk body :: t2 ->
    bulk w (h ++ t1) body = Failed e ->
    r = Exited 1 /\ t2 = [Log Fatal [Err e] "Error during bulk insert"].

Definition aborts_on_failure {A} (w : World) (m : M A) : Prop :=
  forall h r h', m h = (r, h') ->
    exists t, h' = h ++ t /\ failure_is_last w h t r.

(** What the receiving side does with a body: cut it into lines, take
    the lines two by two as action line and document line, and decode
    the document line. *)
Fixpoint read_pairs {J : EncodingJSON} (ls : list string)
  : option (list (string * Doc)) :=
  match ls with
  | [] => Some []
  | action :: ls' =>
      match ls' with
      | [] => None
      | line :: rest =>
          match Unmarshal_doc line, read_pairs rest with
          | Some doc, Some pairs => Some ((action, doc) :: pairs)
          | _, _ => None
          end
      end
  end.

Definition read_bulk {J : EncodingJSON} (body : string)
  : option (list (string * Doc)) :=
  read_pairs (split_lines body).

(** The two lines written for one document. *)
Definition doc_lines {J : EncodingJSON} (name : string) (doc : Doc) : string :=
  (Marshal_meta (meta name) ++ Go.newline ++ Marshal_doc doc ++ Go.newline)%string.

(** What the program relies on in [encoding/json]: the encoder writes
    no raw newline (control characters inside strings are escaped and
    the output is compact), and decoding the encoding of a document that
    came out of the decoder gives the document back. *)
Definition decoded {J : EncodingJSON} (doc : Doc) : Prop :=
  exists data, snd (Unmarshal_records data) = None
               /\ In doc (fst (Unmarshal_records data)).

Class EncodingJSONLaws (J : EncodingJSON) : Prop := {
  Marshal_meta_one_line :
    forall m, no_newline (Marshal_meta m) = true;
  Marshal_doc_one_line :
    forall doc, decoded doc -> no_newline (Marshal_doc doc) = true;
  Unmarshal_Marshal_doc :
    forall doc, decoded doc -> Unmarshal_doc (Marshal_doc doc) = Some doc
}.

(** ** Inputs to run the program on *)

(** Three documents, as in the README's [data.json], and the files of
    the runs below; [broken.json] holds the one character [}]. *)
Definition sample_docs : list JSON.value :=
  [JSON.Obj [("id", JSON.Number "1"); ("name", JSON.Str "Alice")];
   JSON.Obj [("id", JSON.Number "2"); ("name", JSON.Str "Bob")];
   JSON.Obj [("id", JSON.Number "3"); ("name", JSON.Str "Carol")]].

Definition sample_data : string := JSON.encode (JSON.Arr sample_docs).

Definition sample_files : list (string * string) :=
  [("data.json", sample_data);
   ("settings.json", JSON.encode (JSON.Obj [("number_of_shards", JSON.Number "1")]));
   ("broken.json", "}")].

(** [n] empty documents as a data file. *)
Definition empty_docs (n : nat) : string :=
  JSON.encode (JSON.Arr (repeat (JSON.Obj []) n)).

(** [-index my-index -data data.json -batch 2]. *)
Definition sample_flags : Flags :=
  with_batchSize (default_flags "my-index" "data.json") 2.

(** A run in which the second bulk request fails in transport. *)
Definition failing_world : World := cluster 404 (Some 1%nat) sample_files.

Definition failing_run : Result unit * History :=
  Eval vm_compute in @main JSON.codec failing_world sample_flags 5 [].

Definition failing_prefix : History := firstn 9 (snd failing_run).

Definition failing_body : string :=
  @batch_body JSON.codec sample_flags (batch 2 sample_docs 1).

(** How many documents each bulk request of a history carries. *)
Definition documents_per_request (t : History) : list nat :=
  map (fun body => Nat.div2 (List.length (split_lines body))) (bulk_bodies t).

(** ** Two of the statements examined below, as they are worded *)

(** A settings file whose contents are not a JSON text ends the run
    before the create request. *)
Definition malformed_settings_are_fatal : Prop :=
  forall (w : World) (f : Flags) (fuel : nat) (content : string),
    settingsFile f <> "" ->
    (forall h, read_file w h (settingsFile f) = (content, None)) ->
    JSON.Valid content = false ->
    exists t,
      @main JSON.codec w f fuel [] = (Exited 1, t)
      /\ forall body, ~ In (IndicesCreate (index f) body) t.

(** With a batch size of 0 or less and documents to load, the loop
    never ends. *)
Definition nonpositive_batch_never_ends : Prop :=
  forall (w : World) (f : Flags) (records : list JSON.value) (h : History),
    bulk_ok w -> Go.in_int (batchSize f) -> batchSize f <= 0 ->
    records <> [] ->
    @never_ends JSON.codec w f records h.

(** ** Further observations on a run *)

(** The flags pass the two checks of lines 44-53. *)
Definition accepted (f : Flags) : Prop :=
  auth_conflict f = false /\ index f <> "" /\ dataFile f <> "".

(** [fmt.Errorf("unexpected status code %d", res.StatusCode)]
    (line 185). *)
Definition unexpected_status (StatusCode : Z) : string :=
  ("unexpected status code "
   ++ DecimalString.NilZero.string_of_int (Z.to_int StatusCode))%string.

(** The run of an accepted set of flags up to the client, and up to the
    existence check. *)
Definition client_built (f : Flags) : History :=
  [NewClient (client_config f)].

Definition index_checked (f : Flags) : History :=
  [NewClient (client_config f); IndicesExists (index f)].

(** The line written before the delete request (lines 85 and 89), and
    the run up to the delete request. *)
Definition deleting_line (f : Flags) : Event :=
  Log Info [Str "index" (index f)]
      (if addToIndex f
       then "Deleting and recreating index before adding documents"
       else "Deleting index").

Definition before_delete (f : Flags) : History :=
  index_checked f ++ [deleting_line f].

(** The line written when an existing index is appended to
    (line 93). *)
Definition appending_line (f : Flags) : Event :=
  Log Info [Str "index" (index f)] "Appending documents to existing index".

(** The flags with the two optional files changed. *)
Definition with_files (f : Flags) (settings mappings : string) : Flags :=
  {| url := url f; insecure := insecure f; index := index f;
     settingsFile := settings; mappingsFile := mappings;
     dataFile := dataFile f; batchSize := batchSize f;
     deleteIndex := deleteIndex f; addToIndex := addToIndex f;
     user := user f; pass := pass f; apiKey := apiKey f |}.

(** Surroundings that give one fixed answer to one kind of call and
    answer the others as [w] does. *)
Definition with_new_client (w : World) (err : option string) : World :=
  {| new_client := fun _ _ => err;
     read_file := read_file w;
     indices_exists := indices_exists w;
     indices_delete := indices_delete w;
     indices_create := indices_create w;
     bulk := bulk w |}.

Definition with_exists_reply (w : World) (r : Reply) : World :=
  {| new_client := new_client w;
     read_file := read_file w;
     indices_exists := fun _ _ => r;
     indices_delete := indices_delete w;
     indices_create := indices_create w;
     bulk := bulk w |}.

Definition with_delete_reply (w : World) (r : Reply) : World :=
  {| new_client := new_client w;
     read_file := read_file w;
     indices_exists := indices_exists w;
     indices_delete := fun _ _ => r;
     indices_create := indices_create w;
     bulk := bulk w |}.

Definition with_create_reply (w : World) (r : Reply) : World :=
  {| new_client := new_client w;
     read_file := read_file w;
     indices_exists := indices_exists w;
     indices_delete := indices_delete w;
     indices_create := fun _ _ _ => r;
     bulk := bulk w |}.

Definition with_bulk_reply (w : World) (r : Reply) : World :=
  {| new_client := new_client w;
     read_file := read_file w;
     indices_exists := indices_exists w;
     indices_delete := indices_delete w;
     indices_create := indices_create w;
     bulk := fun _ _ => r |}.

(** Two surroundings that differ at most in the status codes with which
    create and bulk requests are answered: every other call gets the
    same answer, and a create or a bulk request fails in transport in
    one exactly when it does in the other, with the same error. *)
Definition same_but_status (w1 w2 : World) : Prop :=
  (forall h cfg, new_client w1 h cfg = new_client w2 h cfg)
  /\ (forall h path, read_file w1 h path = read_file w2 h path)
  /\ (forall h name, indices_exists w1 h name = indices_exists w2 h name)
  /\ (forall h name, indices_delete w1 h name = indices_delete w2 h name)
  /\ (forall h name body,
        err_of (indices_create w1 h name body)
        = err_of (indices_create w2 h name body))
  /\ (forall h body, err_of (bulk w1 h body) = err_of (bulk w2 h body)).

(** Surroundings in which a run gets to the create step: the flags are
    accepted, the client is built, the existence check answers
    [status], 200 or 404, an existing index is to be appended to or
    deleted, and the delete request and the reads of the settings and
    mappings files are answered without error.  In [goes_through] the
    create request is answered as well, so that the run gets to the
    loading of the data file. *)
Definition gets_to_create (w : World) (f : Flags) (status : Z) : Prop :=
  accepted f /\ client_ok w f
  /\ exists_status w f status /\ (status = 200 \/ status = 404)
  /\ delete_ok w f /\ files_ok w f
  /\ (status = 200 -> addToIndex f = true \/ deleteIndex f = true).

Definition goes_through (w : World) (f : Flags) (status : Z) : Prop :=
  gets_to_create w f status /\ create_ok w f.

(** The delete and create requests of such a run. *)
Definition index_changes (f : Flags) (present : bool) (body : string)
  : list Event :=
  if present then
    if deleteIndex f
    then [IndicesDelete (index f); IndicesCreate (index f) body]
    else []
  else [IndicesCreate (index f) body].

(** The line written before the loop (line 128) and the one written
    after it (line 164). *)
Definition starting_line (total : Z) : Event :=
  Log Info [Int "total" total] "Starting bulk insert".

Definition completed_line : Event := Log Info [] "Bulk load completed".

(** The two events of a round of the loop whose request fails in
    transport. *)
Definition failed_round {J : EncodingJSON} (f : Flags) (records : list Doc)
  (b : nat) (k : nat) (e : string) : History :=
  [Bulk (batch_body f (batch b records k));
   Log Fatal [Err e] "Error during bulk insert"].

(** The counts of the "Batch inserted" lines of a history: [inserted]
    and [total]. *)
Definition progress (t : History) : list (Z * Z) :=
  flat_map (fun e =>
              match e with
              | Log Info [Int _ inserted; Int _ total] msg =>
                  if (msg =? "Batch inserted")%string
                  then [(inserted, total)] else []
              | _ => []
              end) t.

(** Events after which the process is gone: the usage text, which the
    program only prints on its way out, and a fatal log line. *)
Definition is_final (e : Event) : bool :=
  match e with
  | Usage | Log Fatal _ _ => true
  | _ => false
  end.

(** How the events [t] of a run fit the way it ended: a run that
    exited did so with status 1 and its last event is final, the only
    final one; a run that ended any other way has no final event. *)
Definition ended {A} (r : Result A) (t : History) : Prop :=
  match r with
  | Exited c =>
      c = 1
      /\ exists t0 e, t = t0 ++ [e]
                      /\ Forall (fun x => is_final x = false) t0
                      /\ is_final e = true
  | _ => Forall (fun x => is_final x = false) t
  end.

Definition tidy {A} (m : M A) : Prop :=
  forall h r h', m h = (r, h') -> exists t, h' = h ++ t /\ ended r t.

(** What an event has to do with the flags: a client is built from the
    configuration of lines 56-74, a file that is read is named by one
    of the three file flags, and an index request names the index of
    the [-index] flag; neither name is empty. *)
Definition named_by (f : Flags) (e : Event) : Prop :=
  match e with
  | NewClient cfg => cfg = client_config f
  | ReadFile path =>
      path <> ""
      /\ (path = settingsFile f \/ path = mappingsFile f \/ path = dataFile f)
  | IndicesExists name | IndicesDelete name | IndicesCreate name _ =>
      name = index f /\ name <> ""
  | Bulk _ | Log _ _ _ | Usage => True
  end.

(** The order of the requests of a run: the existence check first;
    then either a delete request, followed if the run goes on by a
    create request, or a create request, or neither; bulk requests come
    last, and never after a delete request without a create request. *)
Definition create_then_bulk (name : string) (reqs : list Event) : bool :=
  match reqs with
  | IndicesCreate n _ :: rest => String.eqb n name && forallb is_bulk rest
  | _ => false
  end.

Definition request_order (name : string) (reqs : list Event) : bool :=
  match reqs with
  | [] => true
  | IndicesExists n :: rest =>
      String.eqb n name
      && match rest with
         | IndicesDelete n1 :: rest1 =>
             String.eqb n1 name
             && match rest1 with
                | [] => true
                | _ => create_then_bulk name rest1
                end
         | IndicesCreate _ _ :: _ => create_then_bulk name rest
         | _ => forallb is_bulk rest
         end
  | _ => false
  end.

Definition is_delete (e : Event) : bool :=
  match e with
  | IndicesDelete _ => true
  | _ => false
  end.

Definition is_create (e : Event) : bool :=
  match e with
  | IndicesCreate _ _ => true
  | _ => false
  end.

Definition is_warning (e : Event) : bool :=
  match e with
  | Log Warn _ _ => true
  | _ => false
  end.

(** The events of the loop: bulk requests, info lines and the fatal
    line. *)
Definition loop_event (e : Event) : Prop :=
  match e with
  | Bulk _ | Log Info _ _ | Log Fatal _ _ => True
  | _ => False
  end.

(** ** What the requests are read back to, and which were answered *)

(** What the receiving side reads from the bodies of several requests,
    one after the other. *)
Fixpoint read_all {J : EncodingJSON} (bodies : list string)
  : option (list (string * Doc)) :=
  match bodies with
  | [] => Some []
  | body :: rest =>
      match read_bulk body, read_all rest with
      | Some pairs, Some more => Some (pairs ++ more)
      | _, _ => None
      end
  end.

(** The number of bulk requests among the events [t], added after [h],
    that the cluster answered (with any status). *)
Fixpoint answered (w : World) (h t : History) : nat :=
  match t with
  | [] => 0%nat
  | e :: t' =>
      (match e with
       | Bulk body =>
           match bulk w h body with
           | Responded _ => 1
           | Failed _ => 0
           end
       | _ => 0
       end + answered w (h ++ [e]) t')%nat
  end.

(** * Properties *)

(** ** Go values *)

Lemma nonempty_true (s : string) : s <> "" <-> Go.nonempty s = true.
Proof.
  unfold Go.nonempty. destruct (String.eqb_spec s ""); simpl; split;
    intros; congruence.
Qed.

Lemma nonempty_false (s : string) : s = "" <-> Go.nonempty s = false.
Proof.
  unfold Go.nonempty. destruct (String.eqb_spec s ""); simpl; split;
    intros; congruence.
Qed.

Lemma wrap_id (z : Z) : Go.in_int z -> Go.wrap z = z.
Proof.
  unfold Go.in_int, Go.int_min, Go.int_max, Go.wrap. intros H.
  rewrite Z.mod_small; lia.
Qed.

(** ** The monad *)

Section MonadFacts.

Context {A B : Type}.

Lemma bind_Done (m : M A) (f : A -> M B) h a h' :
  m h = (Done a, h') -> bind m f h = f a h'.
Proof. unfold bind. intros ->. reflexivity. Qed.

Lemma bind_Exited (m : M A) (f : A -> M B) h c h' :
  m h = (Exited c, h') -> bind m f h = (Exited c, h').
Proof. unfold bind. intros ->. reflexivity. Qed.

Lemma bind_Panicked (m : M A) (f : A -> M B) h s h' :
  m h = (Panicked s, h') -> bind m f h = (Panicked s, h').
Proof. unfold bind. intros ->. reflexivity. Qed.

Lemma bind_OutOfFuel (m : M A) (f : A -> M B) h h' :
  m h = (OutOfFuel, h') -> bind m f h = (OutOfFuel, h').
Proof. unfold bind. intros ->. reflexivity. Qed.

End MonadFacts.

Section Emits.

Context {J : EncodingJSON}.
Variable w : World.
Variable P : Event -> Prop.

Lemma emits_ret {A} (a : A) : emits P (ret a).
Proof.
  intros h r h' [= <- <-]. exists []. now rewrite app_nil_r.
Qed.

Lemma emits_stop {A} (r0 : Result A) : emits P (fun h => (r0, h)).
Proof.
  intros h r h' [= <- <-]. exists []. now rewrite app_nil_r.
Qed.

Lemma emits_bind {A B} (m : M A) (f : A -> M B) :
  emits P m -> (forall a, emits P (f a)) -> emits P (bind m f).
Proof.
  intros Hm Hf h r h'. unfold bind.
  destruct (m h) as [r1 h1] eqn:E. destruct (Hm _ _ _ E) as (t1 & -> & F1).
  destruct r1.
  - intros E2. destruct (Hf _ _ _ _ E2) as (t2 & -> & F2).
    exists (t1 ++ t2). rewrite app_assoc. split; [easy|].
    now apply Forall_app.
  - intros [= <- <-]. now exists t1.
  - intros [= <- <-]. now exists t1.
  - intros [= <- <-]. now exists t1.
Qed.

Lemma emits_emit (e : Event) : P e -> emits P (emit e).
Proof.
  intros He h r h' [= <- <-]. exists [e]. split; [easy|]. now constructor.
Qed.

Lemma emits_call {A} (answer : History -> A) (e : Event) :
  P e -> emits P (call answer e).
Proof.
  intros He h r h' [= <- <-]. exists [e]. split; [easy|]. now constructor.
Qed.

Lemma emits_when (c : bool) (m : M unit) : emits P m -> emits P (when c m).
Proof. destruct c; simpl; [easy | intros _; apply emits_ret]. Qed.

Lemma emits_log_Fatal {A} fields msg :
  P (Log Fatal fields msg) -> emits P (@log_Fatal A fields msg).
Proof.
  intros H. apply emits_bind; [now apply emits_emit | intros; apply emits_stop].
Qed.

Lemma emits_checkErr context err :
  (forall fields msg, P (Log Fatal fields msg)) -> emits P (checkErr context err).
Proof.
  intros H. destruct err; simpl; [now apply emits_log_Fatal | apply emits_ret].
Qed.

End Emits.

Lemma upload_emits {J : EncodingJSON} (w : World) f records fuel i :
  emits bulk_or_log (upload w f records fuel i).
Proof.
  revert i. induction fuel as [|fuel IH]; intros i; simpl.
  - destruct (i <? Go.len records); [apply emits_stop | apply emits_ret].
  - destruct (i <? Go.len records); [|apply emits_ret].
    destruct (Go.slice _ _ _); [|apply emits_stop].
    apply emits_bind; [now apply emits_call|]. intros r.
    apply emits_bind; [now apply emits_checkErr|]. intros _.
    apply emits_bind; [now apply emits_emit|]. intros _.
    apply IH.
Qed.

(** ** Which events each part of the program can add *)

Section Blocks.

Context {J : EncodingJSON}.
Variable w : World.
Variable P : Event -> Prop.

Hypothesis P_Log : forall lvl fields msg, P (Log lvl fields msg).

Lemma emits_weaken {A} (Q : Event -> Prop) (m : M A) :
  (forall e, Q e -> P e) -> emits Q m -> emits P m.
Proof.
  intros HQ Hm h r h' E. destruct (Hm _ _ _ E) as (t & -> & F).
  exists t. split; [easy|]. eapply Forall_impl; eauto.
Qed.

Lemma indexExists_emits name :
  P (IndicesExists name) -> emits P (indexExists w name).
Proof.
  intros H. apply emits_bind; [now apply emits_call|].
  intros [e | c]; [apply emits_ret|].
  destruct (c =? 200); [apply emits_ret|].
  destruct (c =? 404); apply emits_ret.
Qed.

Lemma deleteAndCheck_emits name :
  P (IndicesDelete name) -> emits P (deleteAndCheck w name).
Proof.
  intros H. apply emits_bind; [now apply emits_call|]. intros r.
  apply emits_bind; [now apply emits_checkErr|]. intros _.
  destruct r; [apply emits_ret|].
  apply emits_when. now apply emits_log_Fatal.
Qed.

Lemma buildCreateIndexBody_emits sf mf :
  (forall path, P (ReadFile path)) -> emits P (buildCreateIndexBody w sf mf).
Proof.
  intros H. unfold buildCreateIndexBody.
  apply emits_bind.
  { destruct (Go.nonempty sf); [|apply emits_ret].
    apply emits_bind; [now apply emits_call|]. intros r.
    destruct (snd r); [now apply emits_log_Fatal | apply emits_ret]. }
  intros s. apply emits_bind; [|intros; apply emits_ret].
  destruct (Go.nonempty mf); [|apply emits_ret].
  apply emits_bind; [now apply emits_call|]. intros r.
  destruct (snd r); [now apply emits_log_Fatal | apply emits_ret].
Qed.

Lemma lifecycle_emits f present :
  P (IndicesDelete (index f)) -> emits P (lifecycle w f present).
Proof.
  intros H. unfold lifecycle.
  destruct present.
  - destruct (addToIndex f && deleteIndex f).
    { apply emits_bind; [now apply emits_emit|]. intros _.
      apply emits_bind; [now apply deleteAndCheck_emits|]. intros _.
      apply emits_ret. }
    destruct (deleteIndex f).
    { apply emits_bind; [now apply emits_emit|]. intros _.
      apply emits_bind; [now apply deleteAndCheck_emits|]. intros _.
      apply emits_ret. }
    destruct (addToIndex f).
    { apply emits_bind; [now apply emits_emit|]. intros _. apply emits_ret. }
    now apply emits_log_Fatal.
  - apply emits_bind; [apply emits_when; now apply emits_emit|]. intros _.
    apply emits_bind; [|intros; apply emits_ret].
    destruct (addToIndex f); now apply emits_emit.
Qed.

Lemma create_if_needed_emits f present :
  (forall path, P (ReadFile path)) ->
  (forall body, P (IndicesCreate (index f) body)) ->
  emits P (create_if_needed w f present).
Proof.
  intros HR HC. apply emits_when.
  apply emits_bind; [now apply buildCreateIndexBody_emits|]. intros body.
  apply emits_bind; [now apply emits_call|]. intros r.
  apply emits_bind; [now apply emits_checkErr|]. intros _.
  now apply emits_emit.
Qed.

Lemma prepare_index_emits f :
  (forall path, P (ReadFile path)) ->
  P (IndicesExists (index f)) ->
  P (IndicesDelete (index f)) ->
  (forall body, P (IndicesCreate (index f) body)) ->
  emits P (prepare_index w f).
Proof.
  intros HR HE HD HC.
  apply emits_bind; [now apply indexExists_emits|]. intros r.
  apply emits_bind; [now apply emits_checkErr|]. intros _.
  apply emits_bind; [now apply lifecycle_emits|]. intros e.
  now apply create_if_needed_emits.
Qed.

Lemma load_records_emits f :
  (forall path, P (ReadFile path)) -> emits P (load_records w f).
Proof.
  intros HR. apply emits_bind; [now apply emits_call|]. intros r.
  apply emits_bind; [now apply emits_checkErr|]. intros _.
  apply emits_bind; [now apply emits_checkErr|]. intros _.
  apply emits_ret.
Qed.

Lemma bulk_load_emits f fuel :
  (forall path, P (ReadFile path)) -> (forall body, P (Bulk body)) ->
  emits P (bulk_load w f fuel).
Proof.
  intros HR HB. apply emits_bind; [now apply load_records_emits|].
  intros records.
  apply emits_bind; [now apply emits_emit|]. intros _.
  apply emits_bind; [|intros; now apply emits_emit].
  apply emits_weaken with (Q := bulk_or_log); [|apply upload_emits].
  intros [] HQ; simpl in HQ; try contradiction; auto.
Qed.

End Blocks.

(** ** Validation of the flags (lines 44-53) *)

Section Validation.

Context {J : EncodingJSON}.
Variable w : World.

Lemma main_auth_conflict (f : Flags) (fuel : nat) :
  auth_conflict f = true -> main w f fuel [] = (Exited 1, conflict_trace).
Proof.
  intros H. unfold main, validate. rewrite H. reflexivity.
Qed.

Lemma validate_passes (f : Flags) (h : History) :
  auth_conflict f = false -> index f <> "" -> dataFile f <> "" ->
  validate f h = (Done tt, h).
Proof.
  intros H Hi Hd. unfold validate. rewrite H.
  apply String.eqb_neq in Hi, Hd. unfold bind; simpl. now rewrite Hi, Hd.
Qed.

Lemma main_starts_with_client (f : Flags) (fuel : nat) :
  validate f [] = (Done tt, []) ->
  exists r t, main w f fuel [] = (r, NewClient (client_config f) :: t).
Proof.
  intros Hv. unfold main. rewrite (bind_Done _ _ _ _ _ Hv).
  unfold bind at 1, elasticsearch_NewClient, call. simpl app.
  match goal with |- exists r t, ?X = _ => destruct X as [r h] eqn:E end.
  assert (H : emits (fun _ => True)
                (fun h => (checkErr "creating Elasticsearch client"
                             (new_client w [] (client_config f)) ;;
                           prepare_index w f ;; bulk_load w f fuel) h)).
  { apply emits_bind; [now apply emits_checkErr|]. intros _.
    apply emits_bind; [now apply prepare_index_emits|]. intros _.
    now apply bulk_load_emits. }
  destruct (H _ _ _ E) as (t & -> & _). now exists r, t.
Qed.

(** C5.  When a username and a password are given together with an API
    key, [main] writes the message about the two methods, prints the
    usage text and exits with status 1; these two events are the whole
    run, so no request and no other call is made. *)
Theorem both_auth_methods_rejected (f : Flags) (fuel : nat) :
  user f <> "" -> pass f <> "" -> apiKey f <> "" ->
  main w f fuel [] = (Exited 1, conflict_trace)
  /\ In Usage conflict_trace
  /\ forallb (fun e => negb (is_request e)) conflict_trace = true.
Proof.
  intros Hu Hp Hk. split; [|split; [simpl; auto | reflexivity]].
  apply main_auth_conflict. unfold auth_conflict.
  apply nonempty_true in Hu, Hk. now rewrite Hu, Hk.
Qed.

(** C6.  When the index name or the data file path is empty, [main]
    prints the usage text and exits with status 1, and the run contains
    no request to the cluster. *)
Theorem missing_required_flag_rejected (f : Flags) (fuel : nat) :
  index f = "" \/ dataFile f = "" ->
  exists t : History,
    main w f fuel [] = (Exited 1, t)
    /\ In Usage t
    /\ forallb (fun e => negb (is_request e)) t = true.
Proof.
  intros H. destruct (auth_conflict f) eqn:E.
  - exists conflict_trace. split; [now apply main_auth_conflict|].
    split; [simpl; auto | reflexivity].
  - exists [Usage]. split; [|split; [simpl; auto | reflexivity]].
    unfold main, validate. rewrite E.
    assert (((index f =? "")%string || (dataFile f =? "")%string) = true) as ->.
    { destruct H as [-> | ->]; simpl; [reflexivity | apply orb_true_r]. }
    reflexivity.
Qed.

(** C9.  With exactly one of username and password given:
    without an API key the auth check does not fire, the client
    configuration carries no credentials at all and, the required flags
    being there, validation passes silently and the first thing [main]
    does is build the client from that configuration; with an API key
    the run is rejected as a conflict.  In general the configuration
    carries a username or password only if both were given. *)
Theorem half_basic_auth (f : Flags) (fuel : nat) :
  xorb (Go.nonempty (user f)) (Go.nonempty (pass f)) = true ->
  (apiKey f = "" ->
     auth_conflict f = false
     /\ Username (client_config f) = ""
     /\ Password (client_config f) = ""
     /\ APIKey (client_config f) = ""
     /\ (index f <> "" -> dataFile f <> "" ->
         (forall h, validate f h = (Done tt, h))
         /\ exists r t, main w f fuel [] = (r, NewClient (client_config f) :: t)))
  /\ (apiKey f <> "" -> main w f fuel [] = (Exited 1, conflict_trace))
  /\ (forall g : Flags,
        Username (client_config g) <> "" \/ Password (client_config g) <> "" ->
        user g <> "" /\ pass g <> ""
        /\ Username (client_config g) = user g
        /\ Password (client_config g) = pass g).
Proof.
  intros Hx. split; [|split].
  - intros Hk. apply nonempty_false in Hk.
    assert (Hc : auth_conflict f = false).
    { unfold auth_conflict. rewrite Hk. apply andb_false_r. }
    assert (Hb : Go.nonempty (user f) && Go.nonempty (pass f) = false).
    { destruct (Go.nonempty (user f)), (Go.nonempty (pass f)); easy. }
    assert (Hcfg : client_config f
                   = {| Addresses := [url f];
                        InsecureSkipVerify := insecure f;
                        Username := ""; Password := ""; APIKey := "" |}).
    { unfold client_config. now rewrite Hb, Hk. }
    split; [assumption|]. rewrite Hcfg at 1 2 3. simpl.
    repeat split; try reflexivity.
    + intros h. now apply validate_passes.
    + now apply main_starts_with_client, validate_passes.
  - intros Hk. apply main_auth_conflict. unfold auth_conflict.
    apply nonempty_true in Hk. rewrite Hk.
    destruct (Go.nonempty (user f)), (Go.nonempty (pass f)); easy.
  - intros g Hg. unfold client_config in *.
    destruct (Go.nonempty (user g)) eqn:Eu, (Go.nonempty (pass g)) eqn:Ep;
      destruct (Go.nonempty (apiKey g)); simpl in *;
      try (destruct Hg; congruence).
    all: apply nonempty_true in Eu, Ep; auto.
Qed.

End Validation.

(** ** Fatal exits *)

Lemma log_Fatal_run {A} (fields : list Field) (msg : string) (h : History) :
  @log_Fatal A fields msg h = (Exited 1, h ++ [Log Fatal fields msg]).
Proof. reflexivity. Qed.

Lemma checkErr_nil (context : string) (h : History) :
  checkErr context None h = (Done tt, h).
Proof. reflexivity. Qed.

Lemma checkErr_err (context err : string) (h : History) :
  checkErr context (Some err) h
  = (Exited 1, h ++ [Log Fatal [Err err] ("Error during " ++ context)%string]).
Proof. reflexivity. Qed.

(** ** The create-index body (lines 198-219) and the create request *)

Section CreateIndex.

Context {J : EncodingJSON}.
Variable w : World.

Lemma read_optional_ok (path msg : string) (h : History) :
  snd (file_or_default w path h) = None ->
  (if Go.nonempty path then
     r <- os_ReadFile w path ;;
     match snd r with
     | None => ret (fst r)
     | Some err => log_Fatal [Err err] msg
     end
   else ret "{}") h
  = (Done (fst (file_or_default w path h)), after_read path h).
Proof.
  unfold file_or_default, after_read.
  destruct (Go.nonempty path); [|reflexivity].
  unfold bind, os_ReadFile, call. intros ->. reflexivity.
Qed.

Lemma read_optional_fails (path msg err : string) (h : History) :
  snd (file_or_default w path h) = Some err ->
  (if Go.nonempty path then
     r <- os_ReadFile w path ;;
     match snd r with
     | None => ret (fst r)
     | Some err => log_Fatal [Err err] msg
     end
   else ret "{}") h
  = (Exited 1, h ++ [ReadFile path; Log Fatal [Err err] msg]).
Proof.
  unfold file_or_default.
  destruct (Go.nonempty path); [|discriminate].
  unfold bind, os_ReadFile, call. intros ->. simpl.
  rewrite log_Fatal_run. now rewrite <- app_assoc.
Qed.

Lemma buildCreateIndexBody_ok (sf mf : string) (h : History) :
  snd (file_or_default w sf h) = None ->
  snd (file_or_default w mf (after_read sf h)) = None ->
  buildCreateIndexBody w sf mf h
  = (Done (create_index_body (fst (file_or_default w sf h))
                             (fst (file_or_default w mf (after_read sf h)))),
     after_read mf (after_read sf h)).
Proof.
  intros Hs Hm. unfold buildCreateIndexBody.
  rewrite (bind_Done _ _ _ _ _ (read_optional_ok sf _ h Hs)).
  rewrite (bind_Done _ _ _ _ _ (read_optional_ok mf _ _ Hm)).
  reflexivity.
Qed.

(** The default body, byte for byte. *)
Lemma default_body_bytes :
  list_ascii_of_string (create_index_body "{}" "{}")
  = map ascii_of_nat
      [123; 34; 115; 101; 116; 116; 105; 110; 103; 115; 34; 58; 32; 123; 125;
       44; 32; 34; 109; 97; 112; 112; 105; 110; 103; 115; 34; 58; 32; 123;
       125; 125]%nat.
Proof. reflexivity. Qed.

Lemma create_if_needed_ok (f : Flags) (h : History) :
  snd (file_or_default w (settingsFile f) h) = None ->
  snd (file_or_default w (mappingsFile f) (after_read (settingsFile f) h)) = None ->
  let h' := after_read (mappingsFile f) (after_read (settingsFile f) h) in
  let body :=
    create_index_body
      (fst (file_or_default w (settingsFile f) h))
      (fst (file_or_default w (mappingsFile f)
                            (after_read (settingsFile f) h))) in
  let r := indices_create w h' (index f) body in
  create_if_needed w f false h
  = (create_result r,
     h' ++ IndicesCreate (index f) body :: create_reply_trace (index f) r).
Proof.
  intros Hs Hm. cbv zeta. unfold create_if_needed, when.
  change (negb false) with true. cbv iota.
  rewrite (bind_Done _ _ _ _ _ (buildCreateIndexBody_ok _ _ h Hs Hm)).
  unfold bind, es_Indices_Create, call.
  destruct (indices_create w _ (index f) _) as [e | c]; simpl err_of.
  - rewrite checkErr_err. simpl. now rewrite <- app_assoc.
  - rewrite checkErr_nil. unfold log_Info, emit. simpl.
    now rewrite <- app_assoc.
Qed.

Lemma create_if_needed_present (f : Flags) (h : History) :
  create_if_needed w f true h = (Done tt, h).
Proof. reflexivity. Qed.

(** C3.  Without a settings and a mappings file the body is
    [{"settings": {}, "mappings": {}}], byte for byte, and no file is
    read.  In general, when the files that are given can be read, the
    body is the text [{"settings": ], then the content of the settings
    file as read, or [{}] when no settings file is given, then the text
    [, "mappings": ], then likewise the content of the mappings file or
    [{}], then [}]; and this is the body of the create request that is
    sent. *)
Theorem create_index_body_contents (f : Flags) (h : History) :
  (exists body,
     buildCreateIndexBody w "" "" h = (Done body, h)
     /\ body = ("{" ++ Go.dquote ++ "settings" ++ Go.dquote ++ ": {}, "
                ++ Go.dquote ++ "mappings" ++ Go.dquote ++ ": {}}")%string
     /\ list_ascii_of_string body
        = map ascii_of_nat
            [123; 34; 115; 101; 116; 116; 105; 110; 103; 115; 34; 58; 32;
             123; 125; 44; 32; 34; 109; 97; 112; 112; 105; 110; 103; 115;
             34; 58; 32; 123; 125; 125]%nat)
  /\ (snd (file_or_default w (settingsFile f) h) = None ->
      snd (file_or_default w (mappingsFile f)
             (after_read (settingsFile f) h)) = None ->
      let settings :=
        if Go.nonempty (settingsFile f)
        then fst (read_file w h (settingsFile f)) else "{}" in
      let mappings :=
        if Go.nonempty (mappingsFile f)
        then fst (read_file w (after_read (settingsFile f) h) (mappingsFile f))
        else "{}" in
      let body :=
        ("{" ++ Go.dquote ++ "settings" ++ Go.dquote ++ ": " ++ settings
         ++ ", " ++ Go.dquote ++ "mappings" ++ Go.dquote ++ ": " ++ mappings
         ++ "}")%string in
      fst (buildCreateIndexBody w (settingsFile f) (mappingsFile f) h)
      = Done body
      /\ In (IndicesCreate (index f) body)
            (snd (create_if_needed w f false h))).
Proof.
  split.
  - eexists. split; [reflexivity|]. split; reflexivity.
  - intros Hs Hm. cbv zeta.
    assert (E1 : fst (file_or_default w (settingsFile f) h)
                 = if Go.nonempty (settingsFile f)
                   then fst (read_file w h (settingsFile f)) else "{}").
    { unfold file_or_default. now destruct (Go.nonempty (settingsFile f)). }
    assert (E2 : fst (file_or_default w (mappingsFile f)
                        (after_read (settingsFile f) h))
                 = if Go.nonempty (mappingsFile f)
                   then fst (read_file w (after_read (settingsFile f) h)
                               (mappingsFile f))
                   else "{}").
    { unfold file_or_default. now destruct (Go.nonempty (mappingsFile f)). }
    split.
    + rewrite (buildCreateIndexBody_ok _ _ h Hs Hm). cbn [fst].
      unfold create_index_body. now rewrite E1, E2.
    + rewrite (create_if_needed_ok f h Hs Hm). cbn [snd].
      apply in_or_app. right. left.
      unfold create_index_body. now rewrite E1, E2.
Qed.

End CreateIndex.

(** ** The contents of the settings and mappings files *)

Section FileContents.

Variable w : World.

(** C4, as the program has it.  The contents of the settings and
    mappings files are not examined.  A file that is given and cannot
    be read ends the run before the create request; when the files
    given can be read, the create request is sent with their contents
    in its body as they are, JSON or not. *)
Theorem file_contents_not_checked (f : Flags) (h : History) :
  (forall err,
     snd (file_or_default w (settingsFile f) h) = Some err ->
     create_if_needed w f false h
     = (Exited 1,
        h ++ [ReadFile (settingsFile f);
              Log Fatal [Err err] "Reading settings file"]))
  /\ (forall err,
        snd (file_or_default w (settingsFile f) h) = None ->
        snd (file_or_default w (mappingsFile f)
               (after_read (settingsFile f) h)) = Some err ->
        create_if_needed w f false h
        = (Exited 1,
           after_read (settingsFile f) h
           ++ [ReadFile (mappingsFile f);
               Log Fatal [Err err] "Reading mappings file"]))
  /\ (snd (file_or_default w (settingsFile f) h) = None ->
      snd (file_or_default w (mappingsFile f)
             (after_read (settingsFile f) h)) = None ->
      let h' := after_read (mappingsFile f) (after_read (settingsFile f) h) in
      let body :=
        create_index_body
          (fst (file_or_default w (settingsFile f) h))
          (fst (file_or_default w (mappingsFile f)
                  (after_read (settingsFile f) h))) in
      let r := indices_create w h' (index f) body in
      create_if_needed w f false h
      = (create_result r,
         h' ++ IndicesCreate (index f) body
               :: create_reply_trace (index f) r)).
Proof.
  split; [|split].
  - intros err Hs. unfold create_if_needed, when.
    change (negb false) with true. cbv iota.
    unfold bind at 1, buildCreateIndexBody.
    now rewrite (bind_Exited _ _ _ _ _ (read_optional_fails w _ _ _ h Hs)).
  - intros err Hs Hm. unfold create_if_needed, when.
    change (negb false) with true. cbv iota.
    unfold bind at 1, buildCreateIndexBody.
    rewrite (bind_Done _ _ _ _ _ (read_optional_ok w _ _ h Hs)).
    now rewrite (bind_Exited _ _ _ _ _ (read_optional_fails w _ _ _ _ Hm)).
  - apply create_if_needed_ok.
Qed.

End FileContents.

(** ** The index lifecycle (lines 78-117) *)

Section Lifecycle.

Context {J : EncodingJSON}.
Variable w : World.

Lemma indexExists_run (f : Flags) (status : Z) (h : History) :
  exists_status w f status -> status = 200 \/ status = 404 ->
  indexExists w (index f) h
  = (Done (status =? 200, None), h ++ [IndicesExists (index f)]).
Proof.
  intros He Hs. unfold indexExists, bind, es_Indices_Exists, call.
  rewrite He. destruct Hs as [-> | ->]; reflexivity.
Qed.

Lemma deleteAndCheck_ok (f : Flags) (h : History) :
  delete_ok w f ->
  deleteAndCheck w (index f) h = (Done tt, h ++ [IndicesDelete (index f)]).
Proof.
  intros Hd. destruct (Hd h) as (c & E & Hc).
  unfold deleteAndCheck, bind, es_Indices_Delete, call. rewrite E. simpl.
  now rewrite Hc.
Qed.

Lemma lifecycle_run (f : Flags) (present : bool) (h : History) :
  delete_ok w f ->
  lifecycle w f present h
  = (lifecycle_result f present, h ++ lifecycle_trace f present).
Proof.
  intros Hd. unfold lifecycle, lifecycle_trace, lifecycle_result.
  destruct present, (addToIndex f), (deleteIndex f); simpl;
    unfold bind, log_Info, log_Warn, emit, when; simpl;
    rewrite ?deleteAndCheck_ok by assumption;
    rewrite <- ?app_assoc; reflexivity.
Qed.

(** [main] up to the lifecycle decision, when validation passes and the
    client is built. *)
Lemma main_run (f : Flags) (fuel : nat) (status : Z) :
  validate f [] = (Done tt, []) ->
  client_ok w f ->
  exists_status w f status -> status = 200 \/ status = 404 ->
  main w f fuel []
  = (exists_ <- lifecycle w f (status =? 200) ;;
     create_if_needed w f exists_ ;;
     bulk_load w f fuel)
      [NewClient (client_config f); IndicesExists (index f)].
Proof.
  intros Hv Hc He Hs. unfold main.
  rewrite (bind_Done _ _ _ _ _ Hv).
  unfold bind at 1, elasticsearch_NewClient, call. rewrite Hc.
  rewrite (bind_Done _ _ _ tt _ (checkErr_nil _ _)).
  unfold prepare_index at 1.
  unfold bind at 1.
  unfold bind at 1. rewrite (indexExists_run f status _ He Hs).
  simpl snd. rewrite (bind_Done _ _ _ tt _ (checkErr_nil _ _)). simpl fst.
  simpl app. unfold bind.
  destruct (lifecycle w f (status =? 200) _) as [[e| | |] h3]; try reflexivity.
Qed.

Lemma filter_app_none {A} (p : A -> bool) (l t : list A) :
  Forall (fun e => p e = false) t -> filter p (l ++ t) = filter p l.
Proof.
  intros H. rewrite filter_app.
  replace (filter p t) with (@nil A); [apply app_nil_r|].
  induction H as [|e t He _ IH]; simpl; [easy|]. now rewrite He.
Qed.

Lemma bulk_bodies_app (l t : History) :
  bulk_bodies (l ++ t) = bulk_bodies l ++ bulk_bodies t.
Proof. unfold bulk_bodies. apply flat_map_app. Qed.

Lemma bulk_load_no_index_change (f : Flags) (fuel : nat) :
  emits (fun e => is_index_change e = false) (bulk_load w f fuel).
Proof. now apply bulk_load_emits. Qed.

Lemma filter_after_read (p : Event -> bool) (path : string) (h : History) :
  (forall x, p (ReadFile x) = false) ->
  filter p (after_read path h) = filter p h.
Proof.
  intros H. unfold after_read. destruct (Go.nonempty path); [|easy].
  apply filter_app_none. constructor; [apply H | constructor].
Qed.

(** The index requests of a run in which the index gets created. *)
Lemma create_then_load (f : Flags) (fuel : nat) (h : History) :
  files_ok w f ->
  exists body r t,
    (create_if_needed w f false ;; bulk_load w f fuel) h = (r, h ++ t)
    /\ filter is_index_change t = [IndicesCreate (index f) body].
Proof.
  intros Hf. destruct (Hf h) as [Hs _].
  destruct (Hf (after_read (settingsFile f) h)) as [_ Hm].
  pose proof (create_if_needed_ok w f h Hs Hm) as E. cbv zeta in E.
  set (body := create_index_body _ _) in E.
  set (h' := after_read _ (after_read _ h)) in E.
  assert (Hh' : exists t0, h' = h ++ t0 /\ filter is_index_change t0 = []).
  { subst h'. unfold after_read.
    destruct (Go.nonempty (settingsFile f)), (Go.nonempty (mappingsFile f));
      rewrite <- ?app_assoc; eexists;
      (split; [reflexivity || (symmetry; apply app_nil_r)|]); reflexivity. }
  destruct Hh' as (t0 & Eh & F0).
  exists body. unfold bind. rewrite E.
  destruct (indices_create w h' (index f) body) as [e | c]; simpl.
  - eexists _, (t0 ++ _). rewrite Eh, <- app_assoc. split; [reflexivity|].
    rewrite !filter_app, F0. reflexivity.
  - destruct (bulk_load w f fuel _) as [r hb] eqn:Eb.
    destruct (bulk_load_no_index_change f fuel _ _ _ Eb) as (tb & -> & Fb).
    exists r, (t0 ++ (IndicesCreate (index f) body
                      :: [Log Info [Str "index" (index f)] "Index created"])
               ++ tb).
    rewrite Eh, <- !app_assoc. split; [reflexivity|].
    rewrite app_assoc, filter_app_none by assumption.
    rewrite filter_app, F0. reflexivity.
Qed.

End Lifecycle.

Section DecisionTable.

Context {J : EncodingJSON}.
Variable w : World.

Lemma main_lifecycle_done (f : Flags) (fuel : nat) (status : Z) :
  validate f [] = (Done tt, []) ->
  client_ok w f ->
  exists_status w f status -> status = 200 \/ status = 404 ->
  delete_ok w f ->
  forall e, lifecycle_result f (status =? 200) = Done e ->
  main w f fuel []
  = (create_if_needed w f e ;; bulk_load w f fuel)
      ([NewClient (client_config f); IndicesExists (index f)]
       ++ lifecycle_trace f (status =? 200)).
Proof.
  intros Hv Hc He Hs Hd e E. rewrite (main_run w f fuel status Hv Hc He Hs).
  unfold bind at 1. now rewrite (lifecycle_run w f _ _ Hd), E.
Qed.

Lemma main_lifecycle_exit (f : Flags) (fuel : nat) (status : Z) :
  validate f [] = (Done tt, []) ->
  client_ok w f ->
  exists_status w f status -> status = 200 \/ status = 404 ->
  delete_ok w f ->
  forall c, lifecycle_result f (status =? 200) = Exited c ->
  main w f fuel []
  = (Exited c,
     [NewClient (client_config f); IndicesExists (index f)]
     ++ lifecycle_trace f (status =? 200)).
Proof.
  intros Hv Hc He Hs Hd e E. rewrite (main_run w f fuel status Hv Hc He Hs).
  unfold bind at 1. now rewrite (lifecycle_run w f _ _ Hd), E.
Qed.

(** The delete and create requests of a whole run, row by row.  In a
    run that gets to the existence check (the flags pass validation and
    the client is built), with the check answering 200 (present) or 404
    (absent), delete requests answered without error and the files
    given readable:
    - index absent: exactly one create request, whatever the flags, and
      with only [-delete] set the warning is written;
    - index present, [-add] only: no delete and no create request;
    - index present, [-delete] set, with or without [-add]: a delete
      request and then a create request;
    - index present, no flag: the run exits with status 1 and contains
      no delete, no create and no bulk request. *)
Lemma lifecycle_decision_table (f : Flags) (fuel : nat) (status : Z) :
  auth_conflict f = false -> index f <> "" -> dataFile f <> "" ->
  client_ok w f ->
  exists_status w f status -> status = 200 \/ status = 404 ->
  delete_ok w f -> files_ok w f ->
  let run := main w f fuel [] in
  let changes := filter is_index_change (snd run) in
  if status =? 200 then
    if deleteIndex f then
      exists body,
        changes = [IndicesDelete (index f); IndicesCreate (index f) body]
    else if addToIndex f then
      changes = []
    else
      fst run = Exited 1 /\ changes = [] /\ bulk_bodies (snd run) = []
  else
    (exists body, changes = [IndicesCreate (index f) body])
    /\ (deleteIndex f = true -> addToIndex f = false ->
        In (nothing_to_delete f) (snd run)).
Proof.
  intros Ha Hi Hdf Hc He Hs Hd Hf. cbv zeta.
  pose proof (main_lifecycle_done f fuel status
                (validate_passes f [] Ha Hi Hdf) Hc He Hs Hd) as Hdone.
  pose proof (main_lifecycle_exit f fuel status
                (validate_passes f [] Ha Hi Hdf) Hc He Hs Hd) as Hexit.
  unfold lifecycle_result, lifecycle_trace in Hdone, Hexit.
  destruct (status =? 200), (deleteIndex f) eqn:Edel, (addToIndex f) eqn:Eadd;
    simpl andb in *; cbv beta iota in *.
  all: try rewrite (Hdone _ eq_refl).
  all: try rewrite (Hexit _ eq_refl).
  all: try match goal with
       | |- context [(create_if_needed _ _ false ;; bulk_load _ _ _) ?h0] =>
           destruct (create_then_load w f fuel h0 Hf) as (body & r & t & -> & F)
       end.
  - exists body. cbn [snd]; now rewrite !filter_app, F.
  - exists body. cbn [snd]; now rewrite !filter_app, F.
  - rewrite (bind_Done _ _ _ tt _ (create_if_needed_present w f _)).
    destruct (bulk_load w f fuel _) as [r hb] eqn:Eb.
    destruct (bulk_load_no_index_change w f fuel _ _ _ Eb) as (tb & -> & Fb).
    cbn [snd]. now rewrite filter_app_none.
  - simpl. repeat split; reflexivity.
  - split; [exists body; cbn [snd]; now rewrite !filter_app, F | discriminate].
  - split; [exists body; cbn [snd]; now rewrite !filter_app, F |].
    intros _ _. cbn [snd]. apply in_or_app. left. simpl. auto.
  - split; [exists body; cbn [snd]; now rewrite !filter_app, F | discriminate].
  - split; [exists body; cbn [snd]; now rewrite !filter_app, F | discriminate].
Qed.

(** The steps of the lifecycle itself, next to the table of section 4.3
    of the specification: from any history, with the existence check
    answering [status] and the create request answered, the steps the
    program adds are the steps of the table's row, except that the
    warning is written whenever [-delete] is set and the index is
    absent, also when [-add] is set with it. *)
Lemma prepare_index_steps (f : Flags) (status : Z) (h : History) :
  exists_status w f status -> status = 200 \/ status = 404 ->
  delete_ok w f -> files_ok w f -> create_ok w f ->
  exists r t,
    prepare_index w f h = (r, h ++ t)
    /\ steps t
       = if negb (status =? 200) && addToIndex f && deleteIndex f
         then [StepWarn; StepCreate]
         else table_4_3 (status =? 200) (addToIndex f) (deleteIndex f).
Proof.
  intros He Hs Hd Hf Hc. unfold prepare_index.
  rewrite (bind_Done _ _ _ _ _ (indexExists_run w f status h He Hs)).
  simpl snd. rewrite (bind_Done _ _ _ tt _ (checkErr_nil _ _)). simpl fst.
  unfold bind at 1. rewrite (lifecycle_run w f _ _ Hd).
  assert (C : forall h0, exists t0,
               create_if_needed w f false h0 = (Done tt, h0 ++ t0)
               /\ steps t0 = [StepCreate]).
  { intros h0. destruct (Hf h0) as [H1 _].
    destruct (Hf (after_read (settingsFile f) h0)) as [_ H2].
    rewrite (create_if_needed_ok w f h0 H1 H2).
    match goal with
    | |- context [indices_create w ?a ?b ?c] => destruct (Hc a c) as (c0 & ->)
    end.
    unfold after_read.
    destruct (Go.nonempty (settingsFile f)), (Go.nonempty (mappingsFile f));
      rewrite <- ?app_assoc; eexists; split; try reflexivity; reflexivity. }
  unfold lifecycle_result, lifecycle_trace.
  destruct (status =? 200), (addToIndex f), (deleteIndex f); simpl negb;
    simpl andb; cbv iota; simpl app;
    try (match goal with
         | |- context [create_if_needed _ _ false ?h0] =>
             destruct (C h0) as (t0 & -> & S0)
         end);
    try rewrite create_if_needed_present;
    rewrite <- ?app_assoc; do 2 eexists; (split; [reflexivity|]);
    unfold steps in *; rewrite ?flat_map_app, ?S0; reflexivity.
Qed.

Lemma prepare_index_absent (f : Flags) (h : History) :
  exists_status w f 404 ->
  exists r t0,
    prepare_index w f h
    = (r, h ++ [IndicesExists (index f)] ++ lifecycle_trace f false ++ t0).
Proof.
  intros He. unfold prepare_index.
  rewrite (bind_Done _ _ _ _ _
             (indexExists_run w f 404 h He (or_intror eq_refl))).
  simpl snd. rewrite (bind_Done _ _ _ tt _ (checkErr_nil _ _)). simpl fst.
  change (404 =? 200) with false.
  assert (L : lifecycle w f false (h ++ [IndicesExists (index f)])
              = (Done false,
                 (h ++ [IndicesExists (index f)]) ++ lifecycle_trace f false)).
  { unfold lifecycle, lifecycle_trace, bind, when, log_Warn, log_Info, emit,
      ret.
    destruct (deleteIndex f), (addToIndex f); cbn [app];
      now rewrite <- ?app_assoc. }
  rewrite (bind_Done _ _ _ _ _ L).
  destruct (create_if_needed w f false _) as [r h'] eqn:E.
  destruct (create_if_needed_emits w (fun _ => True) (fun _ _ _ => I) f false
              (fun _ => I) (fun _ => I) _ _ _ E) as (t0 & -> & _).
  exists r, t0. now rewrite <- !app_assoc.
Qed.

(** C1.  The steps of the program against the table of section 4.3.
    With the existence check answering 200 (present) or 404 (absent)
    and every request and file read of lines 78-117 answered, the steps
    the program takes are the steps of the table's row in seven of the
    eight rows.  In the row (absent, add, delete) the table has
    "create" alone, and the program writes the warning "Index does not
    exist. Nothing to delete." before it creates the index: lines
    100-102 look at the delete flag only. *)
Theorem lifecycle_against_table (f : Flags) (status : Z) (h : History) :
  exists_status w f status -> status = 200 \/ status = 404 ->
  delete_ok w f -> files_ok w f -> create_ok w f ->
  let row := table_4_3 (status =? 200) (addToIndex f) (deleteIndex f) in
  exists r t,
    prepare_index w f h = (r, h ++ t)
    /\ (negb (status =? 200) && addToIndex f && deleteIndex f = false ->
        steps t = row)
    /\ (negb (status =? 200) && addToIndex f && deleteIndex f = true ->
        row = [StepCreate]
        /\ steps t = [StepWarn; StepCreate]
        /\ steps t <> row
        /\ In (nothing_to_delete f) t).
Proof.
  intros He Hs Hd Hf Hc row.
  destruct (prepare_index_steps f status h He Hs Hd Hf Hc) as (r & t & E & S).
  exists r, t. split; [exact E|]. split.
  - intros Hb. now rewrite Hb in S.
  - intros Hb. rewrite Hb in S.
    apply andb_true_iff in Hb as [Hb Hdel].
    apply andb_true_iff in Hb as [Hp Hadd]. apply negb_true_iff in Hp.
    assert (R : row = [StepCreate]).
    { subst row. now rewrite Hp, Hadd, Hdel. }
    split; [exact R|]. split; [exact S|].
    split; [rewrite S, R; discriminate|].
    destruct Hs as [-> | ->]; [discriminate Hp|].
    destruct (prepare_index_absent f h He) as (r' & t0 & E').
    rewrite E in E'. injection E' as _ Et. apply app_inv_head in Et.
    subst t. right. apply in_or_app. left.
    unfold lifecycle_trace. rewrite Hdel. now left.
Qed.

End DecisionTable.

(** ** Batches *)

Lemma ceil_div_gt (n b k : nat) :
  (0 < b)%nat -> ((k < ceil_div n b)%nat <-> (k * b < n)%nat).
Proof.
  intros Hb. unfold ceil_div. split; intros H.
  - destruct (Nat.lt_ge_cases (k * b) n) as [|Hge]; [assumption|].
    exfalso. apply (Nat.lt_irrefl k). eapply Nat.lt_le_trans; [exact H|].
    apply Nat.lt_succ_r. apply Nat.Div0.div_lt_upper_bound. lia.
  - apply Nat.div_le_lower_bound; lia.
Qed.

Lemma firstn_min {A} (n : nat) (l : list A) :
  firstn (Nat.min n (List.length l)) l = firstn n l.
Proof.
  destruct (Nat.le_ge_cases n (List.length l)).
  - now rewrite Nat.min_l.
  - rewrite Nat.min_r by assumption.
    now rewrite firstn_all, firstn_all2.
Qed.

Lemma batch_length {A} (b : nat) (docs : list A) (k : nat) :
  List.length (batch b docs k) = Nat.min b (List.length docs - k * b).
Proof. unfold batch. now rewrite length_firstn, length_skipn. Qed.

(** The batches, one after the other, are the documents. *)
Lemma concat_batches_from {A} (b : nat) (docs : list A) (m k : nat) :
  (0 < b)%nat -> (List.length docs <= (k + m) * b)%nat ->
  List.concat (map (batch b docs) (seq k m)) = skipn (k * b) docs.
Proof.
  intros Hb. revert k. induction m as [|m IH]; intros k H; simpl.
  - symmetry. apply skipn_all2. now rewrite Nat.add_0_r in H.
  - rewrite IH by (now replace (S k + m)%nat with (k + S m)%nat by lia).
    unfold batch. simpl. rewrite <- skipn_skipn.
    apply firstn_skipn.
Qed.

Lemma concat_batches {A} (b : nat) (docs : list A) :
  (0 < b)%nat -> List.concat (batches b docs) = docs.
Proof.
  intros Hb. unfold batches. rewrite concat_batches_from; [easy | easy |].
  simpl. destruct (Nat.le_gt_cases (List.length docs)
                     (ceil_div (List.length docs) b * b)) as [|H]; [easy|].
  apply ceil_div_gt in H; [lia | easy].
Qed.

Lemma batches_length {A} (b : nat) (docs : list A) :
  List.length (batches b docs) = ceil_div (List.length docs) b.
Proof. unfold batches. now rewrite length_map, length_seq. Qed.

Lemma nth_batches {A} (b : nat) (docs : list A) (k : nat) :
  (k < ceil_div (List.length docs) b)%nat ->
  nth k (batches b docs) [] = batch b docs k.
Proof.
  intros H. unfold batches.
  rewrite (nth_indep _ [] (batch b docs 0)) by (now rewrite length_map, length_seq).
  rewrite map_nth, seq_nth; [reflexivity | assumption].
Qed.

(** Every batch but the last is full; the last is not empty. *)
Lemma batch_full {A} (b : nat) (docs : list A) (k : nat) :
  (0 < b)%nat -> (S k < ceil_div (List.length docs) b)%nat ->
  List.length (batch b docs k) = b.
Proof.
  intros Hb H. apply ceil_div_gt in H; [|easy].
  rewrite batch_length. simpl in H. lia.
Qed.

Lemma batch_bounds {A} (b : nat) (docs : list A) (k : nat) :
  (0 < b)%nat -> (k < ceil_div (List.length docs) b)%nat ->
  (1 <= List.length (batch b docs k) <= b)%nat.
Proof.
  intros Hb H. apply ceil_div_gt in H; [|easy].
  rewrite batch_length. lia.
Qed.

(** ** The upload loop (lines 131-161) *)

Section Upload.

Context {J : EncodingJSON}.
Variable w : World.
Variable f : Flags.
Variable records : list Doc.

Lemma slice_batch (k : nat) :
  1 <= batchSize f <= Go.int_max ->
  Go.len records <= 2 ^ 62 ->
  (k < ceil_div (List.length records) (Z.to_nat (batchSize f)))%nat ->
  let i := Z.of_nat k * batchSize f in
  let e := Go.add i (batchSize f) in
  (i <? Go.len records) = true
  /\ Go.add i (batchSize f) = Z.of_nat (S k) * batchSize f
  /\ (if e >? Go.len records then Go.len records else e)
     = Z.min (Z.of_nat (S k) * batchSize f) (Go.len records)
  /\ Go.slice records i (if e >? Go.len records then Go.len records else e)
     = Some (batch (Z.to_nat (batchSize f)) records k).
Proof.
  intros HB HN Hk. cbv zeta.
  set (B := batchSize f) in *. set (b := Z.to_nat B) in *.
  assert (Hb : (0 < b)%nat) by (subst b; lia).
  apply ceil_div_gt in Hk; [|assumption].
  assert (HBb : B = Z.of_nat b) by (subst b; lia).
  assert (Hi : Z.of_nat k * B < Go.len records).
  { unfold Go.len. rewrite HBb. lia. }
  assert (Hadd : Go.add (Z.of_nat k * B) B = Z.of_nat (S k) * B).
  { unfold Go.add. rewrite wrap_id; [lia|].
    unfold Go.in_int, Go.int_min, Go.int_max in *.
    destruct k as [|k]; [lia|].
    assert (B <= Z.of_nat (S k) * B) by nia. lia. }
  rewrite Hadd. split; [now apply Z.ltb_lt|]. split; [reflexivity|].
  assert (Hend : (if Z.of_nat (S k) * B >? Go.len records
                  then Go.len records else Z.of_nat (S k) * B)
                 = Z.min (Z.of_nat (S k) * B) (Go.len records)).
  { destruct (Z.gtb_spec (Z.of_nat (S k) * B) (Go.len records)); lia. }
  rewrite Hend. split; [reflexivity|].
  unfold Go.slice.
  assert (((0 <=? Z.of_nat k * B)
           && (Z.of_nat k * B <=? Z.min (Z.of_nat (S k) * B) (Go.len records))
           && (Z.min (Z.of_nat (S k) * B) (Go.len records) <=? Go.len records))
          = true) as ->.
  { rewrite !andb_true_iff, !Z.leb_le. lia. }
  f_equal. unfold batch.
  replace (Z.to_nat (Z.of_nat k * B)) with (k * b)%nat by (subst b; nia).
  rewrite <- (firstn_min b). rewrite length_skipn. f_equal.
  unfold Go.len in *. lia.
Qed.

Lemma upload_done (fuel : nat) (i : Z) (h : History) :
  Go.len records <= i -> upload w f records fuel i h = (Done tt, h).
Proof.
  intros H. assert (E : (i <? Go.len records) = false) by now apply Z.ltb_ge.
  destruct fuel; simpl; now rewrite E.
Qed.

(** One round of the loop that is answered. *)
Lemma upload_round (fuel k : nat) (h : History) (c : Z) :
  1 <= batchSize f <= Go.int_max ->
  Go.len records <= 2 ^ 62 ->
  (k < ceil_div (List.length records) (Z.to_nat (batchSize f)))%nat ->
  bulk w h (batch_body f (batch (Z.to_nat (batchSize f)) records k))
  = Responded c ->
  upload w f records (S fuel) (Z.of_nat k * batchSize f) h
  = upload w f records fuel (Z.of_nat (S k) * batchSize f)
      (h ++ round f records (Z.to_nat (batchSize f)) k).
Proof.
  intros HB HN Hk Hr.
  destruct (slice_batch k HB HN Hk) as (H1 & H2 & H3 & H4).
  cbn [upload]. rewrite H1, H2 in *. rewrite H3 in *. rewrite H4.
  unfold bind at 1, es_Bulk, call. fold (batch_body f (batch (Z.to_nat (batchSize f)) records k)).
  rewrite Hr. simpl err_of.
  rewrite (bind_Done _ _ _ tt _ (checkErr_nil _ _)).
  unfold bind, log_Info, emit. unfold round. now rewrite <- app_assoc.
Qed.

(** One round of the loop whose request fails in transport. *)
Lemma upload_round_fails (fuel k : nat) (h : History) (e : string) :
  1 <= batchSize f <= Go.int_max ->
  Go.len records <= 2 ^ 62 ->
  (k < ceil_div (List.length records) (Z.to_nat (batchSize f)))%nat ->
  bulk w h (batch_body f (batch (Z.to_nat (batchSize f)) records k))
  = Failed e ->
  upload w f records (S fuel) (Z.of_nat k * batchSize f) h
  = (Exited 1,
     h ++ [Bulk (batch_body f (batch (Z.to_nat (batchSize f)) records k));
           Log Fatal [Err e] "Error during bulk insert"]).
Proof.
  intros HB HN Hk Hr.
  destruct (slice_batch k HB HN Hk) as (H1 & H2 & H3 & H4).
  cbn [upload]. rewrite H1, H2 in *. rewrite H3 in *. rewrite H4.
  unfold bind at 1, es_Bulk, call. fold (batch_body f (batch (Z.to_nat (batchSize f)) records k)).
  rewrite Hr. simpl err_of. unfold bind. rewrite checkErr_err.
  now rewrite <- app_assoc.
Qed.

(** The loop, from round [k] on, when every request is answered. *)
Lemma upload_from (fuel k : nat) (h : History) :
  1 <= batchSize f <= Go.int_max ->
  Go.len records <= 2 ^ 62 ->
  bulk_ok w ->
  let n := ceil_div (List.length records) (Z.to_nat (batchSize f)) in
  (k <= n)%nat -> (n - k <= fuel)%nat ->
  upload w f records fuel (Z.of_nat k * batchSize f) h
  = (Done tt,
     h ++ flat_map (round f records (Z.to_nat (batchSize f))) (seq k (n - k))).
Proof.
  intros HB HN Hok n. revert k h.
  induction fuel as [|fuel IH]; intros k h Hk Hfuel.
  - replace (n - k)%nat with 0%nat by lia. cbn [seq flat_map].
    rewrite app_nil_r.
    apply upload_done.
    assert (Hn : ~ (n < ceil_div (List.length records)
                           (Z.to_nat (batchSize f)))%nat) by (subst n; lia).
    rewrite ceil_div_gt in Hn by lia.
    replace k with n by lia. unfold Go.len. nia.
  - destruct (Nat.eq_dec k n) as [-> | Hne].
    + rewrite Nat.sub_diag. simpl flat_map. rewrite app_nil_r.
      apply upload_done.
      assert (Hn : ~ (n < ceil_div (List.length records)
                             (Z.to_nat (batchSize f)))%nat) by (subst n; lia).
      rewrite ceil_div_gt in Hn by lia. unfold Go.len. nia.
    + assert (Hlt : (k < n)%nat) by lia.
      destruct (Hok h (batch_body f (batch (Z.to_nat (batchSize f)) records k)))
        as (c & Hr).
      rewrite (upload_round fuel k h c HB HN Hlt Hr).
      rewrite IH by lia.
      replace (n - k)%nat with (S (n - S k)) by lia.
      cbn [seq flat_map]. now rewrite <- app_assoc.
Qed.

End Upload.

Section UploadClaims.

Context {J : EncodingJSON}.
Variable w : World.

Lemma bulk_bodies_rounds (f : Flags) (records : list Doc) (b : nat) (l : list nat) :
  bulk_bodies (flat_map (round f records b) l)
  = map (fun k => batch_body f (batch b records k)) l.
Proof.
  induction l as [|k l IH]; [reflexivity|].
  cbn [flat_map map]. rewrite bulk_bodies_app, IH. reflexivity.
Qed.

(** The run of the loop when every request is answered. *)
Lemma upload_run (f : Flags) (records : list Doc) (fuel : nat) (h : History) :
  1 <= batchSize f <= Go.int_max ->
  Go.len records <= 2 ^ 62 ->
  bulk_ok w ->
  let b := Z.to_nat (batchSize f) in
  let n := ceil_div (List.length records) b in
  (n <= fuel)%nat ->
  exists t : History,
    upload w f records fuel 0 h = (Done tt, h ++ t)
    /\ bulk_bodies t = map (batch_body f) (batches b records)
    /\ List.length (bulk_bodies t) = n.
Proof.
  intros HB HN Hok b n Hfuel.
  exists (flat_map (round f records b) (seq 0 n)).
  split; [|split].
  - pose proof (upload_from w f records fuel 0 h HB HN Hok) as H.
    cbv zeta in H. fold b n in H. rewrite Nat.sub_0_r in H.
    apply H; lia.
  - rewrite bulk_bodies_rounds. unfold batches. now rewrite map_map.
  - now rewrite bulk_bodies_rounds, length_map, length_seq.
Qed.

(** C2.  For a batch size [B >= 1] and [N] documents (a slice that
    fits in memory), when every bulk request is answered, the loop ends
    normally; the bodies of its bulk requests are, in order, the bodies
    of the batches of the documents; there are [ceil (N / B)] of them;
    batch [k] is the slice of the documents that starts at [k * B], it
    has between 1 and [B] documents, and [B] unless it is the last; and
    the batches, one after the other, are the documents. *)
Theorem upload_in_batches (f : Flags) (records : list Doc) (fuel : nat)
  (h : History) :
  1 <= batchSize f <= Go.int_max ->
  Go.len records <= 2 ^ 62 ->
  bulk_ok w ->
  let b := Z.to_nat (batchSize f) in
  let n := ceil_div (List.length records) b in
  (n <= fuel)%nat ->
  exists t : History,
    upload w f records fuel 0 h = (Done tt, h ++ t)
    /\ bulk_bodies t = map (batch_body f) (batches b records)
    /\ List.length (bulk_bodies t) = n
    /\ (forall k, (k < n)%nat ->
          nth k (batches b records) [] = firstn b (skipn (k * b) records)
          /\ (1 <= List.length (nth k (batches b records) []) <= b)%nat
          /\ ((S k < n)%nat ->
              List.length (nth k (batches b records) []) = b))
    /\ List.concat (batches b records) = records.
Proof.
  intros HB HN Hok b n Hfuel.
  assert (Hb : (0 < b)%nat) by (subst b; lia).
  destruct (upload_run f records fuel h HB HN Hok Hfuel) as (t & E & Hbo & Hl).
  exists t. split; [exact E|]. split; [exact Hbo|]. split; [exact Hl|]. split.
  - intros k Hk. rewrite nth_batches by assumption.
    split; [reflexivity|]. split.
    + now apply batch_bounds.
    + now apply batch_full.
  - now apply concat_batches.
Qed.

Lemma upload_zero_batch (f : Flags) (records : list Doc) (fuel : nat)
  (h : History) :
  batchSize f = 0 -> records <> [] -> bulk_ok w ->
  upload w f records fuel 0 h
  = (OutOfFuel, h ++ List.concat (repeat (empty_round records) fuel)).
Proof.
  intros HB HN Hok. revert h.
  assert (Hlt : (0 <? Go.len records) = true).
  { apply Z.ltb_lt. unfold Go.len. destruct records; [easy | simpl; lia]. }
  induction fuel as [|fuel IH]; intros h; cbn [upload]; rewrite Hlt.
  - simpl. now rewrite app_nil_r.
  - rewrite HB. change (Go.add 0 0) with 0.
    assert ((0 >? Go.len records) = false) as ->.
    { apply Z.ltb_lt in Hlt. destruct (Z.gtb_spec 0 (Go.len records)); lia. }
    unfold Go.slice. change (0 <=? 0) with true. cbn [andb].
    assert ((0 <=? Go.len records) = true) as ->
        by (apply Z.leb_le; unfold Go.len; lia).
    change (Z.to_nat (0 - 0)) with 0%nat. cbn [firstn write_docs].
    unfold bind at 1, es_Bulk, call. destruct (Hok h "") as (c & ->).
    simpl err_of. rewrite (bind_Done _ _ _ tt _ (checkErr_nil _ _)).
    unfold bind, log_Info, emit. rewrite IH.
    cbn [repeat List.concat]. unfold empty_round at 2.
    now rewrite <- !app_assoc.
Qed.

(** When the batch size is negative and there are documents, the first
    round stops at the slice expression [records[0:end]], whose upper
    bound is negative. *)
Lemma upload_negative_batch (f : Flags) (records : list Doc) (fuel : nat)
  (h : History) :
  Go.int_min <= batchSize f < 0 -> records <> [] ->
  upload w f records (S fuel) 0 h
  = (Panicked "slice bounds out of range", h).
Proof.
  intros HB HN.
  assert (Hlt : (0 <? Go.len records) = true).
  { apply Z.ltb_lt. unfold Go.len. destruct records; [easy | simpl; lia]. }
  cbn [upload]. rewrite Hlt.
  assert (Go.add 0 (batchSize f) = batchSize f) as ->.
  { unfold Go.add. simpl. apply wrap_id.
    unfold Go.in_int, Go.int_min, Go.int_max in *. lia. }
  assert ((batchSize f >? Go.len records) = false) as ->.
  { apply Z.ltb_lt in Hlt.
    destruct (Z.gtb_spec (batchSize f) (Go.len records)); lia. }
  unfold Go.slice.
  assert ((0 <=? batchSize f) = false) as -> by (apply Z.leb_gt; lia).
  reflexivity.
Qed.

End UploadClaims.

(** ** A bulk request that fails in transport ends the run *)

Lemma split_after_prefix {A} (p : A -> bool) (l1 l2 t1 t2 : list A) (x : A) :
  l1 ++ l2 = t1 ++ x :: t2 ->
  Forall (fun a => p a = false) l1 -> p x = true ->
  exists t1', t1 = l1 ++ t1' /\ l2 = t1' ++ x :: t2.
Proof.
  intros E F Hx. revert t1 E.
  induction F as [|a l1 Ha _ IH]; intros t1 E.
  - now exists t1.
  - destruct t1 as [|b t1]; simpl in E; injection E as -> E.
    + congruence.
    + destruct (IH _ E) as (t1' & -> & ->). now exists t1'.
Qed.

Lemma split_before_suffix {A} (p : A -> bool) (l1 l2 t1 t2 : list A) (x : A) :
  l1 ++ l2 = t1 ++ x :: t2 ->
  Forall (fun a => p a = false) l2 -> p x = true ->
  exists t2', l1 = t1 ++ x :: t2' /\ t2 = t2' ++ l2.
Proof.
  intros E F Hx. rewrite Forall_forall in F.
  assert (Hin : ~ In x l2) by (intros H; apply F in H; congruence).
  clear F. revert l1 E.
  induction t1 as [|b t1 IH]; intros l1 E.
  - destruct l1 as [|a l1]; simpl in E.
    + subst l2. exfalso. apply Hin. now left.
    + injection E as -> E. now exists l1.
  - destruct l1 as [|a l1]; simpl in E.
    + subst l2. exfalso. apply Hin. right. apply in_or_app. right. now left.
    + injection E as -> E. destruct (IH _ E) as (t2' & -> & ->).
      now exists t2'.
Qed.

Section AbortOnFailure.

Context {J : EncodingJSON}.
Variable w : World.

Lemma aborts_without_bulk {A} (m : M A) :
  emits (fun e => is_bulk e = false) m -> aborts_on_failure w m.
Proof.
  intros Hm h r h' E. destruct (Hm _ _ _ E) as (t & -> & F).
  exists t. split; [easy|]. intros t1 body t2 e -> _.
  apply Forall_app in F as [_ F]. now apply Forall_inv in F.
Qed.

Lemma aborts_bind_after {A B} (m : M A) (k : A -> M B) :
  emits (fun e => is_bulk e = false) m ->
  (forall a, aborts_on_failure w (k a)) ->
  aborts_on_failure w (bind m k).
Proof.
  intros Hm Hk h r h'. unfold bind.
  destruct (m h) as [r1 h1] eqn:E. destruct (Hm _ _ _ E) as (t0 & -> & F0).
  assert (stop : forall r0 : Result B,
             exists t, h ++ t0 = h ++ t /\ failure_is_last w h t r0).
  { intros r0. exists t0. split; [easy|]. intros t1 body t2 e -> _.
    apply Forall_app in F0 as [_ F0]. now apply Forall_inv in F0. }
  destruct r1; try (intros [= <- <-]; apply stop).
  intros E2. destruct (Hk _ _ _ _ E2) as (t & -> & Ft).
  exists (t0 ++ t). rewrite app_assoc. split; [easy|].
  intros t1 body t2 e Et Hf.
  destruct (split_after_prefix is_bulk _ _ _ _ _ Et F0 eq_refl)
    as (t1' & -> & ->).
  apply (Ft t1' body t2 e eq_refl). now rewrite <- app_assoc.
Qed.

Lemma aborts_bind_before {A B} (m : M A) (k : A -> M B) :
  aborts_on_failure w m ->
  (forall a, emits (fun e => is_bulk e = false) (k a)) ->
  aborts_on_failure w (bind m k).
Proof.
  intros Hm Hk h r h'. unfold bind.
  destruct (m h) as [r1 h1] eqn:E. destruct (Hm _ _ _ E) as (t & -> & Ft).
  assert (stop : forall r0 : Result B,
             (forall c, r1 = Exited c -> r0 = Exited c) ->
             (forall a, r1 <> Done a) ->
             exists t', h ++ t = h ++ t' /\ failure_is_last w h t' r0).
  { intros r0 Hr Hnd. exists t. split; [easy|]. intros t1 body t2 e Et Hf.
    destruct (Ft _ _ _ _ Et Hf) as [-> ->]. now rewrite (Hr 1 eq_refl). }
  destruct r1; try (intros [= <- <-]; apply stop; congruence).
  intros E2. destruct (Hk _ _ _ _ E2) as (t3 & -> & F3).
  exists (t ++ t3). rewrite app_assoc. split; [easy|].
  intros t1 body t2 e Et Hf.
  destruct (split_before_suffix is_bulk _ _ _ _ _ Et F3 eq_refl)
    as (t2' & -> & ->).
  destruct (Ft _ _ _ _ eq_refl Hf) as [? _]. discriminate.
Qed.

Lemma upload_aborts_on_failure (f : Flags) (records : list Doc) (fuel : nat)
  (i : Z) :
  aborts_on_failure w (upload w f records fuel i).
Proof.
  revert i. induction fuel as [|fuel IH]; intros i h r h'; cbn [upload].
  - intros E. exists []. split.
    + destruct (i <? Go.len records); injection E as <- <-;
        now rewrite app_nil_r.
    + intros [|? ?] ? ? ? ?; discriminate.
  - destruct (i <? Go.len records);
      [|intros [= <- <-]; exists []; split;
        [now rewrite app_nil_r | intros [|? ?] ? ? ? ?; discriminate]].
    destruct (Go.slice _ _ _) as [docs|];
      [|intros [= <- <-]; exists []; split;
        [now rewrite app_nil_r | intros [|? ?] ? ? ? ?; discriminate]].
    set (body0 := write_docs (index f) docs "").
    unfold bind at 1, es_Bulk, call.
    destruct (bulk w h body0) as [e0 | c] eqn:Er; simpl err_of.
    + unfold bind. rewrite checkErr_err. intros [= <- <-].
      exists [Bulk body0; Log Fatal [Err e0] "Error during bulk insert"].
      rewrite <- app_assoc. split; [easy|].
      intros t1 body t2 e Et Hf.
      destruct t1 as [|a t1]; simpl in Et.
      * injection Et as <- <-. rewrite app_nil_r in Hf.
        rewrite Er in Hf. injection Hf as ->. easy.
      * injection Et as <- Et. destruct t1 as [|a t1]; [discriminate|].
        injection Et as _ Et. destruct t1; discriminate.
    + rewrite (bind_Done _ _ _ tt _ (checkErr_nil _ _)).
      unfold bind at 1, log_Info, emit. rewrite <- app_assoc.
      simpl app. set (ev := [Bulk body0; _]). intros E.
      destruct (IH _ _ _ _ E) as (t & -> & Ft).
      exists (ev ++ t). rewrite app_assoc. split; [easy|].
      intros t1 body t2 e Et Hf.
      destruct t1 as [|a t1]; simpl in Et.
      * injection Et as <- _. rewrite app_nil_r in Hf. congruence.
      * injection Et as <- Et. destruct t1 as [|a t1]; [discriminate|].
        injection Et as <- Et.
        apply (Ft t1 body t2 e Et).
        now rewrite <- app_assoc.
Qed.

Lemma main_aborts_on_failure (f : Flags) (fuel : nat) :
  aborts_on_failure w (main w f fuel).
Proof.
  unfold main. apply aborts_bind_after.
  { unfold validate. apply emits_bind; [|intros _]; apply emits_when.
    - apply emits_bind; [now apply emits_emit|]. intros _.
      apply emits_bind; [now apply emits_emit | intros _; apply emits_stop].
    - apply emits_bind; [now apply emits_emit | intros _; apply emits_stop]. }
  intros _. apply aborts_bind_after; [now apply emits_call|]. intros err.
  apply aborts_bind_after; [now apply emits_checkErr|]. intros _.
  apply aborts_bind_after; [now apply prepare_index_emits|]. intros _.
  unfold bulk_load.
  apply aborts_bind_after; [now apply load_records_emits|]. intros records.
  apply aborts_bind_after; [now apply emits_emit|]. intros _.
  apply aborts_bind_before; [apply upload_aborts_on_failure|].
  intros _. now apply emits_emit.
Qed.

(** C8.  In a run of [main], whatever the flags and the surroundings: a
    bulk request that is answered with a transport error is followed by
    the fatal log line and by nothing else, and the run has exited with
    status 1.  So the request is not sent again and no later batch is
    sent: the requests of the run stop with the one that failed. *)
Theorem bulk_failure_is_fatal (f : Flags) (fuel : nat)
  (t1 t2 : History) (body e : string) (r : Result unit) :
  main w f fuel [] = (r, t1 ++ Bulk body :: t2) ->
  bulk w t1 body = Failed e ->
  r = Exited 1
  /\ t2 = [Log Fatal [Err e] "Error during bulk insert"]
  /\ bulk_bodies (t1 ++ Bulk body :: t2) = bulk_bodies t1 ++ [body].
Proof.
  intros E Hf.
  destruct (main_aborts_on_failure f fuel _ _ _ E) as (t & Et & Ft).
  simpl in Et. subst t.
  destruct (Ft t1 body t2 e eq_refl Hf) as [-> ->].
  repeat split. now rewrite bulk_bodies_app.
Qed.

End AbortOnFailure.

(** ** The batch size is not checked *)

Section BatchSize.

Context {J : EncodingJSON}.
Variable w : World.

(** C10, as the program has it.  Nothing before the loop reads the
    batch size: validation, the client configuration, the index
    lifecycle and the loading of the documents are the same for every
    value of the flag.  When every bulk request is answered:
    - for [B >= 1] the loop ends after exactly [ceil (N / B)] rounds;
    - for [B = 0] and a non-empty document set the loop never ends: the
      index stays at 0 and every round sends an empty request;
    - for [B < 0] and a non-empty document set the first round stops
      with the run-time panic of the slice expression, before any
      request is sent. *)
Theorem batch_size_unchecked (f : Flags) (records : list Doc) (h : History) :
  bulk_ok w ->
  Go.in_int (batchSize f) ->
  Go.len records <= 2 ^ 62 ->
  (forall b,
     validate (with_batchSize f b) = validate f
     /\ client_config (with_batchSize f b) = client_config f
     /\ prepare_index w (with_batchSize f b) = prepare_index w f
     /\ load_records w (with_batchSize f b) = load_records w f)
  /\ (1 <= batchSize f ->
      let n := ceil_div (List.length records) (Z.to_nat (batchSize f)) in
      forall fuel, (n <= fuel)%nat ->
      exists t, upload w f records fuel 0 h = (Done tt, h ++ t)
                /\ List.length (bulk_bodies t) = n)
  /\ (batchSize f = 0 -> records <> [] ->
      never_ends w f records h
      /\ forall fuel,
           exists t, upload w f records fuel 0 h = (OutOfFuel, h ++ t)
                     /\ bulk_bodies t = repeat "" fuel)
  /\ (batchSize f < 0 -> records <> [] ->
      forall fuel,
        upload w f records (S fuel) 0 h
        = (Panicked "slice bounds out of range", h)).
Proof.
  intros Hok HB HN. split; [|split; [|split]].
  - intros b. repeat split; reflexivity.
  - intros H1 n fuel Hfuel.
    destruct (upload_run w f records fuel h) as (t & E & _ & L);
      try assumption.
    + unfold Go.in_int in HB. lia.
    + now exists t.
  - intros H0 Hne.
    assert (R : forall fuel,
               bulk_bodies (List.concat (repeat (empty_round records) fuel))
               = repeat "" fuel).
    { induction fuel as [|fuel IH]; [reflexivity|].
      cbn [repeat List.concat]. rewrite bulk_bodies_app, IH. reflexivity. }
    split.
    + intros fuel. now rewrite (upload_zero_batch w f records fuel h H0 Hne Hok).
    + intros fuel. eexists. split; [now apply upload_zero_batch|]. apply R.
  - intros Hneg Hne fuel. apply upload_negative_batch; [|assumption].
    unfold Go.in_int in HB. lia.
Qed.

End BatchSize.

(** ** The bulk request body (lines 137-147) *)

Lemma append_assoc (a b c : string) : ((a ++ b) ++ c = a ++ (b ++ c))%string.
Proof. induction a as [|x a IH]; simpl; [reflexivity | now rewrite IH]. Qed.

Lemma append_nil_r (a : string) : (a ++ "")%string = a.
Proof. induction a as [|x a IH]; simpl; [reflexivity | now rewrite IH]. Qed.

Lemma split_lines_line (l rest : string) :
  no_newline l = true ->
  split_lines (l ++ Go.newline ++ rest) = l :: split_lines rest.
Proof.
  induction l as [|c l IH]; intros H; [reflexivity|].
  cbn [no_newline] in H.
  apply andb_true_iff in H as [Hc Hl]. apply negb_true_iff in Hc.
  change (String c l ++ Go.newline ++ rest)%string
    with (String c (l ++ Go.newline ++ rest)).
  cbn [split_lines]. rewrite Hc. now rewrite IH.
Qed.

Section BulkBody.

Context {J : EncodingJSON}.

Lemma write_docs_cat (name : string) (docs : list Doc) (buf : string) :
  write_docs name docs buf = (buf ++ cat (map (doc_lines name) docs))%string.
Proof.
  revert buf. induction docs as [|d docs IH]; intros buf;
    cbn [write_docs map cat].
  - now rewrite append_nil_r.
  - rewrite IH. unfold doc_lines. now rewrite !append_assoc.
Qed.

Context {L : EncodingJSONLaws J}.

Lemma read_bulk_docs (name : string) (docs : list Doc) :
  Forall decoded docs ->
  read_bulk (cat (map (doc_lines name) docs))
  = Some (map (fun doc => (Marshal_meta (meta name), doc)) docs).
Proof.
  unfold read_bulk. induction 1 as [|d docs Hd _ IH]; [reflexivity|].
  cbn [map cat]. unfold doc_lines at 1. rewrite !append_assoc.
  rewrite split_lines_line by apply Marshal_meta_one_line.
  rewrite split_lines_line by now apply Marshal_doc_one_line.
  cbn [read_pairs]. rewrite (Unmarshal_Marshal_doc d Hd).
  fold (@read_pairs J). now rewrite IH.
Qed.

Variable w : World.

(** Every bulk request of the loop carries a slice of the documents. *)
Lemma upload_bodies (f : Flags) (records : list Doc) (fuel : nat) (i : Z)
  (h : History) :
  exists t,
    snd (upload w f records fuel i h) = h ++ t
    /\ forall body, In body (bulk_bodies t) ->
         exists lo hi docs,
           Go.slice records lo hi = Some docs
           /\ body = write_docs (index f) docs "".
Proof.
  revert i h. induction fuel as [|fuel IH]; intros i h; cbn [upload].
  - exists []. split; [|intros ? []].
    destruct (i <? Go.len records); simpl; now rewrite app_nil_r.
  - destruct (i <? Go.len records);
      [|exists []; split; [simpl; now rewrite app_nil_r | intros ? []]].
    set (e := if _ >? _ then _ else _).
    destruct (Go.slice records i e) as [docs|] eqn:Es;
      [|exists []; split; [simpl; now rewrite app_nil_r | intros ? []]].
    set (body0 := write_docs (index f) docs "").
    unfold bind at 1, es_Bulk, call.
    destruct (bulk w h body0) as [e0 | c]; simpl err_of.
    + unfold bind. rewrite checkErr_err. simpl snd. rewrite <- app_assoc.
      eexists. split; [reflexivity|].
      intros body [<- | []]. now exists i, e, docs.
    + rewrite (bind_Done _ _ _ tt _ (checkErr_nil _ _)).
      unfold bind at 1, log_Info, emit. rewrite <- app_assoc. simpl app.
      match goal with
      | |- context [upload w f records fuel ?i' ?h'] =>
          destruct (IH i' h') as (t & -> & Ht)
      end.
      rewrite <- app_assoc. eexists. split; [reflexivity|].
      intros body. simpl. intros [<- | Hin]; [now exists i, e, docs | auto].
Qed.

Lemma slice_incl {A} (s : list A) (lo hi : Z) (l : list A) :
  Go.slice s lo hi = Some l -> incl l s.
Proof.
  unfold Go.slice. destruct (_ && _); [|discriminate]. intros [= <-] x Hx.
  rewrite <- (firstn_skipn (Z.to_nat lo) s). apply in_or_app. right.
  rewrite <- (firstn_skipn (Z.to_nat (hi - lo)) (skipn _ s)).
  apply in_or_app. now left.
Qed.

Lemma body_read_back (name : string) (docs : list Doc) :
  Forall decoded docs ->
  read_bulk (write_docs name docs "")
  = Some (map (fun doc => (Marshal_meta (meta name), doc)) docs).
Proof.
  intros Hd. rewrite write_docs_cat. cbn [append]. now apply read_bulk_docs.
Qed.

Lemma read_all_bodies (f : Flags) (ls : list (list Doc)) :
  Forall decoded (List.concat ls) ->
  read_all (map (batch_body f) ls)
  = Some (map (fun doc => (Marshal_meta (meta (index f)), doc))
              (List.concat ls)).
Proof.
  induction ls as [|docs ls IH]; intros Hd; [reflexivity|].
  cbn [List.concat] in Hd. apply Forall_app in Hd as [Hd1 Hd2].
  cbn [map read_all List.concat]. unfold batch_body at 1.
  rewrite (body_read_back _ _ Hd1), (IH Hd2). now rewrite map_app.
Qed.

(** C7.  Let the documents be what the decoder made of the data file,
    and let the action line be the encoding of
    [{"index": {"_index": name}}].
    - What lines 137-147 write for a slice of the documents is, for
      each document of the slice in order, the action line, a newline,
      the encoding of the document as it came out of the decoder, a
      newline, and nothing else.  Cut at the newlines, it is these
      lines; read back two by two, it gives, for every document of the
      slice and only for these, the action line and a document equal to
      the original.
    - Every bulk request the loop sends, for any batch size and any
      replies, has as its body what is written for a slice
      [records[lo:hi]] of the documents, and is read back to exactly
      the documents of that slice.
    - When the loop goes through (batch size at least 1, every request
      answered), its requests, read back one after the other, give
      every document of the data file, once and in order, each equal to
      the original and each after its action line. *)
Theorem documents_written_unchanged (f : Flags) (data : string)
  (h : History) :
  snd (Unmarshal_records data) = None ->
  let records := fst (Unmarshal_records data) in
  let action := Marshal_meta [("index", [("_index", index f)])] in
  (forall docs,
     incl docs records ->
     write_docs (index f) docs ""
     = cat (map (fun doc => action ++ Go.newline
                            ++ Marshal_doc doc ++ Go.newline)%string docs)
     /\ split_lines (write_docs (index f) docs "")
        = flat_map (fun doc => [action; Marshal_doc doc]) docs
     /\ Forall (fun doc => Unmarshal_doc (Marshal_doc doc) = Some doc) docs
     /\ read_bulk (write_docs (index f) docs "")
        = Some (map (fun doc => (action, doc)) docs))
  /\ (forall fuel i,
      exists t,
        snd (upload w f records fuel i h) = h ++ t
        /\ forall body, In body (bulk_bodies t) ->
             exists lo hi docs,
               Go.slice records lo hi = Some docs
               /\ body = write_docs (index f) docs ""
               /\ read_bulk body = Some (map (fun doc => (action, doc)) docs))
  /\ (1 <= batchSize f <= Go.int_max ->
      Go.len records <= 2 ^ 62 ->
      bulk_ok w ->
      forall fuel,
        (ceil_div (List.length records) (Z.to_nat (batchSize f)) <= fuel)%nat ->
        exists t,
          upload w f records fuel 0 h = (Done tt, h ++ t)
          /\ List.length (bulk_bodies t)
             = ceil_div (List.length records) (Z.to_nat (batchSize f))
          /\ read_all (bulk_bodies t)
             = Some (map (fun doc => (action, doc)) records)).
Proof.
  intros Herr records action.
  assert (Hall : Forall decoded records).
  { apply Forall_forall. intros d Hd. now exists data. }
  assert (Hsub : forall docs, incl docs records -> Forall decoded docs).
  { intros docs Hi. rewrite Forall_forall in *. auto. }
  split; [|split].
  - intros docs Hi. pose proof (Hsub docs Hi) as Hd.
    assert (Hbody : write_docs (index f) docs ""
                    = cat (map (doc_lines (index f)) docs))
      by (now rewrite write_docs_cat).
    split; [exact Hbody|]. split; [|split].
    + rewrite Hbody. clear -Hd L.
      induction Hd as [|d docs Hd _ IH]; [reflexivity|].
      cbn [map cat flat_map]. unfold doc_lines at 1. rewrite !append_assoc.
      rewrite split_lines_line by apply Marshal_meta_one_line.
      rewrite split_lines_line by now apply Marshal_doc_one_line.
      now rewrite IH.
    + eapply Forall_impl; [|exact Hd]. intros d. apply Unmarshal_Marshal_doc.
    + now apply body_read_back.
  - intros fuel i.
    destruct (upload_bodies f records fuel i h) as (t & Et & Ht).
    exists t. split; [assumption|]. intros body Hb.
    destruct (Ht body Hb) as (lo & hi & docs & Hs & ->).
    exists lo, hi, docs. split; [exact Hs|]. split; [reflexivity|].
    apply body_read_back, Hsub. now apply slice_incl in Hs.
  - intros HB HN Hok fuel Hfuel.
    destruct (upload_run w f records fuel h HB HN Hok Hfuel)
      as (t & E & Hb & Hl).
    exists t. split; [exact E|]. split; [exact Hl|].
    rewrite Hb, read_all_bodies; rewrite concat_batches by lia;
      [reflexivity | exact Hall].
Qed.

End BulkBody.

(** * Further properties of the program *)

(** ** Before the index is touched (lines 44-53, 75-80, 173-186) *)

Section EarlyFailures.

Context {J : EncodingJSON}.
Variable w : World.

Lemma bind_assoc {A B C} (m : M A) (k1 : A -> M B) (k2 : B -> M C)
  (h : History) :
  bind (bind m k1) k2 h = bind m (fun a => bind (k1 a) k2) h.
Proof. unfold bind. destruct (m h) as [[a| | |] h1]; reflexivity. Qed.

Lemma accepted_validate (f : Flags) (h : History) :
  accepted f -> validate f h = (Done tt, h).
Proof. intros (Ha & Hi & Hd). now apply validate_passes. Qed.

(** [main] from the client on, for accepted flags. *)
Lemma main_accepted (f : Flags) (fuel : nat) :
  accepted f ->
  main w f fuel []
  = (checkErr "creating Elasticsearch client"
       (new_client w [] (client_config f)) ;;
     prepare_index w f ;;
     bulk_load w f fuel) (client_built f).
Proof.
  intros Ha. unfold main.
  rewrite (bind_Done _ _ _ _ _ (accepted_validate f [] Ha)).
  reflexivity.
Qed.

Lemma main_client_built (f : Flags) (fuel : nat) :
  accepted f -> client_ok w f ->
  main w f fuel []
  = (prepare_index w f ;; bulk_load w f fuel) (client_built f).
Proof.
  intros Ha Hc. rewrite (main_accepted f fuel Ha). rewrite Hc.
  now rewrite (bind_Done _ _ _ tt _ (checkErr_nil _ _)).
Qed.

(** [main] from the lifecycle decision on, when the existence check is
    answered with 200 or 404. *)
Lemma main_index_checked (f : Flags) (fuel : nat) (status : Z) :
  accepted f -> client_ok w f ->
  indices_exists w (client_built f) (index f) = Responded status ->
  status = 200 \/ status = 404 ->
  main w f fuel []
  = (exists_ <- lifecycle w f (status =? 200) ;;
     create_if_needed w f exists_ ;;
     bulk_load w f fuel) (index_checked f).
Proof.
  intros Ha Hc He Hs. rewrite (main_client_built f fuel Ha Hc).
  unfold prepare_index, indexExists.
  unfold bind at 1. unfold bind at 1. unfold bind at 1.
  unfold es_Indices_Exists, call. rewrite He.
  unfold index_checked, client_built.
  destruct Hs as [-> | ->]; cbn -[lifecycle create_if_needed bulk_load];
    unfold bind;
    match goal with
    | |- context [lifecycle w f ?p ?h] => destruct (lifecycle w f p h) as [[| | |] ?]
    end; reflexivity.
Qed.

(** X1.  The two checks on the flags decide, before anything else is
    done, whether the program runs.  A conflict between the two ways to
    authenticate comes first: the run is the message, the usage text
    and exit status 1, also when the index or the data file is missing
    as well.  Without a conflict, a missing index or data file gives the
    usage text alone, with no line saying what is missing, and exit
    status 1.  In both cases no client is built, no file is read and no
    request is sent.  When the flags pass, the first thing the program
    does is build the client. *)
Theorem flag_validation_outcomes (f : Flags) (fuel : nat) :
  (auth_conflict f = true ->
   main w f fuel [] = (Exited 1, conflict_trace))
  /\ (auth_conflict f = false -> index f = "" \/ dataFile f = "" ->
      main w f fuel [] = (Exited 1, [Usage]))
  /\ (accepted f ->
      exists r t, main w f fuel [] = (r, NewClient (client_config f) :: t)).
Proof.
  split; [apply main_auth_conflict|]. split.
  - intros Ec H. unfold main, validate. rewrite Ec.
    assert (((index f =? "")%string || (dataFile f =? "")%string) = true) as ->.
    { destruct H as [-> | ->]; cbn; [reflexivity | apply orb_true_r]. }
    reflexivity.
  - intros Ha. apply main_starts_with_client. now apply accepted_validate.
Qed.

Lemma client_failure_run (f : Flags) (fuel : nat) (err : string) :
  accepted f ->
  new_client w [] (client_config f) = Some err ->
  main w f fuel []
  = (Exited 1,
     client_built f
     ++ [Log Fatal [Err err] "Error during creating Elasticsearch client"]).
Proof.
  intros Ha Hc. rewrite (main_accepted f fuel Ha), Hc. reflexivity.
Qed.

Lemma exists_error_run (f : Flags) (fuel : nat) (err : string) :
  accepted f -> client_ok w f ->
  indices_exists w (client_built f) (index f) = Failed err ->
  main w f fuel []
  = (Exited 1,
     index_checked f
     ++ [Log Fatal [Err err] "Error during checking if index exists"]).
Proof.
  intros Ha Hc He. rewrite (main_client_built f fuel Ha Hc).
  unfold prepare_index, indexExists, bind, es_Indices_Exists, call.
  rewrite He. reflexivity.
Qed.

Lemma unexpected_status_run (f : Flags) (fuel : nat) (status : Z) :
  accepted f -> client_ok w f ->
  indices_exists w (client_built f) (index f) = Responded status ->
  status <> 200 -> status <> 404 ->
  main w f fuel []
  = (Exited 1,
     index_checked f
     ++ [Log Fatal [Err (unexpected_status status)]
             "Error during checking if index exists"]).
Proof.
  intros Ha Hc He H200 H404. rewrite (main_client_built f fuel Ha Hc).
  unfold prepare_index, indexExists, bind, es_Indices_Exists, call.
  rewrite He.
  apply Z.eqb_neq in H200, H404. rewrite H200, H404. reflexivity.
Qed.

(** X2.  When [elasticsearch.NewClient] returns an error, the run is
    the call, the fatal line of [checkErr] and exit status 1: no
    request is sent and no file is read. *)
Theorem client_failure_is_fatal (f : Flags) (fuel : nat) (err : string) :
  accepted f ->
  new_client w [] (client_config f) = Some err ->
  main w f fuel []
  = (Exited 1,
     [NewClient (client_config f);
      Log Fatal [Err err] "Error during creating Elasticsearch client"]).
Proof. apply client_failure_run. Qed.

(** X3.  When the existence check fails in transport, [indexExists]
    hands the error to [main], whose [checkErr] ends the run: after the
    request come the fatal line and exit status 1, and nothing else. *)
Theorem exists_error_is_fatal (f : Flags) (fuel : nat) (err : string) :
  accepted f -> client_ok w f ->
  indices_exists w (client_built f) (index f) = Failed err ->
  main w f fuel []
  = (Exited 1,
     [NewClient (client_config f); IndicesExists (index f);
      Log Fatal [Err err] "Error during checking if index exists"]).
Proof. apply exists_error_run. Qed.

(** X4.  When the existence check is answered with a status other than
    200 and 404, [indexExists] returns the error "unexpected status
    code N" and the run ends with the fatal line and exit status 1: no
    delete, create or bulk request is sent and no file is read. *)
Theorem unexpected_exists_status_is_fatal (f : Flags) (fuel : nat)
  (status : Z) :
  accepted f -> client_ok w f ->
  indices_exists w (client_built f) (index f) = Responded status ->
  status <> 200 -> status <> 404 ->
  main w f fuel []
  = (Exited 1,
     [NewClient (client_config f); IndicesExists (index f);
      Log Fatal [Err (unexpected_status status)]
          "Error during checking if index exists"]).
Proof. apply unexpected_status_run. Qed.

End EarlyFailures.

(** ** The delete request (lines 82-91, 188-196) *)

Section DeleteRequest.

Context {J : EncodingJSON}.
Variable w : World.

Lemma lifecycle_deleting (f : Flags) (h : History) :
  deleteIndex f = true ->
  lifecycle w f true h
  = (deleteAndCheck w (index f) ;; ret false) (h ++ [deleting_line f]).
Proof.
  intros Hd. unfold lifecycle, deleting_line. rewrite Hd.
  destruct (addToIndex f); reflexivity.
Qed.

(** [main] from the delete request on, when the index is there and
    [-delete] is given. *)
Lemma main_deleting (f : Flags) (fuel : nat) :
  accepted f -> client_ok w f ->
  indices_exists w (client_built f) (index f) = Responded 200 ->
  deleteIndex f = true ->
  main w f fuel []
  = (deleteAndCheck w (index f) ;;
     create_if_needed w f false ;;
     bulk_load w f fuel) (before_delete f).
Proof.
  intros Ha Hc He Hd.
  rewrite (main_index_checked w f fuel 200 Ha Hc He (or_introl eq_refl)).
  change (200 =? 200) with true.
  unfold bind at 1. rewrite (lifecycle_deleting f _ Hd).
  unfold before_delete, bind.
  destruct (deleteAndCheck w (index f) _) as [[[]| | |] ?]; reflexivity.
Qed.

(** X5.  With [-delete] and the index there, a delete request that
    fails in transport ends the run: the fatal line of [checkErr], exit
    status 1, and no create request, file read or bulk request. *)
Theorem delete_error_is_fatal (f : Flags) (fuel : nat) (err : string) :
  accepted f -> client_ok w f ->
  indices_exists w (client_built f) (index f) = Responded 200 ->
  deleteIndex f = true ->
  indices_delete w (before_delete f) (index f) = Failed err ->
  main w f fuel []
  = (Exited 1,
     [NewClient (client_config f); IndicesExists (index f);
      deleting_line f; IndicesDelete (index f);
      Log Fatal [Err err] "Error during deleting index"]).
Proof.
  intros Ha Hc He Hd Hr. rewrite (main_deleting f fuel Ha Hc He Hd).
  unfold deleteAndCheck, bind, es_Indices_Delete, call. rewrite Hr.
  reflexivity.
Qed.

(** X6.  With [-delete] and the index there, the status of the reply
    to the delete request decides: above 299 the run ends with the
    fatal line "Failed to delete index" and exit status 1, before any
    file is read or create request sent; up to 299 the run goes on to
    create the index. *)
Theorem delete_status_decides (f : Flags) (fuel : nat) (status : Z) :
  accepted f -> client_ok w f ->
  indices_exists w (client_built f) (index f) = Responded 200 ->
  deleteIndex f = true ->
  indices_delete w (before_delete f) (index f) = Responded status ->
  (299 < status ->
   main w f fuel []
   = (Exited 1,
      [NewClient (client_config f); IndicesExists (index f);
       deleting_line f; IndicesDelete (index f);
       Log Fatal [Str "index" (index f)] "Failed to delete index"]))
  /\ (status <= 299 ->
      main w f fuel []
      = (create_if_needed w f false ;; bulk_load w f fuel)
          (before_delete f ++ [IndicesDelete (index f)])).
Proof.
  intros Ha Hc He Hd Hr. rewrite (main_deleting f fuel Ha Hc He Hd).
  assert (E : deleteAndCheck w (index f) (before_delete f)
              = when (IsError status)
                  (log_Fatal [Str "index" (index f)] "Failed to delete index")
                  (before_delete f ++ [IndicesDelete (index f)])).
  { unfold deleteAndCheck, es_Indices_Delete, call.
    unfold bind at 1. rewrite Hr. simpl err_of.
    now rewrite (bind_Done _ _ _ tt _ (checkErr_nil _ _)). }
  unfold IsError in E. split; intros Hs.
  - assert (G : (status >? 299) = true)
      by (destruct (Z.gtb_spec status 299); lia).
    rewrite G in E. unfold bind at 1. now rewrite E.
  - assert (G : (status >? 299) = false)
      by (destruct (Z.gtb_spec status 299); lia).
    rewrite G in E. unfold bind at 1. now rewrite E.
Qed.

End DeleteRequest.

(** ** The create request (lines 110-117) *)

Section CreateRequest.

Context {J : EncodingJSON}.
Variable w : World.

Lemma gets_to_create_lifecycle (f : Flags) (status : Z) :
  gets_to_create w f status ->
  lifecycle_result f (status =? 200)
  = Done ((status =? 200) && negb (deleteIndex f)).
Proof.
  intros (_ & _ & _ & Hs & _ & _ & Hp). unfold lifecycle_result.
  destruct Hs as [-> | ->]; [|reflexivity].
  change (200 =? 200) with true.
  destruct (Hp eq_refl) as [Ha | Hd]; rewrite ?Ha, ?Hd;
    destruct (deleteIndex f); reflexivity.
Qed.

(** [main] up to the create step. *)
Lemma main_before_create (f : Flags) (fuel : nat) (status : Z) :
  gets_to_create w f status ->
  main w f fuel []
  = (create_if_needed w f ((status =? 200) && negb (deleteIndex f)) ;;
     bulk_load w f fuel)
      (index_checked f ++ lifecycle_trace f (status =? 200)).
Proof.
  intros G. pose proof (gets_to_create_lifecycle f status G) as E.
  destruct G as (Ha & Hc & He & Hs & Hd & _).
  exact (main_lifecycle_done w f fuel status (accepted_validate f [] Ha)
           Hc He Hs Hd _ E).
Qed.

Lemma lifecycle_trace_changes (f : Flags) (present : bool) :
  filter is_index_change (lifecycle_trace f present)
  = if present && deleteIndex f then [IndicesDelete (index f)] else [].
Proof.
  unfold lifecycle_trace.
  destruct present, (addToIndex f), (deleteIndex f); reflexivity.
Qed.

Lemma lifecycle_trace_bulk (f : Flags) (present : bool) :
  bulk_bodies (lifecycle_trace f present) = [].
Proof.
  unfold lifecycle_trace.
  destruct present, (addToIndex f), (deleteIndex f); reflexivity.
Qed.

Lemma after_read_app (path : string) (h : History) :
  exists t, after_read path h = h ++ t
            /\ filter is_index_change t = [] /\ bulk_bodies t = [].
Proof.
  unfold after_read. destruct (Go.nonempty path).
  - now exists [ReadFile path].
  - exists []. now rewrite app_nil_r.
Qed.

(** The run up to the create request, when the index is to be created:
    it has no bulk request, and its index requests are the delete
    request, if there is one. *)
Lemma main_creating (f : Flags) (fuel : nat) (status : Z) :
  gets_to_create w f status ->
  (status =? 200) && negb (deleteIndex f) = false ->
  exists pre body,
    main w f fuel []
    = ((r <- es_Indices_Create w (index f) body ;;
        checkErr "creating index" (err_of r) ;;
        log_Info [Str "index" (index f)] "Index created") ;;
       bulk_load w f fuel) pre
    /\ filter is_index_change pre
       = (if (status =? 200) && deleteIndex f
          then [IndicesDelete (index f)] else [])
    /\ bulk_bodies pre = [].
Proof.
  intros G Hn. rewrite (main_before_create f fuel status G), Hn.
  destruct G as (_ & _ & _ & _ & _ & Hf & _).
  set (h0 := index_checked f ++ lifecycle_trace f (status =? 200)).
  destruct (Hf h0) as [Hs _].
  destruct (Hf (after_read (settingsFile f) h0)) as [_ Hm].
  exists (after_read (mappingsFile f) (after_read (settingsFile f) h0)).
  exists (create_index_body
            (fst (file_or_default w (settingsFile f) h0))
            (fst (file_or_default w (mappingsFile f)
                    (after_read (settingsFile f) h0)))).
  split; [|split].
  - unfold create_if_needed, when. change (negb false) with true. cbv iota.
    rewrite bind_assoc.
    now rewrite (bind_Done _ _ _ _ _ (buildCreateIndexBody_ok w _ _ h0 Hs Hm)).
  - destruct (after_read_app (settingsFile f) h0) as (t1 & -> & F1 & _).
    destruct (after_read_app (mappingsFile f) (h0 ++ t1)) as (t2 & -> & F2 & _).
    subst h0. rewrite !filter_app, F1, F2, lifecycle_trace_changes.
    now rewrite !app_nil_r.
  - destruct (after_read_app (settingsFile f) h0) as (t1 & -> & _ & B1).
    destruct (after_read_app (mappingsFile f) (h0 ++ t1)) as (t2 & -> & _ & B2).
    subst h0. rewrite !bulk_bodies_app, B1, B2, lifecycle_trace_bulk.
    reflexivity.
Qed.

(** X7.  In a run that gets to the create request, a create request
    that fails in transport ends the run: it is followed by the fatal
    line of [checkErr] and exit status 1, so the data file is not read
    and no bulk request is sent; an index that was deleted before stays
    deleted. *)
Theorem create_error_is_fatal (f : Flags) (fuel : nat) (status : Z)
  (err : string) :
  gets_to_create w f status ->
  status = 404 \/ deleteIndex f = true ->
  (forall h body, indices_create w h (index f) body = Failed err) ->
  exists pre body,
    main w f fuel []
    = (Exited 1,
       pre ++ [IndicesCreate (index f) body;
               Log Fatal [Err err] "Error during creating index"])
    /\ filter is_index_change pre
       = (if (status =? 200) && deleteIndex f
          then [IndicesDelete (index f)] else [])
    /\ bulk_bodies pre = [].
Proof.
  intros G Hn Hc.
  assert (Hn' : (status =? 200) && negb (deleteIndex f) = false).
  { destruct Hn as [-> | ->]; [reflexivity|].
    cbn [negb]. apply andb_false_r. }
  destruct (main_creating f fuel status G Hn') as (pre & body & E & F & B).
  exists pre, body. split; [|now split].
  rewrite E. unfold bind, es_Indices_Create, call. rewrite Hc.
  simpl err_of. rewrite checkErr_err. now rewrite <- app_assoc.
Qed.

(** The run up to the loading of the data file. *)
Lemma main_prepared (f : Flags) (fuel : nat) (status : Z) :
  goes_through w f status ->
  exists pre body,
    main w f fuel [] = bulk_load w f fuel pre
    /\ filter is_index_change pre = index_changes f (status =? 200) body
    /\ bulk_bodies pre = [].
Proof.
  intros [G Hc].
  destruct ((status =? 200) && negb (deleteIndex f)) eqn:Hn.
  - rewrite (main_before_create f fuel status G), Hn.
    exists (index_checked f ++ lifecycle_trace f (status =? 200)), "".
    split; [reflexivity|].
    apply andb_true_iff in Hn as [Hp Hd]. apply negb_true_iff in Hd.
    rewrite filter_app, bulk_bodies_app, lifecycle_trace_changes,
      lifecycle_trace_bulk. unfold index_changes. now rewrite Hp, Hd.
  - destruct (main_creating f fuel status G Hn) as (pre & body & E & F & B).
    destruct (Hc pre body) as (c & Hr).
    exists (pre ++ [IndicesCreate (index f) body;
                    Log Info [Str "index" (index f)] "Index created"]), body.
    split; [|split].
    + rewrite E. unfold bind, es_Indices_Create, call. rewrite Hr.
      simpl err_of. rewrite checkErr_nil. unfold log_Info, emit.
      now rewrite <- app_assoc.
    + rewrite filter_app, F. unfold index_changes.
      destruct (status =? 200), (deleteIndex f); try discriminate;
        reflexivity.
    + rewrite bulk_bodies_app, B. reflexivity.
Qed.

End CreateRequest.

(** ** Appending to an existing index (lines 92-93, 111) *)

Section Appending.

Context {J : EncodingJSON}.
Variable w : World.

Lemma upload_with_files (f : Flags) (settings mappings : string)
  (records : list Doc) (fuel : nat) :
  forall i h,
    upload w (with_files f settings mappings) records fuel i h
    = upload w f records fuel i h.
Proof.
  induction fuel as [|fuel IH]; intros i h; cbn [upload]; [reflexivity|].
  destruct (i <? Go.len records); [|reflexivity].
  cbn [batchSize index with_files].
  destruct (Go.slice _ _ _); [|reflexivity].
  unfold bind. destruct (es_Bulk w _ h) as [[r| | |] h1]; try reflexivity.
  destruct (checkErr _ _ h1) as [[[]| | |] h2]; try reflexivity.
  destruct (log_Info _ _ h2) as [[[]| | |] h3]; try reflexivity.
  apply IH.
Qed.

Lemma bulk_load_with_files (f : Flags) (settings mappings : string)
  (fuel : nat) (h : History) :
  bulk_load w (with_files f settings mappings) fuel h = bulk_load w f fuel h.
Proof.
  unfold bulk_load, bind. cbn [dataFile with_files].
  change (load_records w (with_files f settings mappings))
    with (load_records w f).
  destruct (load_records w f h) as [[records| | |] h1]; try reflexivity.
  destruct (log_Info _ _ h1) as [[[]| | |] h2]; try reflexivity.
  now rewrite upload_with_files.
Qed.

(** [main] from the loading of the data file on, when the index is
    there and only [-add] is given. *)
Lemma main_appending (f : Flags) (fuel : nat) :
  accepted f -> client_ok w f ->
  indices_exists w (client_built f) (index f) = Responded 200 ->
  addToIndex f = true -> deleteIndex f = false ->
  main w f fuel []
  = bulk_load w f fuel (index_checked f ++ [appending_line f]).
Proof.
  intros Ha Hc He Hadd Hdel.
  rewrite (main_index_checked w f fuel 200 Ha Hc He (or_introl eq_refl)).
  change (200 =? 200) with true. unfold lifecycle.
  rewrite Hadd, Hdel. reflexivity.
Qed.

(** X8.  When the index is there and only [-add] is given, the run
    goes from the existence check straight to the loading of the data
    file: after the line "Appending documents to existing index"
    nothing is deleted or created, and the settings and mappings files
    are not read.  So the two flags have no effect on such a run,
    whether or not the files they name can be read. *)
Theorem append_ignores_settings (f : Flags) (fuel : nat) :
  accepted f -> client_ok w f ->
  indices_exists w (client_built f) (index f) = Responded 200 ->
  addToIndex f = true -> deleteIndex f = false ->
  main w f fuel []
  = bulk_load w f fuel (index_checked f ++ [appending_line f])
  /\ forall settings mappings,
       main w (with_files f settings mappings) fuel [] = main w f fuel [].
Proof.
  intros Ha Hc He Hadd Hdel.
  split; [now apply main_appending|]. intros settings mappings.
  rewrite (main_appending f fuel Ha Hc He Hadd Hdel).
  rewrite (main_appending (with_files f settings mappings)); try assumption.
  apply bulk_load_with_files.
Qed.

End Appending.

(** ** The status of the replies to create and bulk requests
    (lines 113-116, 150-154) *)

Lemma bulk_step {B} (w : World) (body : string)
  (k : Reply -> M B) (h : History) :
  bind (es_Bulk w body) k h = k (bulk w h body) (h ++ [Bulk body]).
Proof. reflexivity. Qed.

Section ReplyStatus.

Context {J : EncodingJSON}.
Variables w1 w2 : World.
Hypothesis same : same_but_status w1 w2.

Lemma bind_ext {A B} (m1 m2 : M A) (k1 k2 : A -> M B) (h : History) :
  m1 h = m2 h -> (forall a h', k1 a h' = k2 a h') ->
  bind m1 k1 h = bind m2 k2 h.
Proof.
  intros Hm Hk. unfold bind. rewrite Hm.
  destruct (m2 h) as [[a| | |] h1]; auto.
Qed.

Lemma indexExists_same (name : string) (h : History) :
  indexExists w1 name h = indexExists w2 name h.
Proof.
  destruct same as (_ & _ & He & _).
  unfold indexExists, bind, es_Indices_Exists, call. now rewrite He.
Qed.

Lemma deleteAndCheck_same (name : string) (h : History) :
  deleteAndCheck w1 name h = deleteAndCheck w2 name h.
Proof.
  destruct same as (_ & _ & _ & Hd & _).
  unfold deleteAndCheck, bind, es_Indices_Delete, call. now rewrite Hd.
Qed.

Lemma lifecycle_same (f : Flags) (present : bool) (h : History) :
  lifecycle w1 f present h = lifecycle w2 f present h.
Proof.
  unfold lifecycle.
  destruct present; [|reflexivity].
  destruct (addToIndex f && deleteIndex f); [|destruct (deleteIndex f)];
    try reflexivity;
    (apply bind_ext; [reflexivity|]; intros _ h';
     apply bind_ext; [apply deleteAndCheck_same | reflexivity]).
Qed.

Lemma buildCreateIndexBody_same (sf mf : string) (h : History) :
  buildCreateIndexBody w1 sf mf h = buildCreateIndexBody w2 sf mf h.
Proof.
  destruct same as (_ & Hr & _).
  unfold buildCreateIndexBody.
  apply bind_ext.
  - destruct (Go.nonempty sf); [|reflexivity].
    unfold bind, os_ReadFile, call. now rewrite Hr.
  - intros s h'. apply bind_ext; [|reflexivity].
    destruct (Go.nonempty mf); [|reflexivity].
    unfold bind, os_ReadFile, call. now rewrite Hr.
Qed.

Lemma create_if_needed_same (f : Flags) (present : bool) (h : History) :
  create_if_needed w1 f present h = create_if_needed w2 f present h.
Proof.
  destruct same as (_ & _ & _ & _ & Hc & _).
  unfold create_if_needed, when. destruct (negb present); [|reflexivity].
  apply bind_ext; [apply buildCreateIndexBody_same|]. intros body h'.
  unfold bind, es_Indices_Create, call. now rewrite Hc.
Qed.

Lemma load_records_same (f : Flags) (h : History) :
  load_records w1 f h = load_records w2 f h.
Proof.
  destruct same as (_ & Hr & _).
  unfold load_records, bind, os_ReadFile, call. now rewrite Hr.
Qed.

Lemma upload_same (f : Flags) (records : list Doc) (fuel : nat) :
  forall i h, upload w1 f records fuel i h = upload w2 f records fuel i h.
Proof.
  destruct same as (_ & _ & _ & _ & _ & Hb).
  induction fuel as [|fuel IH]; intros i h; cbn [upload]; [reflexivity|].
  destruct (i <? Go.len records); [|reflexivity].
  destruct (Go.slice _ _ _) as [docs|]; [|reflexivity].
  rewrite !bulk_step, Hb.
  apply bind_ext; [reflexivity|]. intros _ h1.
  apply bind_ext; [reflexivity|]. intros _ h2. apply IH.
Qed.

Lemma bulk_load_same (f : Flags) (fuel : nat) (h : History) :
  bulk_load w1 f fuel h = bulk_load w2 f fuel h.
Proof.
  unfold bulk_load.
  apply bind_ext; [apply load_records_same|]. intros records h1.
  apply bind_ext; [reflexivity|]. intros _ h2.
  apply bind_ext; [apply upload_same | reflexivity].
Qed.

(** X9.  The status codes of the replies to the create request and to
    the bulk requests are never looked at: in two surroundings that
    differ only in these status codes, the run is the same, event for
    event, and ends the same way.  A create or bulk request answered
    with 400 or 500 is taken as done. *)
Theorem reply_status_unused (f : Flags) (fuel : nat) (h : History) :
  main w1 f fuel h = main w2 f fuel h.
Proof.
  unfold main.
  apply bind_ext; [reflexivity|]. intros _ h1.
  apply bind_ext.
  { destruct same as (Hn & _).
    unfold elasticsearch_NewClient, call. now rewrite Hn. }
  intros err h2. apply bind_ext; [reflexivity|]. intros _ h3.
  apply bind_ext; [|intros; apply bulk_load_same].
  unfold prepare_index.
  apply bind_ext; [apply indexExists_same|]. intros r h4.
  apply bind_ext; [reflexivity|]. intros _ h5.
  apply bind_ext; [apply lifecycle_same|]. intros e h6.
  apply create_if_needed_same.
Qed.

End ReplyStatus.

(** ** Loading the documents (lines 119-128) *)

Section Loading.

Context {J : EncodingJSON}.
Variable w : World.

Lemma bulk_load_unreadable (f : Flags) (fuel : nat) (h : History)
  (err : string) :
  snd (read_file w h (dataFile f)) = Some err ->
  bulk_load w f fuel h
  = (Exited 1,
     h ++ [ReadFile (dataFile f);
           Log Fatal [Err err] "Error during reading data file"]).
Proof.
  intros Hr. unfold bulk_load, load_records, bind, os_ReadFile, call.
  rewrite Hr. rewrite checkErr_err. now rewrite <- app_assoc.
Qed.

Lemma bulk_load_unparsable (f : Flags) (fuel : nat) (h : History)
  (content err : string) :
  read_file w h (dataFile f) = (content, None) ->
  snd (Unmarshal_records content) = Some err ->
  bulk_load w f fuel h
  = (Exited 1,
     h ++ [ReadFile (dataFile f);
           Log Fatal [Err err] "Error during parsing data JSON"]).
Proof.
  intros Hr Hu. unfold bulk_load, load_records, bind, os_ReadFile, call.
  rewrite Hr. cbn [fst snd]. rewrite checkErr_nil, Hu, checkErr_err.
  now rewrite <- app_assoc.
Qed.

Lemma bulk_load_loaded (f : Flags) (fuel : nat) (h : History)
  (content : string) :
  read_file w h (dataFile f) = (content, None) ->
  snd (Unmarshal_records content) = None ->
  let records := fst (Unmarshal_records content) in
  bulk_load w f fuel h
  = (upload w f records fuel 0 ;; emit completed_line)
      (h ++ [ReadFile (dataFile f); starting_line (Go.len records)]).
Proof.
  intros Hr Hu records.
  unfold bulk_load, load_records, os_ReadFile, call.
  unfold bind at 1 2 3 4. rewrite Hr. cbn [fst snd].
  rewrite checkErr_nil, Hu, checkErr_nil.
  unfold ret, log_Info at 1, emit at 1.
  unfold bind at 1. cbv beta iota. now rewrite <- app_assoc.
Qed.

(** X10.  The data file is read only after the index has been dealt
    with.  In a run that gets that far, a data file that cannot be read
    ends the run with the fatal line of [checkErr] and exit status 1,
    right after the failed read and without any bulk request; the
    delete and create requests have been sent by then. *)
Theorem unreadable_data_file (f : Flags) (fuel : nat) (status : Z)
  (err : string) :
  goes_through w f status ->
  (forall h, snd (read_file w h (dataFile f)) = Some err) ->
  exists pre body,
    main w f fuel []
    = (Exited 1,
       pre ++ [ReadFile (dataFile f);
               Log Fatal [Err err] "Error during reading data file"])
    /\ filter is_index_change pre = index_changes f (status =? 200) body
    /\ bulk_bodies pre = [].
Proof.
  intros G Hr.
  destruct (main_prepared w f fuel status G) as (pre & body & E & F & B).
  exists pre, body. split; [|now split].
  rewrite E. now apply bulk_load_unreadable.
Qed.

(** X11.  In a run that gets to the data file, contents that
    [json.Unmarshal] rejects end the run with the fatal line "Error
    during parsing data JSON" and exit status 1, without any bulk
    request. *)
Theorem unparsable_data_file (f : Flags) (fuel : nat) (status : Z)
  (content err : string) :
  goes_through w f status ->
  (forall h, read_file w h (dataFile f) = (content, None)) ->
  snd (Unmarshal_records content) = Some err ->
  exists pre body,
    main w f fuel []
    = (Exited 1,
       pre ++ [ReadFile (dataFile f);
               Log Fatal [Err err] "Error during parsing data JSON"])
    /\ filter is_index_change pre = index_changes f (status =? 200) body
    /\ bulk_bodies pre = [].
Proof.
  intros G Hr Hu.
  destruct (main_prepared w f fuel status G) as (pre & body & E & F & B).
  exists pre, body. split; [|now split].
  rewrite E. now apply bulk_load_unparsable with (content := content).
Qed.

(** X12.  When the data file decodes to no document at all, the loop
    body is never entered: for every batch size, also 0 and negative
    ones, the run writes "Starting bulk insert" with total 0 and "Bulk
    load completed", sends no bulk request and returns normally. *)
Theorem empty_document_set (f : Flags) (fuel : nat) (status : Z)
  (content : string) :
  goes_through w f status ->
  (forall h, read_file w h (dataFile f) = (content, None)) ->
  Unmarshal_records content = ([], None) ->
  exists pre body,
    main w f fuel []
    = (Done tt,
       pre ++ [ReadFile (dataFile f); starting_line 0; completed_line])
    /\ filter is_index_change pre = index_changes f (status =? 200) body
    /\ bulk_bodies pre = [].
Proof.
  intros G Hr Hu.
  destruct (main_prepared w f fuel status G) as (pre & body & E & F & B).
  exists pre, body. split; [|now split].
  rewrite E.
  rewrite (bulk_load_loaded f fuel pre content (Hr pre))
    by now rewrite Hu.
  rewrite Hu. cbn [fst]. unfold bind.
  rewrite upload_done by (cbn; lia).
  unfold emit. now rewrite <- app_assoc.
Qed.


(** X13.  The whole of a run in which everything goes through, for a
    batch size [B >= 1]: after the index has been dealt with, the data
    file is read, the line "Starting bulk insert" reports the number
    [N] of documents decoded, the loop makes its [ceil (N / B)] rounds
    of one bulk request and one progress line each, and the line "Bulk
    load completed" ends the run, which returns normally. *)
Theorem complete_run (f : Flags) (fuel : nat) (status : Z)
  (content : string) :
  goes_through w f status ->
  (forall h, read_file w h (dataFile f) = (content, None)) ->
  snd (Unmarshal_records content) = None ->
  let records := fst (Unmarshal_records content) in
  let b := Z.to_nat (batchSize f) in
  let n := ceil_div (List.length records) b in
  1 <= batchSize f <= Go.int_max ->
  Go.len records <= 2 ^ 62 ->
  bulk_ok w ->
  (n <= fuel)%nat ->
  exists pre body,
    main w f fuel []
    = (Done tt,
       pre ++ [ReadFile (dataFile f); starting_line (Go.len records)]
           ++ flat_map (round f records b) (seq 0 n)
           ++ [completed_line])
    /\ filter is_index_change pre = index_changes f (status =? 200) body
    /\ bulk_bodies pre = [].
Proof.
  intros G Hr Hu records b n HB HN Hok Hfuel.
  destruct (main_prepared w f fuel status G) as (pre & body & E & F & B).
  exists pre, body. split; [|now split].
  rewrite E, (bulk_load_loaded f fuel pre content (Hr pre) Hu).
  fold records.
  pose proof (upload_from w f records fuel 0
                (pre ++ [ReadFile (dataFile f); starting_line (Go.len records)])
                HB HN Hok) as U.
  cbv zeta in U. fold b n in U. rewrite Nat.sub_0_r in U.
  change (Z.of_nat 0 * batchSize f) with 0 in U.
  rewrite (bind_Done _ _ _ tt _ (U ltac:(lia) Hfuel)).
  unfold emit. now rewrite <- !app_assoc.
Qed.

End Loading.

(** ** The loop, whatever the replies (lines 131-161) *)

Section UploadRuns.

Context {J : EncodingJSON}.
Variable w : World.
Variable f : Flags.
Variable records : list Doc.

Lemma upload_from_any (fuel k : nat) (h : History) :
  1 <= batchSize f <= Go.int_max ->
  Go.len records <= 2 ^ 62 ->
  let b := Z.to_nat (batchSize f) in
  let n := ceil_div (List.length records) b in
  (k <= n)%nat -> (n - k <= fuel)%nat ->
  upload w f records fuel (Z.of_nat k * batchSize f) h
  = (Done tt, h ++ flat_map (round f records b) (seq k (n - k)))
  \/ exists j e,
       (k <= j < n)%nat
       /\ bulk w (h ++ flat_map (round f records b) (seq k (j - k)))
            (batch_body f (batch b records j)) = Failed e
       /\ upload w f records fuel (Z.of_nat k * batchSize f) h
          = (Exited 1,
             h ++ flat_map (round f records b) (seq k (j - k))
               ++ failed_round f records b j e).
Proof.
  intros HB HN b n. revert k h.
  assert (Hend : forall h fuel0,
             upload w f records fuel0 (Z.of_nat n * batchSize f) h
             = (Done tt, h)).
  { intros h fuel0. apply upload_done.
    assert (Hn : ~ (n < ceil_div (List.length records)
                           (Z.to_nat (batchSize f)))%nat) by (subst n b; lia).
    rewrite ceil_div_gt in Hn by lia. unfold Go.len. nia. }
  induction fuel as [|fuel IH]; intros k h Hk Hfuel.
  - left. replace k with n by lia. rewrite Nat.sub_diag. cbn [seq flat_map].
    rewrite app_nil_r. apply Hend.
  - destruct (Nat.eq_dec k n) as [-> | Hne].
    + left. rewrite Nat.sub_diag. cbn [seq flat_map]. rewrite app_nil_r.
      apply Hend.
    + assert (Hlt : (k < n)%nat) by lia.
      destruct (bulk w h (batch_body f (batch b records k))) as [e | c] eqn:Hr.
      * right. exists k, e. rewrite Nat.sub_diag. cbn [seq flat_map].
        rewrite app_nil_r. split; [lia|]. split; [exact Hr|].
        now apply upload_round_fails.
      * rewrite (upload_round w f records fuel k h c HB HN Hlt Hr).
        fold b.
        destruct (IH (S k) (h ++ round f records b k)) as [E | (j & e & Hj & Hf & E)];
          try lia.
        -- left. rewrite E.
           replace (n - k)%nat with (S (n - S k)) by lia.
           cbn [seq flat_map]. now rewrite <- app_assoc.
        -- right. exists j, e. split; [lia|].
           replace (j - k)%nat with (S (j - S k)) by lia.
           cbn [seq flat_map]. rewrite app_assoc. split; [exact Hf|].
           rewrite E. now rewrite <- !app_assoc.
Qed.

(** X14.  For a batch size [B >= 1], whatever the cluster answers, the
    loop ends within [ceil (N / B)] rounds, and in one of two ways:
    either every request was answered and the run of the loop is the
    [ceil (N / B)] rounds, batch after batch; or some request [k]
    failed in transport, and the run is the [k] rounds before it, the
    request for batch [k], the fatal line and exit status 1.  The loop
    never skips or repeats a batch and never panics. *)
Theorem upload_stops_at_first_failure (fuel : nat) (h : History) :
  1 <= batchSize f <= Go.int_max ->
  Go.len records <= 2 ^ 62 ->
  let b := Z.to_nat (batchSize f) in
  let n := ceil_div (List.length records) b in
  (n <= fuel)%nat ->
  upload w f records fuel 0 h
  = (Done tt, h ++ flat_map (round f records b) (seq 0 n))
  \/ exists k e,
       (k < n)%nat
       /\ bulk w (h ++ flat_map (round f records b) (seq 0 k))
            (batch_body f (batch b records k)) = Failed e
       /\ upload w f records fuel 0 h
          = (Exited 1,
             h ++ flat_map (round f records b) (seq 0 k)
               ++ failed_round f records b k e).
Proof.
  intros HB HN b n Hfuel.
  pose proof (upload_from_any fuel 0 h HB HN) as H. cbv zeta in H.
  fold b n in H. rewrite Nat.sub_0_r in H. change (Z.of_nat 0 * _) with 0 in H.
  destruct H as [E | (j & e & Hj & Hf & E)]; try lia.
  - now left.
  - right. exists j, e. rewrite Nat.sub_0_r in Hf, E.
    split; [lia|]. now split.
Qed.

Lemma progress_app (l t : History) :
  progress (l ++ t) = progress l ++ progress t.
Proof. unfold progress. apply flat_map_app. Qed.

Lemma progress_rounds (b : nat) (l : list nat) :
  progress (flat_map (round f records b) l)
  = map (fun k => (Z.min (Z.of_nat (S k) * batchSize f) (Go.len records),
                   Go.len records)) l.
Proof.
  induction l as [|k l IH]; [reflexivity|].
  cbn [flat_map map]. rewrite progress_app, IH. reflexivity.
Qed.

Lemma answered_app (h a b : History) :
  answered w h (a ++ b)
  = (answered w h a + answered w (h ++ a) b)%nat.
Proof.
  revert h. induction a as [|e a IH]; intros h; cbn [app answered].
  - now rewrite app_nil_r.
  - rewrite IH, <- app_assoc. cbn [app]. lia.
Qed.

(** The loop from round [k] on: one progress line for each request
    that is answered. *)
Lemma upload_progress (fuel k : nat) (h : History) :
  1 <= batchSize f <= Go.int_max ->
  Go.len records <= 2 ^ 62 ->
  let b := Z.to_nat (batchSize f) in
  let n := ceil_div (List.length records) b in
  (k <= n)%nat -> (n - k <= fuel)%nat ->
  exists r t,
    upload w f records fuel (Z.of_nat k * batchSize f) h = (r, h ++ t)
    /\ progress t
       = map (fun k => (Z.min (Z.of_nat (S k) * batchSize f) (Go.len records),
                        Go.len records)) (seq k (answered w h t))
    /\ (k + answered w h t <= n)%nat
    /\ (r = Done tt -> (k + answered w h t)%nat = n).
Proof.
  intros HB HN b n. revert k h.
  assert (Hend : forall h fuel0,
             upload w f records fuel0 (Z.of_nat n * batchSize f) h
             = (Done tt, h)).
  { intros h fuel0. apply upload_done.
    assert (Hn : ~ (n < ceil_div (List.length records)
                           (Z.to_nat (batchSize f)))%nat) by (subst n b; lia).
    rewrite ceil_div_gt in Hn by lia. unfold Go.len. nia. }
  assert (Hstop : forall h fuel0,
             exists r t,
               upload w f records fuel0 (Z.of_nat n * batchSize f) h
               = (r, h ++ t)
               /\ progress t
                  = map (fun k => (Z.min (Z.of_nat (S k) * batchSize f)
                                     (Go.len records), Go.len records))
                        (seq n (answered w h t))
               /\ (n + answered w h t <= n)%nat
               /\ (r = Done tt -> (n + answered w h t)%nat = n)).
  { intros h fuel0. exists (Done tt), []. rewrite app_nil_r.
    split; [apply Hend|]. cbn. repeat split; lia. }
  induction fuel as [|fuel IH]; intros k h Hk Hfuel.
  - replace k with n by lia. apply Hstop.
  - destruct (Nat.eq_dec k n) as [-> | Hne]; [apply Hstop|].
    assert (Hlt : (k < n)%nat) by lia.
    destruct (bulk w h (batch_body f (batch b records k))) as [e | c] eqn:Hr.
    + exists (Exited 1), (failed_round f records b k e).
      split; [now apply upload_round_fails|].
      unfold failed_round. cbn [answered]. rewrite Hr. cbn.
      repeat split; try lia. discriminate.
    + rewrite (upload_round w f records fuel k h c HB HN Hlt Hr). fold b.
      destruct (IH (S k) (h ++ round f records b k)) as (r & t & E & P & Hle & Hd);
        try lia.
      exists r, (round f records b k ++ t). rewrite app_assoc.
      split; [exact E|].
      assert (A : answered w h (round f records b k ++ t)
                  = S (answered w (h ++ round f records b k) t)).
      { rewrite answered_app. unfold round at 1. cbn [answered].
        fold (batch_body f (batch b records k)). rewrite Hr. lia. }
      rewrite A, progress_app, P. cbn [seq map].
      split; [reflexivity|]. split; [lia|]. intros Hr'. specialize (Hd Hr').
      lia.
Qed.

(** X15.  For a batch size [B >= 1] and whatever the cluster answers,
    the "Batch inserted" lines of the loop are as many as the bulk
    requests that were answered, a request that failed in transport
    getting none, and line [k] (from 1) reports
    [inserted = min (k * B, N)] and [total = N]: the number of
    documents sent and answered so far.  When the loop ends normally
    every batch has its line and the last line reports
    [inserted = N]. *)
Theorem progress_lines (fuel : nat) (h : History) :
  1 <= batchSize f <= Go.int_max ->
  Go.len records <= 2 ^ 62 ->
  let b := Z.to_nat (batchSize f) in
  let n := ceil_div (List.length records) b in
  (n <= fuel)%nat ->
  exists t,
    snd (upload w f records fuel 0 h) = h ++ t
    /\ progress t
       = map (fun k => (Z.min (Z.of_nat (S k) * batchSize f) (Go.len records),
                        Go.len records)) (seq 0 (answered w h t))
    /\ List.length (progress t) = answered w h t
    /\ (answered w h t <= n)%nat
    /\ (fst (upload w f records fuel 0 h) = Done tt ->
        answered w h t = n
        /\ (records <> [] ->
            last (progress t) (0, 0) = (Go.len records, Go.len records))).
Proof.
  intros HB HN b n Hfuel.
  destruct (upload_progress fuel 0 h HB HN) as (r & t & E & P & Hle & Hd);
    fold b n; try lia.
  change (Z.of_nat 0 * batchSize f) with 0 in E. fold b n in Hle, Hd.
  rewrite E. cbn [fst snd]. exists t.
  split; [reflexivity|]. split; [exact P|].
  split; [now rewrite P, length_map, length_seq|].
  split; [lia|]. intros Hr. specialize (Hd Hr). cbn [Nat.add] in Hd.
  split; [exact Hd|]. intros Hne. rewrite P, Hd.
  assert (Hb : (0 < b)%nat) by (subst b; lia).
  assert (Hn : (0 < n)%nat).
  { apply (ceil_div_gt (List.length records) b 0 Hb).
    destruct records; [easy | simpl; lia]. }
  assert (Hge : ~ (n < ceil_div (List.length records) b)%nat)
    by (subst n; lia).
  rewrite ceil_div_gt in Hge by assumption.
  clear Hd P Hle E. destruct n as [|m] eqn:En; [lia|].
  rewrite seq_S, map_app. cbn [map]. rewrite last_last. cbn [Nat.add]. f_equal.
  unfold Go.len. assert (HBb : batchSize f = Z.of_nat b) by (subst b; lia).
  rewrite HBb. apply Z.min_r.
  apply Nat.nlt_ge, Nat2Z.inj_le in Hge. rewrite Nat2Z.inj_mul in Hge.
  exact Hge.
Qed.


(** X16.  When the batch size is at least the number of documents,
    also when it is the largest [int], and the request is answered, the
    loop makes one round: one bulk request with all the documents, one
    line reporting all of them inserted, and the loop is done. *)
Theorem one_request_when_batch_covers_all (fuel : nat) (h : History)
  (c : Z) :
  records <> [] ->
  Go.len records <= batchSize f <= Go.int_max ->
  bulk w h (write_docs (index f) records "") = Responded c ->
  upload w f records (S fuel) 0 h
  = (Done tt,
     h ++ [Bulk (write_docs (index f) records "");
           Log Info [Int "inserted" (Go.len records);
                     Int "total" (Go.len records)] "Batch inserted"]).
Proof.
  intros Hne HB Hr.
  assert (Hpos : 0 < Go.len records).
  { unfold Go.len. destruct records; [easy | simpl; lia]. }
  assert (Hadd : Go.add 0 (batchSize f) = batchSize f).
  { unfold Go.add. cbn [Z.add]. apply wrap_id.
    unfold Go.in_int, Go.int_min, Go.int_max in *. lia. }
  cbn [upload].
  assert ((0 <? Go.len records) = true) as -> by now apply Z.ltb_lt.
  rewrite Hadd.
  assert ((if batchSize f >? Go.len records
           then Go.len records else batchSize f) = Go.len records) as ->.
  { destruct (Z.gtb_spec (batchSize f) (Go.len records)); lia. }
  assert (Go.slice records 0 (Go.len records) = Some records) as ->.
  { unfold Go.slice.
    assert (((0 <=? 0) && (0 <=? Go.len records)
             && (Go.len records <=? Go.len records)) = true) as ->.
    { rewrite !andb_true_iff, !Z.leb_le. lia. }
    f_equal. cbn [Z.to_nat skipn]. rewrite Z.sub_0_r. unfold Go.len.
    rewrite Nat2Z.id. apply firstn_all. }
  rewrite bulk_step, Hr. cbn [err_of].
  rewrite (bind_Done _ _ _ tt _ (checkErr_nil _ _)).
  unfold bind, log_Info, emit.
  rewrite upload_done by lia. now rewrite <- app_assoc.
Qed.

End UploadRuns.

(** ** The bodies of the requests, one after the other
    (lines 137-147) *)

Section Payload.

Context {J : EncodingJSON}.
Variable w : World.

Lemma cat_app (l1 l2 : list string) :
  cat (l1 ++ l2) = (cat l1 ++ cat l2)%string.
Proof.
  induction l1 as [|s l1 IH]; cbn [cat app]; [reflexivity|].
  now rewrite IH, append_assoc.
Qed.

Lemma batch_body_cat (f : Flags) (docs : list Doc) :
  batch_body f docs = cat (map (doc_lines (index f)) docs).
Proof. unfold batch_body. now rewrite write_docs_cat. Qed.

Lemma batch_body_concat (f : Flags) (ls : list (list Doc)) :
  cat (map (batch_body f) ls) = batch_body f (List.concat ls).
Proof.
  induction ls as [|docs ls IH]; [reflexivity|].
  cbn [map cat List.concat]. rewrite IH, !batch_body_cat.
  now rewrite map_app, cat_app.
Qed.

(** X17.  What [write_docs] puts in the buffer for a slice is the
    lines of its documents one after the other, with nothing before,
    between or after them; so the body for two slices one after the
    other is the two bodies one after the other, and, for a batch size
    [B >= 1] with every request answered, the bodies of the bulk
    requests of the loop, one after the other, are byte for byte the
    body that one request for all the documents would have. *)
Theorem bodies_add_up (f : Flags) (records : list Doc) (fuel : nat)
  (h : History) :
  1 <= batchSize f <= Go.int_max ->
  Go.len records <= 2 ^ 62 ->
  bulk_ok w ->
  (ceil_div (List.length records) (Z.to_nat (batchSize f)) <= fuel)%nat ->
  (forall docs1 docs2,
     write_docs (index f) (docs1 ++ docs2) ""
     = (write_docs (index f) docs1 "" ++ write_docs (index f) docs2 "")%string)
  /\ exists t,
       upload w f records fuel 0 h = (Done tt, h ++ t)
       /\ cat (bulk_bodies t) = write_docs (index f) records "".
Proof.
  intros HB HN Hok Hfuel. split.
  - intros docs1 docs2. rewrite !write_docs_cat. cbn [append].
    now rewrite map_app, cat_app.
  - destruct (upload_run w f records fuel h HB HN Hok Hfuel)
      as (t & E & Hb & _).
    exists t. split; [exact E|]. rewrite Hb, batch_body_concat.
    rewrite concat_batches by lia. reflexivity.
Qed.

End Payload.

(** ** Every run of [main] *)

(** Goals of the form [emits P m], for a program [m] written with the
    operations of the monad. *)
Ltac emits_step :=
  lazymatch goal with
  | |- emits _ (bind _ _) => apply emits_bind; [|intros ?]
  | |- emits _ (ret _) => apply emits_ret
  | |- emits _ (emit _) => apply emits_emit
  | |- emits _ (log_Info _ _) => apply emits_emit
  | |- emits _ (log_Warn _ _) => apply emits_emit
  | |- emits _ (log_Fatal _ _) => apply emits_log_Fatal
  | |- emits _ flag_Usage => apply emits_emit
  | |- emits _ (os_Exit _) => apply emits_stop
  | |- emits _ (panic _) => apply emits_stop
  | |- emits _ out_of_fuel => apply emits_stop
  | |- emits _ (when ?c _) => destruct c eqn:?; cbn [when]
  | |- emits _ (call _ _) => apply emits_call
  | |- emits _ (checkErr _ ?e) => destruct e; cbn [checkErr]
  | |- emits _ (match ?x with _ => _ end) => destruct x eqn:?
  end.

Section EveryRun.

Context {J : EncodingJSON}.
Variable w : World.

(** The ways a run can end before the lifecycle decision, and the run
    from the decision on. *)
Lemma main_cases (f : Flags) (fuel : nat) :
  main w f fuel [] = (Exited 1, conflict_trace)
  \/ main w f fuel [] = (Exited 1, [Usage])
  \/ (accepted f
      /\ exists fields msg,
           main w f fuel []
           = (Exited 1, client_built f ++ [Log Fatal fields msg]))
  \/ (accepted f
      /\ exists fields msg,
           main w f fuel []
           = (Exited 1, index_checked f ++ [Log Fatal fields msg]))
  \/ (accepted f /\ client_ok w f
      /\ exists status,
           indices_exists w (client_built f) (index f) = Responded status
           /\ (status = 200 \/ status = 404)
           /\ main w f fuel []
              = (exists_ <- lifecycle w f (status =? 200) ;;
                 create_if_needed w f exists_ ;;
                 bulk_load w f fuel) (index_checked f)).
Proof.
  destruct (auth_conflict f) eqn:Ec.
  { left. now apply main_auth_conflict. }
  destruct (String.eqb_spec (index f) "") as [Ei | Ei].
  { right; left. unfold main, validate. rewrite Ec, Ei. reflexivity. }
  destruct (String.eqb_spec (dataFile f) "") as [Ed | Ed].
  { right; left. unfold main, validate. rewrite Ec, Ed.
    destruct (index f =? "")%string; reflexivity. }
  assert (Ha : accepted f) by (repeat split; assumption).
  right; right.
  destruct (new_client w [] (client_config f)) as [err|] eqn:En.
  { left. split; [assumption|]. do 2 eexists.
    eapply client_failure_run; eassumption. }
  right.
  destruct (indices_exists w (client_built f) (index f)) as [err | status]
    eqn:Ee.
  { left. split; [assumption|]. do 2 eexists.
    eapply exists_error_run; eassumption. }
  destruct (Z.eq_dec status 200) as [E200 | E200].
  { right. repeat split; try assumption. exists status.
    split; [reflexivity|]. split; [now left|].
    now apply main_index_checked; [| | |left]. }
  destruct (Z.eq_dec status 404) as [E404 | E404].
  { right. repeat split; try assumption. exists status.
    split; [reflexivity|]. split; [now right|].
    now apply main_index_checked; [| | |right]. }
  left. split; [assumption|]. do 2 eexists.
  eapply unexpected_status_run; eassumption.
Qed.


(** *** What a run touches *)

Lemma upload_named (f : Flags) (records : list Doc) (fuel : nat) (i : Z) :
  emits (named_by f) (upload w f records fuel i).
Proof.
  apply emits_weaken with (Q := bulk_or_log); [|apply upload_emits].
  intros [] H; simpl in H; try contradiction; exact I.
Qed.

Lemma rest_named (f : Flags) (fuel : nat) (present : bool) :
  accepted f ->
  emits (named_by f)
    (exists_ <- lifecycle w f present ;;
     create_if_needed w f exists_ ;;
     bulk_load w f fuel).
Proof.
  intros (_ & Hi & Hd).
  unfold lifecycle, create_if_needed, buildCreateIndexBody, deleteAndCheck,
    bulk_load, load_records, es_Indices_Delete, es_Indices_Create, os_ReadFile.
  repeat emits_step;
    try apply upload_named;
    try exact I;
    try (split; [reflexivity | assumption]);
    match goal with
    | H : Go.nonempty _ = true |- _ => apply nonempty_true in H
    | _ => idtac
    end;
    cbn; auto.
Qed.

Lemma main_named (f : Flags) (fuel : nat) :
  Forall (named_by f) (snd (main w f fuel [])).
Proof.
  destruct (main_cases f fuel)
    as [E | [E | [(Ha & l & m & E) | [(Ha & l & m & E)
        | (Ha & Hc & status & He & Hs & E)]]]]; rewrite E; cbn [snd].
  - repeat constructor.
  - repeat constructor.
  - repeat constructor.
  - destruct Ha as (_ & Hi & _). repeat constructor; assumption.
  - match goal with
    | |- Forall _ (snd (?m ?h)) => destruct (m h) as [r h'] eqn:Er
    end.
    destruct (rest_named f fuel _ Ha _ _ _ Er) as (t & -> & Ft).
    cbn [snd]. apply Forall_app. split; [|assumption].
    destruct Ha as (_ & Hi & _). repeat constructor; assumption.
Qed.

(** X18.  Whatever the flags and the surroundings, a run of [main]
    touches only what the flags name: the one client it builds has the
    configuration of lines 56-74; a file it reads is the settings, the
    mappings or the data file, and its path is not empty; the index of
    every existence check, delete and create request is the one of the
    [-index] flag, and is not empty. *)
Theorem run_touches_what_flags_name (f : Flags) (fuel : nat) :
  Forall (named_by f) (snd (main w f fuel [])).
Proof. apply main_named. Qed.

(** X19.  A client is only ever built from a configuration with one
    way to authenticate: its API key is the [-apiKey] flag, and when
    that is not empty the username and the password are empty; a
    username is only there together with a password, and both are the
    flags. *)
Theorem client_has_one_auth_method (f : Flags) (fuel : nat) (cfg : Config) :
  In (NewClient cfg) (snd (main w f fuel [])) ->
  Addresses cfg = [url f]
  /\ InsecureSkipVerify cfg = insecure f
  /\ APIKey cfg = apiKey f
  /\ (APIKey cfg <> "" -> Username cfg = "" /\ Password cfg = "")
  /\ (Username cfg <> "" \/ Password cfg <> "" ->
      Username cfg = user f /\ Password cfg = pass f
      /\ Username cfg <> "" /\ Password cfg <> "").
Proof.
  intros Hin.
  assert (Hcfg : cfg = client_config f).
  { pose proof (main_named f fuel) as F. rewrite Forall_forall in F.
    exact (F _ Hin). }
  assert (Ha : auth_conflict f = false).
  { destruct (main_cases f fuel)
      as [E | [E | [(Ha & _) | [(Ha & _) | (Ha & _)]]]];
      try (now destruct Ha).
    - rewrite E in Hin. simpl in Hin. intuition discriminate.
    - rewrite E in Hin. simpl in Hin. intuition discriminate. }
  subst cfg. clear Hin. unfold auth_conflict in Ha. unfold client_config.
  destruct (Go.nonempty (user f)) eqn:Eu, (Go.nonempty (pass f)) eqn:Ep,
    (Go.nonempty (apiKey f)) eqn:Ek; try discriminate Ha; cbn;
    try apply nonempty_true in Eu; try apply nonempty_false in Eu;
    try apply nonempty_true in Ep; try apply nonempty_false in Ep;
    try apply nonempty_true in Ek; try apply nonempty_false in Ek;
    repeat split; auto; try congruence; intuition congruence.
Qed.

(** *** How a run ends *)

Lemma tidy_ret {A} (a : A) : tidy (ret a).
Proof.
  intros h r h' [= <- <-]. exists []. rewrite app_nil_r.
  split; [reflexivity | constructor].
Qed.

Lemma tidy_panic {A} (msg : string) : tidy (@panic A msg).
Proof.
  intros h r h' [= <- <-]. exists []. rewrite app_nil_r.
  split; [reflexivity | constructor].
Qed.

Lemma tidy_out_of_fuel {A} : tidy (@out_of_fuel A).
Proof.
  intros h r h' [= <- <-]. exists []. rewrite app_nil_r.
  split; [reflexivity | constructor].
Qed.

Lemma tidy_bind {A B} (m : M A) (k : A -> M B) :
  tidy m -> (forall a, tidy (k a)) -> tidy (bind m k).
Proof.
  intros Hm Hk h r h'. unfold bind.
  destruct (m h) as [r1 h1] eqn:E. destruct (Hm _ _ _ E) as (t1 & -> & E1).
  destruct r1 as [a | c | s |].
  - intros E2. destruct (Hk _ _ _ _ E2) as (t2 & -> & E2').
    exists (t1 ++ t2). rewrite app_assoc. split; [reflexivity|].
    cbn [ended] in E1. destruct r as [b | c | s |]; cbn [ended] in *;
      try (now apply Forall_app).
    destruct E2' as (-> & t0 & e & -> & F0 & Fe). split; [reflexivity|].
    exists (t1 ++ t0), e. rewrite app_assoc. split; [reflexivity|].
    split; [now apply Forall_app | assumption].
  - intros [= <- <-]. now exists t1.
  - intros [= <- <-]. now exists t1.
  - intros [= <- <-]. now exists t1.
Qed.

Lemma tidy_emit (e : Event) : is_final e = false -> tidy (emit e).
Proof.
  intros He h r h' [= <- <-]. exists [e]. split; [reflexivity|].
  cbn. now constructor.
Qed.

Lemma tidy_call {A} (answer : History -> A) (e : Event) :
  is_final e = false -> tidy (call answer e).
Proof.
  intros He h r h' [= <- <-]. exists [e]. split; [reflexivity|].
  cbn. now constructor.
Qed.

Lemma tidy_log_Fatal {A} (fields : list Field) (msg : string) :
  tidy (@log_Fatal A fields msg).
Proof.
  intros h r h' [= <- <-]. exists [Log Fatal fields msg].
  split; [reflexivity|]. split; [reflexivity|].
  exists [], (Log Fatal fields msg). now repeat split.
Qed.

Lemma tidy_usage_exit {A} : tidy (flag_Usage ;; @os_Exit A 1).
Proof.
  intros h r h' [= <- <-]. exists [Usage].
  split; [reflexivity|]. split; [reflexivity|].
  exists [], Usage. now repeat split.
Qed.

Ltac tidy_step :=
  lazymatch goal with
  | |- tidy (bind flag_Usage (fun _ => os_Exit 1)) => apply tidy_usage_exit
  | |- tidy (bind _ _) => apply tidy_bind; [|intros ?]
  | |- tidy (ret _) => apply tidy_ret
  | |- tidy (emit _) => apply tidy_emit; reflexivity
  | |- tidy (log_Info _ _) => apply tidy_emit; reflexivity
  | |- tidy (log_Warn _ _) => apply tidy_emit; reflexivity
  | |- tidy (log_Fatal _ _) => apply tidy_log_Fatal
  | |- tidy (panic _) => apply tidy_panic
  | |- tidy out_of_fuel => apply tidy_out_of_fuel
  | |- tidy (when ?c _) => destruct c; cbn [when]
  | |- tidy (call _ _) => apply tidy_call; reflexivity
  | |- tidy (checkErr _ ?e) => destruct e; cbn [checkErr]
  | |- tidy (match ?x with _ => _ end) => destruct x
  end.

Lemma upload_tidy (f : Flags) (records : list Doc) (fuel : nat) (i : Z) :
  tidy (upload w f records fuel i).
Proof.
  revert i. induction fuel as [|fuel IH]; intros i; cbn [upload].
  - repeat tidy_step.
  - unfold es_Bulk. repeat tidy_step. apply IH.
Qed.

Lemma main_tidy (f : Flags) (fuel : nat) : tidy (main w f fuel).
Proof.
  unfold main, validate, elasticsearch_NewClient, prepare_index, indexExists,
    lifecycle, create_if_needed, buildCreateIndexBody, deleteAndCheck,
    bulk_load, load_records, es_Indices_Exists, es_Indices_Delete,
    es_Indices_Create, os_ReadFile.
  repeat tidy_step; apply upload_tidy.
Qed.

Lemma bind_returns {A B} (m : M A) (k : A -> M B) (h h' : History) (b : B) :
  bind m k h = (Done b, h') ->
  exists a h1, m h = (Done a, h1) /\ k a h1 = (Done b, h').
Proof.
  unfold bind. destruct (m h) as [[a| | |] h1]; try discriminate.
  intros E. now exists a, h1.
Qed.

(** X20.  However a run of [main] ends, its events fit the way it
    ended.  A run that exits does so with status 1, and the last thing
    it did was to print the usage text or to write a fatal log line;
    nothing comes after a fatal line or the usage text.  A run that
    returns normally wrote neither, and its last event is the line
    "Bulk load completed". *)
Theorem exit_is_announced (f : Flags) (fuel : nat) :
  ended (fst (main w f fuel [])) (snd (main w f fuel []))
  /\ (fst (main w f fuel []) = Done tt ->
      exists t0, snd (main w f fuel []) = t0 ++ [completed_line]).
Proof.
  destruct (main w f fuel []) as [r t] eqn:E. cbn [fst snd]. split.
  - destruct (main_tidy f fuel _ _ _ E) as (t' & Et & H). now subst t.
  - intros Hr. subst r. unfold main in E.
    apply bind_returns in E as (a1 & h1 & _ & E).
    apply bind_returns in E as (a2 & h2 & _ & E).
    apply bind_returns in E as (a3 & h3 & _ & E).
    apply bind_returns in E as (a4 & h4 & _ & E).
    unfold bulk_load in E.
    apply bind_returns in E as (a5 & h5 & _ & E).
    apply bind_returns in E as (a6 & h6 & _ & E).
    apply bind_returns in E as (a7 & h7 & _ & E).
    injection E as <-. now exists h7.
Qed.


(** *** Delete and create requests, and the warning *)

Lemma emits_bind_post {A B} (P : Event -> Prop) (Q : A -> Prop)
  (m : M A) (k : A -> M B) :
  emits P m ->
  (forall h a h', m h = (Done a, h') -> Q a) ->
  (forall a, Q a -> emits P (k a)) ->
  emits P (bind m k).
Proof.
  intros Hm HQ Hk h r h'. unfold bind.
  destruct (m h) as [r1 h1] eqn:E. destruct (Hm _ _ _ E) as (t1 & -> & F1).
  destruct r1.
  - intros E2. destruct (Hk _ (HQ _ _ _ E) _ _ _ E2) as (t2 & -> & F2).
    exists (t1 ++ t2). rewrite app_assoc. split; [easy|].
    now apply Forall_app.
  - intros [= <- <-]. now exists t1.
  - intros [= <- <-]. now exists t1.
  - intros [= <- <-]. now exists t1.
Qed.

Lemma upload_loop_events (f : Flags) (records : list Doc) (fuel : nat)
  (i : Z) :
  emits loop_event (upload w f records fuel i).
Proof.
  revert i. induction fuel as [|fuel IH]; intros i; cbn [upload].
  - repeat emits_step.
  - unfold es_Bulk. repeat emits_step; try exact I. apply IH.
Qed.

Lemma upload_only_bulk (P : Event -> Prop) (f : Flags) (records : list Doc)
  (fuel : nat) (i : Z) :
  (forall e, loop_event e -> P e) -> emits P (upload w f records fuel i).
Proof.
  intros H. apply emits_weaken with (Q := loop_event); [exact H|].
  apply upload_loop_events.
Qed.

Ltac not_this_event :=
  let H := fresh in
  intros H; cbn in H; try discriminate H; try contradiction.

Lemma rest_deletes (f : Flags) (fuel : nat) (present : bool) :
  emits (fun e => is_delete e = true ->
                  deleteIndex f = true /\ present = true)
    (exists_ <- lifecycle w f present ;;
     create_if_needed w f exists_ ;;
     bulk_load w f fuel).
Proof.
  unfold lifecycle, create_if_needed, buildCreateIndexBody, deleteAndCheck,
    bulk_load, load_records, es_Indices_Delete, es_Indices_Create, os_ReadFile.
  destruct present; cbv beta iota; repeat emits_step;
    try (apply upload_only_bulk; intros [[]| | | | | | |] Hb; cbn in Hb; try contradiction);
    try not_this_event.
  - split; [|reflexivity].
    match goal with H : _ && _ = true |- _ => now apply andb_true_iff in H end.
  - now split.
Qed.

Lemma lifecycle_returns (f : Flags) (present : bool) (h h' : History)
  (e : bool) :
  lifecycle w f present h = (Done e, h') ->
  e = present && negb (deleteIndex f).
Proof.
  unfold lifecycle.
  destruct present, (addToIndex f), (deleteIndex f);
    cbn [andb negb when]; intros E;
    repeat (apply bind_returns in E as (? & ? & _ & E));
    try discriminate E; now injection E as <- _.
Qed.

Lemma rest_creates (f : Flags) (fuel : nat) (present : bool) :
  emits (fun e => is_create e = true ->
                  present && negb (deleteIndex f) = false)
    (exists_ <- lifecycle w f present ;;
     create_if_needed w f exists_ ;;
     bulk_load w f fuel).
Proof.
  apply emits_bind_post
    with (Q := fun e => e = present && negb (deleteIndex f)).
  - unfold lifecycle, deleteAndCheck, es_Indices_Delete.
    repeat emits_step; not_this_event.
  - intros h a h'. apply lifecycle_returns.
  - intros e ->.
    unfold create_if_needed, buildCreateIndexBody, bulk_load, load_records,
      es_Indices_Create, os_ReadFile.
    destruct (present && negb (deleteIndex f)); cbn [negb when];
      repeat emits_step;
      try (apply upload_only_bulk; intros [[]| | | | | | |] Hb; cbn in Hb;
           try contradiction);
      try not_this_event.
    reflexivity.
Qed.

Lemma rest_warnings (f : Flags) (fuel : nat) (present : bool) :
  emits (fun e => is_warning e = true ->
                  e = nothing_to_delete f
                  /\ deleteIndex f = true /\ present = false)
    (exists_ <- lifecycle w f present ;;
     create_if_needed w f exists_ ;;
     bulk_load w f fuel).
Proof.
  unfold lifecycle, create_if_needed, buildCreateIndexBody, deleteAndCheck,
    bulk_load, load_records, es_Indices_Delete, es_Indices_Create, os_ReadFile.
  destruct present; cbv beta iota; repeat emits_step;
    try (apply upload_only_bulk; intros [[]| | | | | | |] Hb; cbn in Hb;
         try contradiction);
    try not_this_event.
  all: now repeat split.
Qed.

Lemma early_events (f : Flags) (fields : list Field) (msg : string)
  (e : Event) :
  In e conflict_trace \/ In e [Usage]
  \/ In e (client_built f ++ [Log Fatal fields msg])
  \/ In e (index_checked f ++ [Log Fatal fields msg]) ->
  is_delete e = false /\ is_create e = false /\ is_warning e = false.
Proof.
  cbn. intros H. decompose [or] H; subst; try contradiction;
    now repeat split.
Qed.

(** X21.  Whatever the flags and the surroundings, a delete request is
    only sent in a run with [-delete] in which the existence check was
    answered with 200; and a create request is only sent when the check
    was answered with 404, or with 200 in a run with [-delete].
    Without [-delete] an index that is there is never deleted or
    created anew. *)
Theorem index_changes_are_called_for (f : Flags) (fuel : nat) :
  let reply := indices_exists w (client_built f) (index f) in
  let t := snd (main w f fuel []) in
  (forall name,
     In (IndicesDelete name) t ->
     deleteIndex f = true /\ reply = Responded 200)
  /\ (forall name body,
        In (IndicesCreate name body) t ->
        reply = Responded 404
        \/ (reply = Responded 200 /\ deleteIndex f = true)).
Proof.
  cbv zeta.
  destruct (main_cases f fuel)
    as [E | [E | [(Ha & l & m & E) | [(Ha & l & m & E)
        | (Ha & Hc & status & He & Hs & E)]]]]; rewrite E; cbn [snd].
  1-2: split; intros;
    match goal with
    | H : In ?e _ |- _ =>
        destruct (early_events f [] "" e) as (? & ? & ?);
        [tauto | discriminate]
    end.
  1-2: split; intros;
    match goal with
    | H : In ?e _ |- _ =>
        destruct (early_events f l m e) as (? & ? & ?);
        [tauto | discriminate]
    end.
  match goal with
  | |- context [?m (index_checked f)] =>
      destruct (m (index_checked f)) as [r h'] eqn:Er
  end.
  cbn [snd]. split.
  - intros name Hin.
    destruct (rest_deletes f fuel _ _ _ _ Er) as (t & -> & Ft).
    rewrite Forall_forall in Ft.
    apply in_app_or in Hin as [Hin | Hin].
    { cbn in Hin. intuition discriminate. }
    destruct (Ft _ Hin eq_refl) as [Hd Hp]. split; [assumption|].
    rewrite He. f_equal. now apply Z.eqb_eq.
  - intros name body Hin.
    destruct (rest_creates f fuel _ _ _ _ Er) as (t & -> & Ft).
    rewrite Forall_forall in Ft.
    apply in_app_or in Hin as [Hin | Hin].
    { cbn in Hin. intuition discriminate. }
    pose proof (Ft _ Hin eq_refl) as Hp. rewrite He.
    destruct Hs as [-> | ->]; [right | now left].
    split; [reflexivity|]. change (200 =? 200) with true in Hp.
    now destruct (deleteIndex f).
Qed.


Lemma lifecycle_absent (f : Flags) (h : History) :
  lifecycle w f false h = (Done false, h ++ lifecycle_trace f false).
Proof.
  unfold lifecycle, lifecycle_trace, bind, when, log_Warn, log_Info, emit, ret.
  destruct (deleteIndex f), (addToIndex f); cbn [app];
    now rewrite <- ?app_assoc.
Qed.

(** [main] from the create step on, when the index is not there. *)
Lemma main_absent (f : Flags) (fuel : nat) :
  accepted f -> client_ok w f ->
  indices_exists w (client_built f) (index f) = Responded 404 ->
  main w f fuel []
  = (create_if_needed w f false ;; bulk_load w f fuel)
      (index_checked f ++ lifecycle_trace f false).
Proof.
  intros Ha Hc He.
  rewrite (main_index_checked w f fuel 404 Ha Hc He (or_intror eq_refl)).
  change (404 =? 200) with false.
  now rewrite (bind_Done _ _ _ _ _ (lifecycle_absent f _)).
Qed.

Lemma create_then_load_extends (f : Flags) (fuel : nat) (present : bool) :
  emits (fun _ => True) (create_if_needed w f present ;; bulk_load w f fuel).
Proof.
  apply emits_bind; [now apply create_if_needed_emits|]. intros _.
  now apply bulk_load_emits.
Qed.

(** X22.  The warning "Index does not exist. Nothing to delete." is
    the only warning the program writes, and it writes it exactly in
    the runs with [-delete] in which the existence check is answered
    with 404, with or without [-add]. *)
Theorem warning_when_nothing_to_delete (f : Flags) (fuel : nat) :
  let reply := indices_exists w (client_built f) (index f) in
  let t := snd (main w f fuel []) in
  (forall fields msg,
     In (Log Warn fields msg) t ->
     Log Warn fields msg = nothing_to_delete f
     /\ deleteIndex f = true /\ reply = Responded 404)
  /\ (accepted f -> client_ok w f ->
      reply = Responded 404 -> deleteIndex f = true ->
      In (nothing_to_delete f) t).
Proof.
  cbv zeta. split.
  - destruct (main_cases f fuel)
      as [E | [E | [(Ha & l & m & E) | [(Ha & l & m & E)
          | (Ha & Hc & status & He & Hs & E)]]]]; rewrite E; cbn [snd].
    1-2: intros;
      match goal with
      | H : In ?e _ |- _ =>
          destruct (early_events f [] "" e) as (? & ? & ?);
          [tauto | discriminate]
      end.
    1-2: intros;
      match goal with
      | H : In ?e _ |- _ =>
          destruct (early_events f l m e) as (? & ? & ?);
          [tauto | discriminate]
      end.
    match goal with
    | |- context [?m (index_checked f)] =>
        destruct (m (index_checked f)) as [r h'] eqn:Er
    end.
    cbn [snd]. intros fields msg Hin.
    destruct (rest_warnings f fuel _ _ _ _ Er) as (t & -> & Ft).
    rewrite Forall_forall in Ft.
    apply in_app_or in Hin as [Hin | Hin].
    { cbn in Hin. intuition discriminate. }
    destruct (Ft _ Hin eq_refl) as (He' & Hd & Hp).
    repeat split; try assumption. rewrite He. f_equal.
    destruct Hs as [-> | ->]; [discriminate Hp | reflexivity].
  - intros Ha Hc He Hd.
    rewrite (main_absent f fuel Ha Hc He).
    match goal with
    | |- context [?m (?a ++ ?b)] => destruct (m (a ++ b)) as [r h'] eqn:E2
    end.
    destruct (create_then_load_extends f fuel false _ _ _ E2) as (t2 & -> & _).
    cbn [snd]. apply in_or_app; left. apply in_or_app; right.
    unfold lifecycle_trace. rewrite Hd. now left.
Qed.


(** *** The order of the requests *)

Lemma filter_none {A} (p : A -> bool) (t : list A) :
  Forall (fun e => p e = false) t -> filter p t = [].
Proof. intros H. exact (filter_app_none p [] t H). Qed.

Lemma bulk_load_requests (f : Flags) (fuel : nat) (h : History)
  (r : Result unit) (h' : History) :
  bulk_load w f fuel h = (r, h') ->
  exists t, h' = h ++ t /\ forallb is_bulk (filter is_request t) = true.
Proof.
  intros E.
  destruct (bulk_load_emits w (fun e => is_request e = true -> is_bulk e = true)
              (fun _ _ _ H => H) f fuel (fun _ H => H) (fun _ _ => eq_refl)
              _ _ _ E) as (t & -> & F).
  exists t. split; [reflexivity|]. clear E.
  induction F as [|e t He _ IH]; [reflexivity|].
  cbn [filter]. destruct (is_request e) eqn:Er; [|assumption].
  cbn [forallb]. now rewrite (He eq_refl).
Qed.

Lemma create_then_load_order (f : Flags) (fuel : nat) (h : History)
  (r : Result unit) (h' : History) :
  (create_if_needed w f false ;; bulk_load w f fuel) h = (r, h') ->
  exists t,
    h' = h ++ t
    /\ (filter is_request t = []
        \/ create_then_bulk (index f) (filter is_request t) = true).
Proof.
  unfold create_if_needed, when. cbn [negb].
  rewrite bind_assoc. unfold bind at 1.
  destruct (buildCreateIndexBody w (settingsFile f) (mappingsFile f) h)
    as [r1 h1] eqn:E1.
  destruct (buildCreateIndexBody_emits w (fun e => is_request e = false)
              (fun _ _ _ => eq_refl) _ _ (fun _ => eq_refl) _ _ _ E1)
    as (t1 & -> & F1).
  apply filter_none in F1.
  destruct r1 as [body | c | s |];
    try (intros [= <- <-]; exists t1; split; [reflexivity | now left]).
  rewrite bind_assoc. unfold bind at 1, es_Indices_Create, call.
  rewrite bind_assoc.
  destruct (indices_create w (h ++ t1) (index f) body) as [e | c];
    cbn [err_of].
  - unfold bind. rewrite checkErr_err. intros [= <- <-].
    eexists (t1 ++ [_; _]). rewrite <- !app_assoc.
    split; [reflexivity|]. right. rewrite filter_app, F1. cbn.
    now rewrite String.eqb_refl.
  - rewrite (bind_Done _ _ _ tt _ (checkErr_nil _ _)).
    unfold bind at 1, log_Info, emit. intros E.
    destruct (bulk_load_requests f fuel _ _ _ E) as (tb & -> & Fb).
    eexists (t1 ++ [_; _] ++ tb). rewrite <- !app_assoc.
    split; [reflexivity|]. right. rewrite filter_app, F1. cbn.
    now rewrite String.eqb_refl.
Qed.

Lemma deleteAndCheck_cases (name : string) (h : History) :
  (exists fields msg,
     deleteAndCheck w name h
     = (Exited 1, h ++ [IndicesDelete name; Log Fatal fields msg]))
  \/ deleteAndCheck w name h = (Done tt, h ++ [IndicesDelete name]).
Proof.
  unfold deleteAndCheck, bind, es_Indices_Delete, call.
  destruct (indices_delete w h name) as [e | c]; cbn [err_of].
  - left. rewrite checkErr_err, <- app_assoc. do 2 eexists. reflexivity.
  - rewrite checkErr_nil. destruct (IsError c); cbn [when]; [left | now right].
    rewrite log_Fatal_run, <- app_assoc. do 2 eexists. reflexivity.
Qed.

Lemma order_then_bulk (name : string) (q : list Event) :
  forallb is_bulk q = true ->
  request_order name (IndicesExists name :: q) = true.
Proof.
  intros H. cbn. rewrite String.eqb_refl.
  destruct q as [|[] q]; cbn in *; auto; discriminate.
Qed.

Lemma order_then_create (name : string) (q : list Event) :
  q = [] \/ create_then_bulk name q = true ->
  request_order name (IndicesExists name :: q) = true
  /\ request_order name (IndicesExists name :: IndicesDelete name :: q)
     = true.
Proof.
  intros [-> | H]; cbn; rewrite !String.eqb_refl; [now split|].
  destruct q as [|[] q]; cbn in *; try discriminate. now rewrite H.
Qed.

(** X23.  Whatever the flags and the surroundings, the requests of a
    run of [main] come in this order: first the existence check; then a
    delete request and, if the run goes on, a create request, or a
    create request alone, or neither; and after that the bulk requests.
    Each of the first three is sent at most once, and no bulk request
    follows a delete request that is not followed by a create
    request. *)
Theorem requests_in_order (f : Flags) (fuel : nat) :
  request_order (index f) (filter is_request (snd (main w f fuel [])))
  = true.
Proof.
  destruct (main_cases f fuel)
    as [E | [E | [(Ha & l & m & E) | [(Ha & l & m & E)
        | (Ha & Hc & status & He & Hs & E)]]]].
  1-3: rewrite E; reflexivity.
  { rewrite E. cbn. now rewrite String.eqb_refl. }
  clear E. destruct Hs as [-> | ->].
  - destruct (deleteIndex f) eqn:Hd; [|destruct (addToIndex f) eqn:Hadd].
    + rewrite (main_deleting w f fuel Ha Hc He Hd).
      unfold bind at 1.
      destruct (deleteAndCheck_cases (index f) (before_delete f))
        as [(l & m & ->) | ->].
      { cbn. now rewrite String.eqb_refl. }
      match goal with
      | |- context [snd (?m ?h)] => destruct (m h) as [r h'] eqn:Er
      end.
      destruct (create_then_load_order f fuel _ _ _ Er) as (t & -> & Ht).
      cbn [snd]. rewrite !filter_app. cbn [before_delete index_checked
        deleting_line filter is_request app].
      now apply order_then_create.
    + rewrite (main_appending w f fuel Ha Hc He Hadd Hd).
      destruct (bulk_load w f fuel _) as [r h'] eqn:Er.
      destruct (bulk_load_requests f fuel _ _ _ Er) as (t & -> & Ht).
      cbn [snd]. rewrite !filter_app. cbn [index_checked appending_line
        filter is_request app].
      now apply order_then_bulk.
    + rewrite (main_index_checked w f fuel 200 Ha Hc He (or_introl eq_refl)).
      change (200 =? 200) with true. unfold lifecycle at 1.
      rewrite Hadd, Hd. cbn. now rewrite String.eqb_refl.
  - rewrite (main_absent f fuel Ha Hc He).
    match goal with
    | |- context [snd (?m ?h)] => destruct (m h) as [r h'] eqn:Er
    end.
    destruct (create_then_load_order f fuel _ _ _ Er) as (t & -> & Ht).
    cbn [snd]. rewrite !filter_app.
    assert (filter is_request (lifecycle_trace f false) = []) as ->.
    { unfold lifecycle_trace. now destruct (deleteIndex f), (addToIndex f). }
    cbn [index_checked filter is_request app].
    now apply order_then_create.
Qed.

End EveryRun.

(** ** The JSON codec *)

Module JSONFacts.

Import JSON.

(** *** Strings *)

Lemma length_append (a b : string) :
  String.length (a ++ b) = (String.length a + String.length b)%nat.
Proof. induction a as [|x a IH]; simpl; [reflexivity | now rewrite IH]. Qed.

Lemma no_newline_append (a b : string) :
  no_newline (a ++ b) = no_newline a && no_newline b.
Proof.
  induction a as [|x a IH]; simpl; [reflexivity|].
  now rewrite IH, andb_assoc.
Qed.

Lemma unquote_step_escape (c : ascii) (continue : string -> option (string * string))
  (r : string) :
  unquote_step continue (escape c ++ r)
  = match continue r with
    | None => None
    | Some (t, rest) => Some (String c t, rest)
    end.
Proof.
  destruct c as [[] [] [] [] [] [] [] []]; reflexivity.
Qed.

Lemma escape_length (c : ascii) : (1 <= String.length (escape c))%nat.
Proof.
  destruct c as [[] [] [] [] [] [] [] []]; vm_compute; repeat constructor.
Qed.

Lemma escape_no_newline (c : ascii) : no_newline (escape c) = true.
Proof.
  destruct c as [[] [] [] [] [] [] [] []]; reflexivity.
Qed.

Lemma quote_body_length (s : string) :
  (String.length s <= String.length (quote_body s))%nat.
Proof.
  induction s as [|c s IH]; simpl; [lia|].
  rewrite length_append. pose proof (escape_length c). lia.
Qed.

Lemma quote_body_no_newline (s : string) : no_newline (quote_body s) = true.
Proof.
  induction s as [|c s IH]; simpl; [reflexivity|].
  now rewrite no_newline_append, escape_no_newline, IH.
Qed.

Lemma quote_no_newline (s : string) : no_newline (quote s) = true.
Proof.
  unfold quote.
  change (no_newline (String DQUOTE (quote_body s ++ String DQUOTE EmptyString))
          = true).
  cbn [no_newline]. rewrite no_newline_append, quote_body_no_newline.
  reflexivity.
Qed.

Lemma unquote_quote_body (s rest : string) (fuel : nat) :
  (String.length s < fuel)%nat ->
  unquote fuel (quote_body s ++ String DQUOTE rest) = Some (s, rest).
Proof.
  revert fuel. induction s as [|c s IH]; intros [|fuel] H; try (simpl in H; lia).
  - reflexivity.
  - cbn [quote_body unquote]. rewrite append_assoc, unquote_step_escape.
    rewrite IH by (simpl in H; lia). reflexivity.
Qed.

Lemma unquote_quote (s rest : string) :
  let r := (quote_body s ++ String DQUOTE rest)%string in
  unquote (S (String.length r)) r = Some (s, rest).
Proof.
  cbv zeta. apply unquote_quote_body. rewrite length_append.
  pose proof (quote_body_length s). simpl. lia.
Qed.

End JSONFacts.

Module JSONNumbers.

Import JSON.

(** *** Numbers *)

Lemma head_is_append (p : ascii -> bool) (a b : string) :
  head_is p (a ++ b) = match a with
                       | EmptyString => head_is p b
                       | String c _ => p c
                       end.
Proof. now destruct a. Qed.

Lemma stops_head (s : string) :
  stops s = true ->
  head_is is_digit s = false /\ head_is is_minus s = false
  /\ head_is is_dot s = false /\ head_is is_e s = false
  /\ head_is is_sign s = false.
Proof.
  unfold stops. destruct s as [|c s]; simpl; [easy|].
  unfold in_number, is_sign, is_minus.
  destruct (is_digit c), (code c =? 43)%N, (code c =? 45)%N, (is_dot c),
    (is_e c); simpl; intros; try discriminate; easy.
Qed.

Lemma digit_not_other (c : ascii) :
  is_digit c = true ->
  is_minus c = false /\ is_dot c = false /\ is_e c = false
  /\ is_sign c = false /\ (code c =? 34)%N = false.
Proof.
  unfold is_digit, is_minus, is_dot, is_e, is_sign.
  rewrite andb_true_iff, !N.leb_le. intros [H1 H2].
  repeat split; rewrite ?orb_false_iff; repeat split; apply N.eqb_neq; lia.
Qed.

Lemma digits_rescan (s ds r : string) :
  digits s = (ds, r) ->
  forall t, head_is is_digit t = false -> digits (ds ++ t) = (ds, t).
Proof.
  revert ds r. induction s as [|c s IH]; simpl; intros ds r E t Ht.
  - injection E as <- <-. simpl. destruct t as [|d t]; [reflexivity|].
    simpl in Ht. simpl. now rewrite Ht.
  - destruct (is_digit c) eqn:Ec.
    + destruct (digits s) as [ds' r'] eqn:E'. injection E as <- <-.
      simpl. rewrite Ec. now rewrite (IH _ _ eq_refl t Ht).
    + injection E as <- <-. simpl. destruct t as [|d t]; [reflexivity|].
      simpl in Ht. simpl. now rewrite Ht.
Qed.

Lemma digits_split (s ds r : string) :
  digits s = (ds, r) -> s = (ds ++ r)%string.
Proof.
  revert ds r. induction s as [|c s IH]; simpl; intros ds r E.
  - now injection E as <- <-.
  - destruct (is_digit c).
    + destruct (digits s) as [ds' r'] eqn:E'. injection E as <- <-.
      simpl. now rewrite (IH _ _ eq_refl).
    + now injection E as <- <-.
Qed.

Lemma digits_head (s ds r : string) :
  digits s = (ds, r) -> ds <> EmptyString -> head_is is_digit ds = true.
Proof.
  destruct s as [|c s]; simpl.
  - now intros [= <- <-].
  - destruct (is_digit c) eqn:Ec.
    + destruct (digits s). now intros [= <- <-].
    + now intros [= <- <-].
Qed.

Lemma scan_sign_rescan (s sg s1 : string) :
  scan_sign s = (sg, s1) ->
  s = (sg ++ s1)%string
  /\ forall t, head_is is_minus t = false -> scan_sign (sg ++ t) = (sg, t).
Proof.
  unfold scan_sign. destruct s as [|c s].
  - intros [= <- <-]. split; [reflexivity|]. intros [|d t] Ht; [reflexivity|].
    simpl in *. unfold is_minus in Ht. now rewrite Ht.
  - destruct (code c =? 45)%N eqn:Ec; intros [= <- <-].
    + split; [reflexivity|]. intros t _. simpl. now rewrite Ec.
    + split; [reflexivity|]. intros [|d t] Ht; [reflexivity|].
      simpl in *. unfold is_minus in Ht. now rewrite Ht.
Qed.

Lemma scan_int_rescan (s ip r : string) :
  scan_int s = Some (ip, r) ->
  s = (ip ++ r)%string
  /\ head_is is_digit ip = true
  /\ forall t, head_is is_digit t = false -> scan_int (ip ++ t) = Some (ip, t).
Proof.
  unfold scan_int. destruct s as [|c s]; [discriminate|].
  destruct (code c =? 48)%N eqn:E0.
  - intros [= <- <-]. split; [reflexivity|]. split.
    + simpl. unfold is_digit. apply N.eqb_eq in E0. rewrite E0. reflexivity.
    + intros t _. simpl. now rewrite E0.
  - destruct (is_digit c) eqn:Ec; [|discriminate].
    destruct (digits s) as [ds r'] eqn:Ed. intros [= <- <-].
    split; [simpl; now rewrite (digits_split _ _ _ Ed)|].
    split; [assumption|].
    intros t Ht. simpl. rewrite E0, Ec.
    now rewrite (digits_rescan _ _ _ Ed t Ht).
Qed.

Lemma scan_frac_rescan (s fp r : string) :
  scan_frac s = Some (fp, r) ->
  s = (fp ++ r)%string
  /\ head_is is_digit fp = false
  /\ (forall t, head_is is_digit t = false -> head_is is_dot t = false ->
      scan_frac (fp ++ t) = Some (fp, t)).
Proof.
  unfold scan_frac. destruct s as [|c s].
  - intros [= <- <-]. split; [reflexivity|]. split; [reflexivity|].
    intros [|d t] _ Ht; [reflexivity|]. simpl in *. unfold is_dot in Ht.
    now rewrite Ht.
  - destruct (code c =? 46)%N eqn:Ec.
    + destruct (digits s) as [ds r'] eqn:Ed.
      destruct ds as [|d ds]; [discriminate|]. intros [= <- <-].
      split; [simpl; now rewrite (digits_split _ _ _ Ed)|].
      split.
      { simpl. destruct (is_digit c) eqn:Edc; [|reflexivity].
        apply digit_not_other in Edc as (_ & Hdot & _).
        unfold is_dot in Hdot. congruence. }
      intros t Ht _.
      change (String c (String d ds) ++ t)%string
        with (String c (String d ds ++ t)).
      cbv beta iota. rewrite Ec.
      now rewrite (digits_rescan _ _ _ Ed t Ht).
    + intros [= <- <-]. split; [reflexivity|]. split; [reflexivity|].
      intros [|d t] _ Ht; [reflexivity|]. simpl in *. unfold is_dot in Ht.
      now rewrite Ht.
Qed.

Lemma scan_exp_rescan (s ep r : string) :
  scan_exp s = Some (ep, r) ->
  s = (ep ++ r)%string
  /\ head_is is_digit ep = false
  /\ head_is is_dot ep = false
  /\ (forall t, head_is is_digit t = false -> head_is is_e t = false ->
      scan_exp (ep ++ t) = Some (ep, t)).
Proof.
  unfold scan_exp. destruct s as [|c s].
  - intros [= <- <-]. repeat split.
    intros [|d t] _ Ht; [reflexivity|]. simpl in *. unfold is_e in Ht.
    now rewrite Ht.
  - destruct ((code c =? 101)%N || (code c =? 69)%N) eqn:Ec.
    + assert (Hc : is_digit c = false /\ is_dot c = false).
      { unfold is_digit, is_dot. apply orb_true_iff in Ec.
        rewrite !N.eqb_eq in Ec. destruct Ec as [-> | ->]; easy. }
      destruct s as [|d s'].
      { simpl. discriminate. }
      destruct ((code d =? 43)%N || (code d =? 45)%N) eqn:Esg.
      * destruct (digits s') as [ds r'] eqn:Ed.
        destruct ds as [|x ds]; [discriminate|]. intros [= <- <-].
        split; [simpl; now rewrite (digits_split _ _ _ Ed)|].
        split; [apply Hc|]. split; [apply Hc|].
        intros t Ht _.
        change (String c (String d (String x ds)) ++ t)%string
          with (String c (String d (String x ds ++ t))).
        cbv beta iota. rewrite Ec, Esg.
        now rewrite (digits_rescan _ _ _ Ed t Ht).
      * destruct (digits (String d s')) as [ds r'] eqn:Ed.
        destruct ds as [|x ds]; [discriminate|]. intros [= <- <-].
        split; [simpl; f_equal; exact (digits_split _ _ _ Ed)|].
        split; [apply Hc|]. split; [apply Hc|].
        intros t Ht _.
        assert (Hx : is_digit x = true).
        { apply (digits_head _ _ _ Ed). discriminate. }
        apply digit_not_other in Hx as (_ & _ & _ & Hs & _).
        unfold is_sign in Hs.
        change (String c (String x ds) ++ t)%string
          with (String c (String x (ds ++ t))).
        cbv beta iota. rewrite Ec, Hs.
        change (String x (ds ++ t)) with (String x ds ++ t)%string.
        now rewrite (digits_rescan _ _ _ Ed t Ht).
    + intros [= <- <-]. repeat split.
      intros [|d t] _ Ht; [reflexivity|]. simpl in *. unfold is_e in Ht.
      now rewrite Ht.
Qed.

Lemma head_is_append_false (p : ascii -> bool) (a b : string) :
  head_is p a = false -> head_is p b = false -> head_is p (a ++ b) = false.
Proof. destruct a; simpl; auto. Qed.

(** A scanned literal is scanned again as itself in front of whatever
    stops a number. *)
Lemma scan_number_rescan (s l r : string) :
  scan_number s = Some (l, r) ->
  s = (l ++ r)%string
  /\ (head_is is_digit l = true \/ head_is is_minus l = true)
  /\ forall t, stops t = true -> scan_number (l ++ t) = Some (l, t).
Proof.
  unfold scan_number.
  destruct (scan_sign s) as [sg s1] eqn:Esg.
  destruct (scan_int s1) as [[ip s2]|] eqn:Eip; [|discriminate].
  destruct (scan_frac s2) as [[fp s3]|] eqn:Efp; [|discriminate].
  destruct (scan_exp s3) as [[ep s4]|] eqn:Eep; [|discriminate].
  intros [= <- <-].
  destruct (scan_sign_rescan _ _ _ Esg) as (S1 & R1).
  destruct (scan_int_rescan _ _ _ Eip) as (S2 & H2 & R2).
  destruct (scan_frac_rescan _ _ _ Efp) as (S3 & H3 & R3).
  destruct (scan_exp_rescan _ _ _ Eep) as (S4 & H4 & H4' & R4).
  split; [|split].
  - rewrite S1, S2, S3, S4. now rewrite !append_assoc.
  - rewrite head_is_append. destruct sg as [|c sg].
    + left. rewrite head_is_append. destruct ip; [discriminate | assumption].
    + right. unfold scan_sign in Esg. destruct s as [|c0 s]; [discriminate|].
      destruct (code c0 =? 45)%N eqn:Ec; [|discriminate].
      injection Esg as <- _ _. exact Ec.
  - intros t Ht. apply stops_head in Ht as (Td & Tm & Tdot & Te & _).
    rewrite !append_assoc.
    rewrite R1.
    2:{ rewrite head_is_append. destruct ip as [|c ip]; [discriminate|].
        simpl in H2. now apply digit_not_other in H2. }
    rewrite R2 by (repeat apply head_is_append_false; assumption).
    rewrite R3 by (repeat apply head_is_append_false; assumption).
    rewrite R4 by assumption. reflexivity.
Qed.

Lemma is_number_spec (l : string) :
  is_number l = true <-> scan_number l = Some (l, EmptyString).
Proof.
  unfold is_number. destruct (scan_number l) as [[l' r]|]; [|easy].
  destruct r; [|easy]. destruct (String.eqb_spec l' l); split; congruence.
Qed.

Lemma scanned_is_number (s l r : string) :
  scan_number s = Some (l, r) -> is_number l = true.
Proof.
  intros H. apply is_number_spec.
  destruct (scan_number_rescan _ _ _ H) as (_ & _ & R).
  rewrite <- (append_nil_r l) at 1. now apply R.
Qed.

Lemma number_then (l t : string) :
  is_number l = true -> stops t = true ->
  scan_number (l ++ t) = Some (l, t).
Proof.
  intros H Ht. apply is_number_spec in H.
  destruct (scan_number_rescan _ _ _ H) as (_ & _ & R). now apply R.
Qed.

Lemma number_head (l : string) :
  is_number l = true ->
  head_is is_digit l = true \/ head_is is_minus l = true.
Proof.
  intros H. apply is_number_spec in H.
  now destruct (scan_number_rescan _ _ _ H) as (_ & ? & _).
Qed.

Lemma all_in_number_append (a b : string) :
  all_in_number (a ++ b) = all_in_number a && all_in_number b.
Proof.
  induction a as [|x a IH]; simpl; [reflexivity|].
  now rewrite IH, andb_assoc.
Qed.

Lemma digits_all (s ds r : string) :
  digits s = (ds, r) -> all_in_number ds = true.
Proof.
  revert ds r. induction s as [|c s IH]; simpl; intros ds r E.
  - now injection E as <- <-.
  - destruct (is_digit c) eqn:Ec.
    + destruct (digits s) as [ds' r'] eqn:E'. injection E as <- <-.
      simpl. unfold in_number. rewrite Ec. simpl. now apply (IH _ _ eq_refl).
    + now injection E as <- <-.
Qed.

Lemma scan_number_all (s l r : string) :
  scan_number s = Some (l, r) -> all_in_number l = true.
Proof.
  unfold scan_number.
  destruct (scan_sign s) as [sg s1] eqn:Esg.
  destruct (scan_int s1) as [[ip s2]|] eqn:Eip; [|discriminate].
  destruct (scan_frac s2) as [[fp s3]|] eqn:Efp; [|discriminate].
  destruct (scan_exp s3) as [[ep s4]|] eqn:Eep; [|discriminate].
  intros [= <- <-]. rewrite !all_in_number_append.
  assert (Hsg : all_in_number sg = true).
  { unfold scan_sign in Esg. destruct s as [|c s]; [now injection Esg as <- _|].
    destruct (code c =? 45)%N eqn:Ec; injection Esg as <- _; [|reflexivity].
    simpl. unfold in_number, is_sign. rewrite Ec. now rewrite !orb_true_r. }
  assert (Hip : all_in_number ip = true).
  { unfold scan_int in Eip. destruct s1 as [|c s1']; [discriminate|].
    destruct (code c =? 48)%N eqn:Ec.
    - injection Eip as <- _. simpl. unfold in_number, is_digit.
      apply N.eqb_eq in Ec. now rewrite Ec.
    - destruct (is_digit c) eqn:Ed; [|discriminate].
      destruct (digits s1') as [ds r'] eqn:E'. injection Eip as <- _.
      simpl. unfold in_number. rewrite Ed. simpl. now apply (digits_all _ _ _ E'). }
  assert (Hfp : all_in_number fp = true).
  { unfold scan_frac in Efp. destruct s2 as [|c s2']; [now injection Efp as <- _|].
    destruct (code c =? 46)%N eqn:Ec; [|now injection Efp as <- _].
    destruct (digits s2') as [ds r'] eqn:E'.
    destruct ds as [|d ds]; [discriminate|]. injection Efp as <- _.
    change (in_number c && all_in_number (String d ds) = true).
    rewrite (digits_all _ _ _ E'). unfold in_number, is_dot. rewrite Ec.
    now rewrite !orb_true_r. }
  assert (Hep : all_in_number ep = true).
  { unfold scan_exp in Eep. destruct s3 as [|c s3']; [now injection Eep as <- _|].
    destruct ((code c =? 101)%N || (code c =? 69)%N) eqn:Ec;
      [|now injection Eep as <- _].
    assert (Hc : in_number c = true).
    { unfold in_number, is_e. rewrite Ec. now rewrite !orb_true_r. }
    destruct s3' as [|d s3'']; [discriminate|].
    destruct ((code d =? 43)%N || (code d =? 45)%N) eqn:Ed.
    - destruct (digits s3'') as [ds r'] eqn:E'.
      destruct ds as [|x ds]; [discriminate|]. injection Eep as <- _.
      change (in_number c && (in_number d && all_in_number (String x ds)) = true).
      rewrite Hc, (digits_all _ _ _ E'). unfold in_number, is_sign.
      rewrite Ed. now rewrite !orb_true_r.
    - destruct (digits (String d s3'')) as [ds r'] eqn:E'.
      destruct ds as [|x ds]; [discriminate|]. injection Eep as <- _.
      change (in_number c && all_in_number (String x ds) = true).
      now rewrite Hc, (digits_all _ _ _ E'). }
  now rewrite Hsg, Hip, Hfp, Hep.
Qed.

Lemma in_number_not_newline (c : ascii) :
  in_number c = true -> is_newline c = false.
Proof.
  destruct c as [[] [] [] [] [] [] [] []]; vm_compute; congruence.
Qed.

Lemma number_no_newline (l : string) :
  is_number l = true -> no_newline l = true.
Proof.
  intros H. apply is_number_spec, scan_number_all in H.
  induction l as [|c l IH]; [reflexivity|]. simpl in *.
  apply andb_true_iff in H as [Hc Hl].
  now rewrite (in_number_not_newline c Hc), IH.
Qed.

End JSONNumbers.

Module JSONValues.

Import JSON JSONFacts JSONNumbers.

(** *** Induction on values *)

Section ValueInd.

Variable P : value -> Prop.
Hypothesis HNull : P Null.
Hypothesis HBool : forall b, P (Bool b).
Hypothesis HNumber : forall l, P (Number l).
Hypothesis HStr : forall s, P (Str s).
Hypothesis HArr : forall l, Forall P l -> P (Arr l).
Hypothesis HObj : forall m, Forall (fun kv => P (snd kv)) m -> P (Obj m).

Lemma value_induction (v : value) : P v.
Proof.
  revert v. fix IH 1. intros [| b | l | s | l | m].
  - exact HNull.
  - exact (HBool b).
  - exact (HNumber l).
  - exact (HStr s).
  - apply HArr. revert l. fix IHl 1. intros [|x l].
    + constructor.
    + constructor; [apply IH | apply IHl].
  - apply HObj. revert m. fix IHm 1. intros [|[k x] m].
    + constructor.
    + constructor; [apply IH | apply IHm].
Qed.

End ValueInd.

Lemma value_start_facts (c : ascii) :
  value_start c = true ->
  is_ws c = false /\ (code c =? 93)%N = false /\ (code c =? 125)%N = false.
Proof.
  destruct c as [[] [] [] [] [] [] [] []]; vm_compute; intros;
    repeat split; congruence.
Qed.

Lemma number_start_facts (c : ascii) :
  is_digit c || is_minus c = true ->
  is_ws c = false
  /\ (code c =? 110)%N = false /\ (code c =? 116)%N = false
  /\ (code c =? 102)%N = false /\ (code c =? 34)%N = false
  /\ (code c =? 91)%N = false /\ (code c =? 123)%N = false.
Proof.
  destruct c as [[] [] [] [] [] [] [] []]; vm_compute; intros;
    repeat split; congruence.
Qed.

Lemma delimiter_stops (c : ascii) (r : string) :
  (code c =? 44)%N || (code c =? 93)%N || (code c =? 125)%N = true ->
  stops (String c r) = true.
Proof.
  unfold stops. simpl.
  destruct c as [[] [] [] [] [] [] [] []]; vm_compute; congruence.
Qed.

Lemma skip_ws_head (p : ascii -> bool) (s : string) :
  (forall c, p c = true -> is_ws c = false) ->
  head_is p s = true -> skip_ws s = s.
Proof.
  intros Hp. destruct s as [|c s]; simpl; [discriminate|].
  intros H. now rewrite (Hp c H).
Qed.

Lemma encode_head (v : value) :
  wf v = true -> head_is value_start (encode v) = true.
Proof.
  destruct v as [| [] | l | s | l | m]; try reflexivity.
  simpl. intros H. destruct (number_head l H) as [Hd | Hm];
    destruct l as [|c l]; try discriminate; simpl in *;
    unfold value_start; rewrite ?Hd, ?Hm; now rewrite ?orb_true_r.
Qed.

(** *** Reading back what was written *)

Lemma parse_value_null (fuel : nat) (rest : string) :
  parse_value (S fuel) ("null" ++ rest) = Some (Null, rest).
Proof. reflexivity. Qed.

Lemma parse_value_true (fuel : nat) (rest : string) :
  parse_value (S fuel) ("true" ++ rest) = Some (Bool true, rest).
Proof. reflexivity. Qed.

Lemma parse_value_false (fuel : nat) (rest : string) :
  parse_value (S fuel) ("false" ++ rest) = Some (Bool false, rest).
Proof. reflexivity. Qed.

Lemma quote_append (s rest : string) :
  (quote s ++ rest)%string = String DQUOTE (quote_body s ++ String DQUOTE rest).
Proof.
  unfold quote. cbn [append]. now rewrite append_assoc.
Qed.

Lemma parse_value_string (fuel : nat) (s rest : string) :
  parse_value (S fuel) (quote s ++ rest) = Some (Str s, rest).
Proof.
  rewrite quote_append.
  cbn [parse_value skip_ws]. change (is_ws DQUOTE) with false. cbv iota.
  change (code DQUOTE) with 34%N. cbn [N.eqb Pos.eqb]. cbv iota.
  now rewrite unquote_quote.
Qed.

Lemma parse_value_number (fuel : nat) (l rest : string) :
  is_number l = true -> stops rest = true ->
  parse_value (S fuel) (l ++ rest) = Some (Number l, rest).
Proof.
  intros Hl Hr. pose proof (number_then l rest Hl Hr) as E.
  assert (Hh : head_is (fun c => is_digit c || is_minus c) l = true).
  { destruct (number_head l Hl) as [H | H]; destruct l; try discriminate;
      simpl in *; rewrite H; now rewrite ?orb_true_r. }
  destruct l as [|c l]; [discriminate|]. simpl in Hh.
  destruct (number_start_facts c Hh) as (W & A & B & C & D & F & G).
  change (String c l ++ rest)%string with (String c (l ++ rest)) in *.
  cbn [parse_value skip_ws]. rewrite W. cbv zeta. rewrite A, B, C, D, F, G.
  now rewrite E.
Qed.

Lemma parse_value_array_nil (fuel : nat) (rest : string) :
  parse_value (S fuel) ("[]" ++ rest) = Some (Arr [], rest).
Proof. reflexivity. Qed.

Lemma parse_value_object_nil (fuel : nat) (rest : string) :
  parse_value (S fuel) ("{}" ++ rest) = Some (Obj [], rest).
Proof. reflexivity. Qed.

Lemma parse_value_array (fuel : nat) (r : string) :
  head_is value_start r = true ->
  parse_value (S fuel) ("[" ++ r)
  = match parse_elems fuel r with
    | Some (l, r'') => Some (Arr l, r'')
    | None => None
    end.
Proof.
  intros H. destruct r as [|d r']; [discriminate|]. simpl in H.
  destruct (value_start_facts d H) as (W & B & _).
  change ("[" ++ String d r')%string with (String "[" (String d r')).
  cbn [parse_value skip_ws]. rewrite W. change (is_ws "[") with false.
  cbv iota zeta. change (code "[") with 91%N. cbn [N.eqb Pos.eqb]. cbv iota.
  cbn [skip_ws]. now rewrite W, B.
Qed.

Lemma parse_value_object (fuel : nat) (r : string) :
  parse_value (S fuel) ("{" ++ String DQUOTE r)
  = match parse_members fuel (String DQUOTE r) with
    | Some (m, r'') => Some (Obj m, r'')
    | None => None
    end.
Proof. reflexivity. Qed.

Lemma parse_elems_last (fuel : nat) (s : string) (v : value) (rest : string) :
  parse_value fuel s = Some (v, ("]" ++ rest)%string) ->
  parse_elems (S fuel) s = Some ([v], rest).
Proof. cbn [parse_elems]. intros ->. reflexivity. Qed.

Lemma parse_elems_more (fuel : nat) (s : string) (v : value) (r : string) :
  parse_value fuel s = Some (v, ("," ++ r)%string) ->
  parse_elems (S fuel) s
  = match parse_elems fuel r with
    | Some (l, r'') => Some (v :: l, r'')
    | None => None
    end.
Proof. cbn [parse_elems]. intros ->. reflexivity. Qed.

Lemma parse_members_last (fuel : nat) (k s : string) (v : value)
  (rest : string) :
  parse_value fuel s = Some (v, ("}" ++ rest)%string) ->
  parse_members (S fuel) (quote k ++ ":" ++ s) = Some ([(k, v)], rest).
Proof.
  intros E. rewrite quote_append.
  cbn [parse_members skip_ws]. change (is_ws DQUOTE) with false. cbv iota.
  change (code DQUOTE) with 34%N. cbn [N.eqb Pos.eqb]. cbv iota.
  rewrite unquote_quote.
  change (":" ++ s)%string with (String ":" s). cbn [skip_ws].
  change (is_ws ":") with false. cbv iota. change (code ":") with 58%N.
  cbn [N.eqb Pos.eqb]. cbv iota. rewrite E. reflexivity.
Qed.

Lemma parse_members_more (fuel : nat) (k s : string) (v : value)
  (r : string) :
  parse_value fuel s = Some (v, ("," ++ r)%string) ->
  parse_members (S fuel) (quote k ++ ":" ++ s)
  = match parse_members fuel r with
    | Some (m, r'') => Some (add_member k v m, r'')
    | None => None
    end.
Proof.
  intros E. rewrite quote_append.
  cbn [parse_members skip_ws]. change (is_ws DQUOTE) with false. cbv iota.
  change (code DQUOTE) with 34%N. cbn [N.eqb Pos.eqb]. cbv iota.
  rewrite unquote_quote.
  change (":" ++ s)%string with (String ":" s). cbn [skip_ws].
  change (is_ws ":") with false. cbv iota. change (code ":") with 58%N.
  cbn [N.eqb Pos.eqb]. cbv iota. rewrite E. reflexivity.
Qed.

Lemma join_cons (a b : string) (l : list string) :
  join (a :: b :: l) = (a ++ "," ++ join (b :: l))%string.
Proof. reflexivity. Qed.

Lemma parse_elems_encode (l : list value) :
  l <> [] -> Forall reads_back l -> forallb wf l = true ->
  forall fuel rest, (sum_sizes size l <= fuel)%nat ->
    parse_elems fuel (join (map encode l) ++ "]" ++ rest) = Some (l, rest).
Proof.
  intros Hne F. induction F as [|x l Hx F IH]; [contradiction|].
  intros Hwf fuel rest Hfuel. cbn [forallb] in Hwf.
  apply andb_true_iff in Hwf as [Hwx Hwl].
  cbn [sum_sizes] in Hfuel. destruct fuel as [|fuel]; [lia|].
  destruct l as [|y l].
  - cbn [map join]. apply parse_elems_last. apply Hx; [assumption | | reflexivity].
    cbn [sum_sizes] in Hfuel. lia.
  - cbn [map]. rewrite join_cons, !append_assoc.
    rewrite (parse_elems_more fuel _ x
               (join (encode y :: map encode l) ++ "]" ++ rest)).
    + change (map encode (y :: l)) with (encode y :: map encode l) in IH.
      rewrite IH; [reflexivity | discriminate | assumption |].
      fold (sum_sizes size (y :: l)) in Hfuel. lia.
    + apply Hx; [assumption | | reflexivity].
      fold (sum_sizes size (y :: l)) in Hfuel. lia.
Qed.

Lemma add_member_front (k : string) (v : value) (m : list (string * value)) :
  keys_sorted ((k, v) :: m) = true -> add_member k v m = (k, v) :: m.
Proof.
  destruct m as [|[k' v'] m]; [reflexivity|]. cbn [keys_sorted add_member].
  intros H. apply andb_true_iff in H as [H _]. unfold String.ltb in H.
  now destruct (String.compare k k').
Qed.

Lemma keys_sorted_tail (kv : string * value) (m : list (string * value)) :
  keys_sorted (kv :: m) = true -> keys_sorted m = true.
Proof.
  destruct kv as [k v]. destruct m as [|[k' v'] m]; [reflexivity|].
  cbn [keys_sorted]. intros H. now apply andb_true_iff in H as [_ H].
Qed.

Lemma parse_members_encode (m : list (string * value)) :
  m <> [] -> Forall (fun kv => reads_back (snd kv)) m ->
  keys_sorted m = true ->
  forallb (fun kv => let '(_, x) := kv in wf x) m = true ->
  forall fuel rest,
    (sum_sizes (fun kv => let '(_, x) := kv in size x) m <= fuel)%nat ->
    parse_members fuel (join (map encode_member m) ++ "}" ++ rest)
    = Some (m, rest).
Proof.
  intros Hne F. induction F as [|[k x] m Hx F IH]; [contradiction|].
  intros Hs Hwf fuel rest Hfuel. cbn [forallb] in Hwf.
  apply andb_true_iff in Hwf as [Hwx Hwl]. simpl in Hx.
  cbn [sum_sizes] in Hfuel. destruct fuel as [|fuel]; [lia|].
  destruct m as [|kv m].
  - cbn [map join encode_member]. rewrite !append_assoc.
    apply parse_members_last. apply Hx; [assumption | | reflexivity].
    cbn [sum_sizes] in Hfuel. lia.
  - cbn [map]. rewrite join_cons. cbn [encode_member]. rewrite !append_assoc.
    rewrite (parse_members_more fuel k _ x
               (join (encode_member kv :: map encode_member m) ++ "}" ++ rest)).
    + change (map encode_member (kv :: m))
        with (encode_member kv :: map encode_member m) in IH.
      rewrite IH; [| discriminate | now apply keys_sorted_tail in Hs
                   | assumption |].
      * now rewrite add_member_front.
      * match type of Hfuel with
        | (S (_ + ?n) <= _)%nat => assert (n <= fuel)%nat by lia
        end. assumption.
    + apply Hx; [assumption | | reflexivity]. lia.
Qed.

Theorem parse_encode (v : value) : reads_back v.
Proof.
  induction v as [| [] | l | s | l IH | m IH] using value_induction;
    intros Hwf fuel rest Hfuel Hrest; (destruct fuel as [|fuel]; [simpl in Hfuel; lia|]).
  - apply parse_value_null.
  - apply parse_value_true.
  - apply parse_value_false.
  - now apply parse_value_number.
  - apply parse_value_string.
  - cbn [encode]. rewrite !append_assoc. destruct l as [|x l].
    + apply parse_value_array_nil.
    + rewrite parse_value_array.
      * rewrite parse_elems_encode; [reflexivity | discriminate | assumption
                                     | assumption |].
        cbn [size] in Hfuel. lia.
      * rewrite head_is_append.
        assert (Hx : wf x = true).
        { cbn [wf forallb] in Hwf. now apply andb_true_iff in Hwf. }
        pose proof (encode_head x Hx) as Hh.
        destruct l as [|y l]; cbn [map join].
        -- destruct (encode x); [discriminate | assumption].
        -- rewrite head_is_append.
           destruct (encode x); [discriminate | assumption].
  - cbn [encode]. rewrite !append_assoc. cbn [wf] in Hwf.
    apply andb_true_iff in Hwf as [Hs Hw]. destruct m as [|[k x] m].
    + apply parse_value_object_nil.
    + change (fun kv : string * value =>
                let '(k0, x0) := kv in (quote k0 ++ ":" ++ encode x0)%string)
        with encode_member.
      assert (Hq : exists r,
                 (join (map encode_member ((k, x) :: m)) ++ "}" ++ rest)%string
                 = String DQUOTE r).
      { destruct m as [|kv m]; cbn [map join encode_member];
          rewrite !append_assoc, quote_append; eexists; reflexivity. }
      destruct Hq as (r & Er).
      pose proof (parse_members_encode ((k, x) :: m) ltac:(discriminate)
                    IH Hs Hw fuel rest) as E.
      rewrite Er in *. rewrite parse_value_object, E; [reflexivity|].
      cbn [size] in Hfuel. lia.
Qed.

End JSONValues.

Module JSONLaws.

Import JSON JSONFacts JSONNumbers JSONValues.

(** *** A whole text *)

Lemma sum_sizes_le_join (l : list value) :
  Forall (fun x => (size x <= String.length (encode x))%nat) l ->
  (sum_sizes size l <= S (String.length (join (map encode l))))%nat.
Proof.
  induction 1 as [|x l Hx F IH]; [simpl; lia|].
  destruct l as [|y l].
  - cbn [sum_sizes map join]. lia.
  - cbn [map]. rewrite join_cons, !length_append.
    change (sum_sizes size (x :: y :: l))
      with (S (size x + sum_sizes size (y :: l))).
    cbn [map] in IH. simpl String.length at 2. lia.
Qed.

Lemma sum_sizes_le_join_members (m : list (string * value)) :
  Forall (fun kv => (size (snd kv) <= String.length (encode (snd kv)))%nat) m ->
  (sum_sizes (fun kv => let '(_, x) := kv in size x) m
   <= S (String.length (join (map encode_member m))))%nat.
Proof.
  induction 1 as [|[k x] m Hx F IH]; [simpl; lia|]. simpl in Hx.
  destruct m as [|kv m].
  - cbn [sum_sizes map join encode_member]. rewrite !length_append.
    change (String.length ":") with 1%nat. lia.
  - cbn [map]. rewrite join_cons. cbn [encode_member].
    rewrite !length_append.
    change (sum_sizes (fun kv0 => let '(_, x0) := kv0 in size x0)
              ((k, x) :: kv :: m))
      with (S (size x + sum_sizes (fun kv0 => let '(_, x0) := kv0 in size x0)
                          (kv :: m))).
    cbn [map] in IH. change (String.length ":") with 1%nat.
    change (String.length ",") with 1%nat. lia.
Qed.

Lemma size_le_length (v : value) :
  wf v = true -> (size v <= String.length (encode v))%nat.
Proof.
  induction v as [| [] | l | s | l IH | m IH] using value_induction;
    intros Hwf; try (simpl; lia).
  - simpl in *. destruct (number_head l Hwf); destruct l; try discriminate;
      simpl; lia.
  - cbn [wf] in Hwf. cbn [size encode]. rewrite !length_append.
    assert (F : Forall (fun x => (size x <= String.length (encode x))%nat) l).
    { rewrite forallb_forall in Hwf. rewrite Forall_forall in *.
      intros x Hx. apply IH; auto. }
    pose proof (sum_sizes_le_join l F). simpl String.length. lia.
  - cbn [wf] in Hwf. apply andb_true_iff in Hwf as [_ Hwf].
    cbn [size encode]. rewrite !length_append.
    change (fun kv : string * value =>
              let '(k0, x0) := kv in (quote k0 ++ ":" ++ encode x0)%string)
      with encode_member.
    assert (F : Forall (fun kv => (size (snd kv)
                                   <= String.length (encode (snd kv)))%nat) m).
    { rewrite forallb_forall in Hwf. rewrite Forall_forall in *.
      intros [k x] Hx. apply IH; auto. apply (Hwf _ Hx). }
    pose proof (sum_sizes_le_join_members m F). simpl String.length. lia.
Qed.

(** Reading a written value gives the value. *)
Theorem parse_encode_text (v : value) :
  wf v = true -> parse (encode v) = Some v.
Proof.
  intros Hwf. unfold parse.
  pose proof (parse_encode v Hwf (S (String.length (encode v))) EmptyString) as E.
  rewrite append_nil_r in E. rewrite E; [reflexivity | | reflexivity].
  pose proof (size_le_length v Hwf). lia.
Qed.

(** *** What the reader produces is well formed *)

Lemma keys_sorted_cons (k : string) (v : value) (m : list (string * value)) :
  keys_sorted ((k, v) :: m) = lt_head k m && keys_sorted m.
Proof. destruct m as [|[k' v'] m]; reflexivity. Qed.

Lemma lt_head_add_member (k0 k : string) (v : value)
  (m : list (string * value)) :
  lt_head k0 m = true -> String.ltb k0 k = true ->
  lt_head k0 (add_member k v m) = true.
Proof.
  destruct m as [|[k' v'] m]; simpl; [auto|].
  intros H1 H2. destruct (String.compare k k'); simpl; auto.
Qed.

Lemma add_member_sorted (k : string) (v : value) (m : list (string * value)) :
  keys_sorted m = true -> keys_sorted (add_member k v m) = true.
Proof.
  induction m as [|[k' v'] m IH]; [reflexivity|].
  intros H. pose proof H as H0. rewrite keys_sorted_cons in H.
  apply andb_true_iff in H as [Hh Hs].
  cbn [add_member]. destruct (String.compare k k') eqn:E.
  - assumption.
  - rewrite keys_sorted_cons. cbn [lt_head]. unfold String.ltb.
    now rewrite E, H0.
  - rewrite keys_sorted_cons, (IH Hs), andb_true_r.
    apply lt_head_add_member; [assumption|]. unfold String.ltb.
    rewrite String.compare_antisym, E. reflexivity.
Qed.

Lemma add_member_wf (k : string) (v : value) (m : list (string * value)) :
  wf v = true ->
  forallb (fun kv => let '(_, x) := kv in wf x) m = true ->
  forallb (fun kv => let '(_, x) := kv in wf x) (add_member k v m) = true.
Proof.
  intros Hv. induction m as [|[k' v'] m IH]; simpl; [now rewrite Hv|].
  intros H. apply andb_true_iff in H as [H1 H2].
  destruct (String.compare k k'); simpl; rewrite ?Hv, ?H1, ?H2; auto.
Qed.

Ltac break H :=
  repeat match type of H with
    | context [match ?x with _ => _ end] =>
        match x with
        | context [match _ with _ => _ end] => fail 1
        | _ => destruct x eqn:?; try discriminate H
        end
    end.

Lemma parse_wf (fuel : nat) :
  (forall s v r, parse_value fuel s = Some (v, r) -> wf v = true)
  /\ (forall s l r, parse_elems fuel s = Some (l, r) -> forallb wf l = true)
  /\ (forall s m r, parse_members fuel s = Some (m, r) ->
        keys_sorted m = true
        /\ forallb (fun kv => let '(_, x) := kv in wf x) m = true).
Proof.
  induction fuel as [|fuel (IHv & IHe & IHm)];
    [repeat split; intros; discriminate|].
  split; [|split].
  - intros s v r H. cbn [parse_value] in H. cbv zeta in H. break H;
      injection H as <- <-; try reflexivity.
    + eapply IHe; eassumption.
    + cbn [wf]. apply andb_true_iff. eapply IHm; eassumption.
    + cbn [wf]. eapply scanned_is_number; eassumption.
  - intros s l r H. cbn [parse_elems] in H. break H; injection H as <- <-.
    + cbn [forallb]. erewrite IHv by eassumption. eapply IHe; eassumption.
    + cbn [forallb]. erewrite IHv by eassumption. reflexivity.
  - intros s m r H. cbn [parse_members] in H. break H; injection H as <- <-.
    + match goal with
      | E : parse_members fuel _ = Some _ |- _ =>
          destruct (IHm _ _ _ E) as [Hs Hw]
      end.
      split; [now apply add_member_sorted|].
      apply add_member_wf; [eapply IHv; eassumption | assumption].
    + split; [reflexivity|]. cbn [forallb].
      erewrite IHv by eassumption. reflexivity.
Qed.

Lemma parse_text_wf (s : string) (v : value) :
  parse s = Some v -> wf v = true.
Proof.
  unfold parse. destruct (parse_value _ s) as [[v' r]|] eqn:E; [|discriminate].
  destruct (skip_ws r); [|discriminate]. intros [= <-].
  eapply (proj1 (parse_wf _)); eassumption.
Qed.

(** *** The writer stays on one line *)

Lemma join_no_newline (l : list string) :
  Forall (fun s => no_newline s = true) l -> no_newline (join l) = true.
Proof.
  induction 1 as [|a l Ha F IH]; [reflexivity|].
  destruct l as [|b l]; [assumption|].
  rewrite join_cons, !no_newline_append, Ha, IH. reflexivity.
Qed.

Lemma encode_no_newline (v : value) :
  one_line v = true -> no_newline (encode v) = true.
Proof.
  induction v as [| [] | l | s | l IH | m IH] using value_induction;
    intros H; try reflexivity.
  - exact H.
  - apply quote_no_newline.
  - cbn [encode]. rewrite !no_newline_append. cbn [one_line] in H.
    rewrite join_no_newline; [reflexivity|].
    rewrite forallb_forall in H. rewrite Forall_forall in *.
    intros s Hs. apply in_map_iff in Hs as (x & <- & Hx). auto.
  - cbn [encode]. rewrite !no_newline_append. cbn [one_line] in H.
    rewrite join_no_newline; [reflexivity|].
    rewrite forallb_forall in H. rewrite Forall_forall in *.
    intros s Hs. apply in_map_iff in Hs as ([k x] & <- & Hx).
    rewrite !no_newline_append, quote_no_newline.
    specialize (IH _ Hx). specialize (H _ Hx). simpl in *.
    now rewrite IH.
Qed.

Lemma wf_one_line (v : value) : wf v = true -> one_line v = true.
Proof.
  induction v as [| [] | l | s | l IH | m IH] using value_induction;
    intros H; try reflexivity.
  - now apply number_no_newline.
  - cbn [wf one_line] in *. rewrite forallb_forall in *.
    rewrite Forall_forall in IH. auto.
  - cbn [wf one_line] in *. apply andb_true_iff in H as [_ H].
    rewrite forallb_forall in *. rewrite Forall_forall in IH.
    intros [k x] Hx. specialize (H _ Hx). specialize (IH _ Hx). auto.
Qed.

End JSONLaws.

(** *** The codec satisfies what the program relies on *)

Module JSONCodec.

Import JSON JSONFacts JSONNumbers JSONValues JSONLaws.

Lemma add_member_one_line (k : string) (v : value) (m : list (string * value)) :
  one_line v = true ->
  forallb (fun kv => let '(_, x) := kv in one_line x) m = true ->
  forallb (fun kv => let '(_, x) := kv in one_line x) (add_member k v m) = true.
Proof.
  intros Hv. induction m as [|[k' v'] m IH]; simpl; [now rewrite Hv|].
  intros H. apply andb_true_iff in H as [H1 H2].
  destruct (String.compare k k'); simpl; rewrite ?Hv, ?H1, ?H2; auto.
Qed.

Lemma of_meta_one_line (m : list (string * list (string * string))) :
  one_line (of_meta m) = true.
Proof.
  unfold of_meta. cbn [one_line].
  induction m as [|[k inner] m IH]; [reflexivity|].
  cbn [fold_right]. apply add_member_one_line; [|assumption].
  cbn [one_line snd fst]. clear.
  induction inner as [|[k' s] inner IH]; [reflexivity|].
  cbn [fold_right]. now apply add_member_one_line.
Qed.

Lemma decoded_wf (doc : value) :
  @decoded codec doc -> wf doc = true /\ is_map doc = true.
Proof.
  intros (data & Herr & Hin). cbn [Unmarshal_records codec] in *.
  destruct (parse data) as [v|] eqn:E; [|contradiction].
  apply parse_text_wf in E.
  destruct v as [| | | | elems |]; try contradiction.
  destruct (forallb is_map elems) eqn:Em; [|discriminate].
  simpl in Hin. cbn [wf] in E. rewrite forallb_forall in E, Em. auto.
Qed.

#[export] Instance codec_laws : EncodingJSONLaws codec.
Proof.
  split.
  - intros m. apply encode_no_newline, of_meta_one_line.
  - intros doc Hd. apply encode_no_newline, wf_one_line, decoded_wf, Hd.
  - intros doc Hd. apply decoded_wf in Hd as [Hwf Hmap].
    cbn [Unmarshal_doc Marshal_doc codec].
    now rewrite (parse_encode_text doc Hwf), Hmap.
Qed.

End JSONCodec.

(** * Runs on concrete inputs *)

Lemma both_auth_methods_rejected_witness :
  let f := with_auth sample_flags "elastic" "changeme" "a2V5" in
  user f <> "" /\ pass f <> "" /\ apiKey f <> ""
  /\ @main JSON.codec (cluster 404 None sample_files) f 3 []
     = (Exited 1, conflict_trace).
Proof.
  cbv zeta. repeat (split; [discriminate|]).
  apply (@both_auth_methods_rejected JSON.codec
           (cluster 404 None sample_files)
           (with_auth sample_flags "elastic" "changeme" "a2V5") 3);
    discriminate.
Defined.

Lemma missing_required_flag_rejected_witness :
  let f := default_flags "" "data.json" in
  (index f = "" \/ dataFile f = "")
  /\ exists t : History,
       @main JSON.codec (cluster 404 None sample_files) f 3 [] = (Exited 1, t)
       /\ In Usage t
       /\ forallb (fun e => negb (is_request e)) t = true.
Proof.
  cbv zeta. split; [left; reflexivity|].
  apply (@missing_required_flag_rejected JSON.codec
           (cluster 404 None sample_files) (default_flags "" "data.json") 3).
  left. reflexivity.
Defined.

Lemma half_basic_auth_witness :
  let f := with_auth sample_flags "elastic" "" "" in
  xorb (Go.nonempty (user f)) (Go.nonempty (pass f)) = true
  /\ auth_conflict f = false
  /\ Username (client_config f) = ""
  /\ Password (client_config f) = ""
  /\ APIKey (client_config f) = "".
Proof.
  cbv zeta. split; [reflexivity|].
  destruct (@half_basic_auth JSON.codec (cluster 404 None sample_files)
              (with_auth sample_flags "elastic" "" "") 3 eq_refl)
    as (H & _ & _).
  destruct (H eq_refl) as (H1 & H2 & H3 & H4 & _).
  repeat split; assumption.
Defined.

Lemma create_index_body_contents_witness :
  let w := cluster 404 None sample_files in
  let f := with_settings sample_flags "settings.json" in
  let body :=
    ("{" ++ Go.dquote ++ "settings" ++ Go.dquote ++ ": "
     ++ JSON.encode (JSON.Obj [("number_of_shards", JSON.Number "1")])
     ++ ", " ++ Go.dquote ++ "mappings" ++ Go.dquote ++ ": {}}")%string in
  snd (file_or_default w (settingsFile f) []) = None
  /\ snd (file_or_default w (mappingsFile f) (after_read (settingsFile f) []))
     = None
  /\ list_ascii_of_string body
     = map ascii_of_nat
         [123; 34; 115; 101; 116; 116; 105; 110; 103; 115; 34; 58; 32; 123;
          34; 110; 117; 109; 98; 101; 114; 95; 111; 102; 95; 115; 104; 97;
          114; 100; 115; 34; 58; 49; 125; 44; 32; 34; 109; 97; 112; 112; 105;
          110; 103; 115; 34; 58; 32; 123; 125; 125]%nat
  /\ fst (@buildCreateIndexBody w "settings.json" "" []) = Done body
  /\ In (IndicesCreate "my-index" body)
        (snd (@create_if_needed w f false [])).
Proof.
  cbv zeta. split; [reflexivity|]. split; [reflexivity|].
  split; [vm_compute; reflexivity|].
  exact (proj2 (@create_index_body_contents
                  (cluster 404 None sample_files)
                  (with_settings sample_flags "settings.json") [])
           eq_refl eq_refl).
Defined.

Lemma cluster_bulk_ok (status : Z) (files : list (string * string)) :
  bulk_ok (cluster status None files).
Proof. intros h body. now exists 200. Qed.

Lemma lifecycle_decision_table_witness :
  let w := cluster 200 None sample_files in
  let f := with_lifecycle sample_flags false true in
  auth_conflict f = false /\ index f <> "" /\ dataFile f <> ""
  /\ client_ok w f /\ exists_status w f 200 /\ (200 = 200 \/ 200 = 404)
  /\ delete_ok w f /\ files_ok w f
  /\ exists body,
       filter is_index_change (snd (@main JSON.codec w f 3 []))
       = [IndicesDelete (index f); IndicesCreate (index f) body].
Proof.
  cbv zeta.
  assert (Hd : delete_ok (cluster 200 None sample_files)
                 (with_lifecycle sample_flags false true)).
  { intros h. exists 200. split; reflexivity. }
  assert (Hf : files_ok (cluster 200 None sample_files)
                 (with_lifecycle sample_flags false true)).
  { intros h. split; reflexivity. }
  split; [reflexivity|]. split; [discriminate|]. split; [discriminate|].
  split; [reflexivity|]. split; [intros h; reflexivity|].
  split; [left; reflexivity|]. split; [exact Hd|]. split; [exact Hf|].
  exact (@lifecycle_decision_table JSON.codec
           (cluster 200 None sample_files)
           (with_lifecycle sample_flags false true) 3 200
           eq_refl ltac:(discriminate) ltac:(discriminate) eq_refl
           (fun h => eq_refl) (or_introl eq_refl) Hd Hf).
Defined.

Lemma lifecycle_against_table_witness :
  let w := cluster 404 None sample_files in
  let f := with_lifecycle sample_flags true true in
  exists_status w f 404 /\ (404 = 200 \/ 404 = 404)
  /\ delete_ok w f /\ files_ok w f /\ create_ok w f
  /\ negb (404 =? 200) && addToIndex f && deleteIndex f = true
  /\ table_4_3 false true true = [StepCreate]
  /\ exists r t,
       @prepare_index w f [] = (r, [] ++ t)
       /\ steps t = [StepWarn; StepCreate]
       /\ In (nothing_to_delete f) t.
Proof.
  cbv zeta.
  assert (He : exists_status (cluster 404 None sample_files)
                 (with_lifecycle sample_flags true true) 404)
    by (intros h; reflexivity).
  assert (Hd : delete_ok (cluster 404 None sample_files)
                 (with_lifecycle sample_flags true true))
    by (intros h; exists 200; split; reflexivity).
  assert (Hf : files_ok (cluster 404 None sample_files)
                 (with_lifecycle sample_flags true true))
    by (intros h; split; reflexivity).
  assert (Hc : create_ok (cluster 404 None sample_files)
                 (with_lifecycle sample_flags true true))
    by (intros h body; eexists; reflexivity).
  split; [exact He|]. split; [now right|]. split; [exact Hd|].
  split; [exact Hf|]. split; [exact Hc|]. split; [reflexivity|].
  split; [reflexivity|].
  destruct (@lifecycle_against_table (cluster 404 None sample_files)
              (with_lifecycle sample_flags true true) 404 []
              He (or_intror eq_refl) Hd Hf Hc)
    as (r & t & E & _ & H).
  destruct (H eq_refl) as (_ & S & _ & Hin).
  exists r, t. split; [exact E|]. split; [exact S | exact Hin].
Defined.

Lemma upload_in_batches_witness :
  let w := cluster 404 None sample_files in
  1 <= batchSize sample_flags <= Go.int_max
  /\ Go.len sample_docs <= 2 ^ 62
  /\ bulk_ok w
  /\ (ceil_div (List.length sample_docs) (Z.to_nat (batchSize sample_flags))
      <= 2)%nat
  /\ exists t : History,
       @upload JSON.codec w sample_flags sample_docs 2 0 [] = (Done tt, [] ++ t)
       /\ bulk_bodies t
          = map (@batch_body JSON.codec sample_flags)
                (batches 2 sample_docs)
       /\ List.length (bulk_bodies t) = 2%nat.
Proof.
  cbv zeta.
  assert (HB : 1 <= batchSize sample_flags <= Go.int_max)
    by (vm_compute; split; discriminate).
  assert (HN : Go.len sample_docs <= 2 ^ 62) by (vm_compute; discriminate).
  assert (Hf : (ceil_div (List.length sample_docs)
                  (Z.to_nat (batchSize sample_flags)) <= 2)%nat)
    by (vm_compute; repeat constructor).
  split; [exact HB|]. split; [exact HN|].
  split; [apply cluster_bulk_ok|]. split; [exact Hf|].
  destruct (@upload_in_batches JSON.codec (cluster 404 None sample_files)
              sample_flags sample_docs 2 [] HB HN
              (cluster_bulk_ok 404 sample_files) Hf)
    as (t & E & Hb & Hl & _).
  exists t. repeat split; assumption.
Defined.

Lemma bulk_failure_is_fatal_witness :
  let t2 := [Log Fatal [Err "connection refused"] "Error during bulk insert"] in
  @main JSON.codec failing_world sample_flags 5 []
  = (Exited 1, failing_prefix ++ Bulk failing_body :: t2)
  /\ bulk failing_world failing_prefix failing_body = Failed "connection refused"
  /\ bulk_bodies (failing_prefix ++ Bulk failing_body :: t2)
     = bulk_bodies failing_prefix ++ [failing_body].
Proof.
  cbv zeta.
  assert (E : @main JSON.codec failing_world sample_flags 5 []
              = (Exited 1,
                 failing_prefix
                 ++ Bulk failing_body
                    :: [Log Fatal [Err "connection refused"]
                          "Error during bulk insert"]))
    by (vm_compute; reflexivity).
  assert (Hf : bulk failing_world failing_prefix failing_body
               = Failed "connection refused") by (vm_compute; reflexivity).
  split; [exact E|]. split; [exact Hf|].
  exact (proj2 (proj2 (@bulk_failure_is_fatal JSON.codec failing_world
                         sample_flags 5 failing_prefix _ failing_body
                         "connection refused" (Exited 1) E Hf))).
Defined.

Lemma batch_size_unchecked_witness :
  let w := cluster 404 None sample_files in
  let f := with_batchSize sample_flags 0 in
  bulk_ok w /\ Go.in_int (batchSize f) /\ Go.len sample_docs <= 2 ^ 62
  /\ @never_ends JSON.codec w f sample_docs [].
Proof.
  cbv zeta.
  assert (HB : Go.in_int (batchSize (with_batchSize sample_flags 0)))
    by (vm_compute; split; discriminate).
  assert (HN : Go.len sample_docs <= 2 ^ 62) by (vm_compute; discriminate).
  split; [apply cluster_bulk_ok|]. split; [exact HB|]. split; [exact HN|].
  destruct (@batch_size_unchecked JSON.codec (cluster 404 None sample_files)
              (with_batchSize sample_flags 0) sample_docs []
              (cluster_bulk_ok 404 sample_files) HB HN)
    as (_ & _ & H0 & _).
  exact (proj1 (H0 eq_refl ltac:(discriminate))).
Defined.

Lemma documents_written_unchanged_witness :
  let w := cluster 404 None sample_files in
  let action := @Marshal_meta JSON.codec [("index", [("_index", "my-index")])] in
  snd (@Unmarshal_records JSON.codec sample_data) = None
  /\ fst (@Unmarshal_records JSON.codec sample_data) = sample_docs
  /\ list_ascii_of_string action
     = map ascii_of_nat
         [123; 34; 105; 110; 100; 101; 120; 34; 58; 123; 34; 95; 105; 110;
          100; 101; 120; 34; 58; 34; 109; 121; 45; 105; 110; 100; 101; 120;
          34; 125; 125]%nat
  /\ 1 <= batchSize sample_flags <= Go.int_max
  /\ Go.len sample_docs <= 2 ^ 62
  /\ bulk_ok w
  /\ exists t,
       @upload JSON.codec w sample_flags sample_docs 2 0 [] = (Done tt, [] ++ t)
       /\ List.length (bulk_bodies t) = 2%nat
       /\ @read_all JSON.codec (bulk_bodies t)
          = Some (map (fun doc => (action, doc)) sample_docs).
Proof.
  cbv zeta.
  assert (Herr : snd (@Unmarshal_records JSON.codec sample_data) = None)
    by (vm_compute; reflexivity).
  assert (Hrec : fst (@Unmarshal_records JSON.codec sample_data) = sample_docs)
    by (vm_compute; reflexivity).
  assert (HB : 1 <= batchSize sample_flags <= Go.int_max)
    by (vm_compute; split; discriminate).
  assert (HN : Go.len sample_docs <= 2 ^ 62) by (vm_compute; discriminate).
  split; [exact Herr|]. split; [exact Hrec|].
  split; [vm_compute; reflexivity|]. split; [exact HB|].
  split; [exact HN|]. split; [apply cluster_bulk_ok|].
  destruct (@documents_written_unchanged JSON.codec JSONCodec.codec_laws
              (cluster 404 None sample_files) sample_flags sample_data
              [] Herr) as (_ & _ & H).
  cbv zeta in H. rewrite Hrec in H.
  exact (H HB HN (cluster_bulk_ok 404 sample_files) 2%nat
           ltac:(vm_compute; repeat constructor)).
Defined.

(** With [-settings broken.json], a file that holds the one character
    [}], the run sends the create request and, whatever the answer (400
    here), goes on to the upload and ends normally. *)
Lemma malformed_settings_reach_the_cluster : ~ malformed_settings_are_fatal.
Proof.
  intros H.
  destruct (H (cluster 404 None sample_files)
              (with_settings sample_flags "broken.json") 5%nat "}"
              ltac:(discriminate) (fun h => eq_refl) eq_refl)
    as (t & E & _).
  vm_compute in E. discriminate E.
Qed.

Lemma file_contents_not_checked_witness :
  let w := cluster 404 None sample_files in
  let f := with_settings sample_flags "broken.json" in
  snd (file_or_default w (settingsFile f) []) = None
  /\ snd (file_or_default w (mappingsFile f) (after_read (settingsFile f) []))
     = None
  /\ JSON.Valid "}" = false
  /\ create_if_needed w f false []
     = (Done tt,
        [ReadFile "broken.json";
         IndicesCreate "my-index" (create_index_body "}" "{}");
         Log Info [Str "index" "my-index"] "Index created"]).
Proof.
  cbv zeta. split; [reflexivity|]. split; [reflexivity|].
  split; [reflexivity|].
  exact (proj2 (proj2 (file_contents_not_checked
                         (cluster 404 None sample_files)
                         (with_settings sample_flags "broken.json") []))
           eq_refl eq_refl).
Defined.

(** With [-batch -1] the first round of the loop panics. *)
Lemma negative_batch_panics : ~ nonpositive_batch_never_ends.
Proof.
  intros H.
  specialize (H (cluster 404 None sample_files)
                (with_batchSize sample_flags (-1)) sample_docs []
                (cluster_bulk_ok 404 sample_files)
                ltac:(vm_compute; split; discriminate)
                ltac:(vm_compute; discriminate)
                ltac:(discriminate) 1%nat).
  vm_compute in H. discriminate H.
Qed.

(** ** The scenarios of the specification, section 8 *)

(** 2500 documents, batch 1000: three bulk requests, of 1000, 1000 and
    500 documents, in that order. *)
Example scenario_2500 {J : EncodingJSON} (w : World) (f : Flags)
  (records : list Doc) (h : History) :
  bulk_ok w -> batchSize f = 1000 -> List.length records = 2500%nat ->
  exists t,
    upload w f records 3 0 h = (Done tt, h ++ t)
    /\ bulk_bodies t = map (batch_body f) (batches 1000 records)
    /\ map (@List.length Doc) (batches 1000 records) = [1000; 1000; 500]%nat.
Proof.
  intros Hok HB HN.
  destruct (upload_run w f records 3 h) as (t & E & Hb & _);
    try assumption.
  - rewrite HB. vm_compute. split; discriminate.
  - unfold Go.len. rewrite HN. vm_compute. discriminate.
  - rewrite HB, HN. vm_compute. repeat constructor.
  - exists t. rewrite HB in Hb. change (Z.to_nat 1000) with 1000%nat in Hb.
    split; [assumption|]. split; [assumption|].
    unfold batches. rewrite HN.
    change (ceil_div 2500 1000) with 3%nat. cbn [seq map].
    rewrite !batch_length, HN. reflexivity.
Qed.

(** Index absent, no flags, 25 documents, batch 10: one create request,
    then three bulk requests of 10, 10 and 5 documents. *)
Example scenario_absent_25 :
  let w := cluster 404 None [("data.json", empty_docs 25)] in
  let f := with_batchSize (default_flags "my-index" "data.json") 10 in
  let run := @main JSON.codec w f 3 [] in
  fst run = Done tt
  /\ filter is_request (snd run)
     = [IndicesExists "my-index";
        IndicesCreate "my-index" (create_index_body "{}" "{}")]
       ++ map Bulk (bulk_bodies (snd run))
  /\ documents_per_request (snd run) = [10; 10; 5]%nat.
Proof. vm_compute. repeat split. Qed.

(** Index present, [-delete], 10 documents, batch 1000: a delete
    request, a create request and one bulk request of 10 documents. *)
Example scenario_present_delete_10 :
  let w := cluster 200 None [("data.json", empty_docs 10)] in
  let f := with_lifecycle (default_flags "my-index" "data.json") false true in
  let run := @main JSON.codec w f 1 [] in
  fst run = Done tt
  /\ filter is_request (snd run)
     = [IndicesExists "my-index";
        IndicesDelete "my-index";
        IndicesCreate "my-index" (create_index_body "{}" "{}")]
       ++ map Bulk (bulk_bodies (snd run))
  /\ documents_per_request (snd run) = [10]%nat.
Proof. vm_compute. repeat split. Qed.

(** With a settings file that is not a JSON text the body of the create
    request is not one either; the request is sent all the same and the
    three documents are uploaded. *)
Example scenario_broken_settings :
  let w := cluster 404 None sample_files in
  let run := @main JSON.codec w (with_settings sample_flags "broken.json") 2 [] in
  fst run = Done tt
  /\ JSON.Valid (create_index_body "}" "{}") = false
  /\ filter is_request (snd run)
     = [IndicesExists "my-index";
        IndicesCreate "my-index" (create_index_body "}" "{}")]
       ++ map Bulk (bulk_bodies (snd run))
  /\ documents_per_request (snd run) = [2; 1]%nat.
Proof. vm_compute. repeat split. Qed.

(** With [-batch 0] the run gets to the loop and stays in it. *)
Example scenario_batch_zero :
  let w := cluster 404 None sample_files in
  let run := @main JSON.codec w (with_batchSize sample_flags 0) 4 [] in
  fst run = OutOfFuel
  /\ In (Log Info [Int "total" 3] "Starting bulk insert") (snd run)
  /\ bulk_bodies (snd run) = ["";"";"";""].
Proof. vm_compute. repeat split. auto 10. Qed.

(** ** Runs for the further properties *)

Lemma sample_flags_accepted (add delete : bool) :
  accepted (with_lifecycle sample_flags add delete).
Proof. repeat split; discriminate. Qed.

Lemma cluster_gets_to_create (status : Z) (add delete : bool) :
  status = 200 \/ status = 404 ->
  (status = 200 -> add = true \/ delete = true) ->
  gets_to_create (cluster status None sample_files)
    (with_lifecycle sample_flags add delete) status.
Proof.
  intros Hs Hp. split; [apply sample_flags_accepted|].
  split; [reflexivity|]. split; [intros h; reflexivity|].
  split; [assumption|].
  split; [intros h; exists 200; split; reflexivity|].
  split; [intros h; split; reflexivity | assumption].
Qed.

Lemma cluster_goes_through (status : Z) (add delete : bool) :
  status = 200 \/ status = 404 ->
  (status = 200 -> add = true \/ delete = true) ->
  goes_through (cluster status None sample_files)
    (with_lifecycle sample_flags add delete) status.
Proof.
  intros Hs Hp. split; [now apply cluster_gets_to_create|].
  intros h body. eexists. reflexivity.
Qed.

Lemma flag_validation_outcomes_witness :
  let w := cluster 404 None sample_files in
  let f := with_auth (default_flags "" "") "elastic" "" "a2V5" in
  auth_conflict f = true /\ index f = "" /\ dataFile f = ""
  /\ @main JSON.codec w f 3 [] = (Exited 1, conflict_trace).
Proof.
  cbv zeta. split; [reflexivity|]. split; [reflexivity|].
  split; [reflexivity|].
  exact (proj1 (@flag_validation_outcomes JSON.codec
                  (cluster 404 None sample_files)
                  (with_auth (default_flags "" "") "elastic" "" "a2V5") 3)
           eq_refl).
Defined.

Lemma client_failure_is_fatal_witness :
  let w := with_new_client (cluster 404 None sample_files)
             (Some "cannot create client") in
  accepted sample_flags
  /\ new_client w [] (client_config sample_flags)
     = Some "cannot create client"
  /\ @main JSON.codec w sample_flags 3 []
     = (Exited 1,
        [NewClient (client_config sample_flags);
         Log Fatal [Err "cannot create client"]
             "Error during creating Elasticsearch client"]).
Proof.
  cbv zeta. split; [apply (sample_flags_accepted false false)|].
  split; [reflexivity|].
  exact (@client_failure_is_fatal JSON.codec
           (with_new_client (cluster 404 None sample_files)
              (Some "cannot create client"))
           sample_flags 3 "cannot create client"
           (sample_flags_accepted false false) eq_refl).
Defined.

Lemma exists_error_is_fatal_witness :
  let w := with_exists_reply (cluster 404 None sample_files)
             (Failed "connection refused") in
  accepted sample_flags /\ client_ok w sample_flags
  /\ indices_exists w (client_built sample_flags) (index sample_flags)
     = Failed "connection refused"
  /\ @main JSON.codec w sample_flags 3 []
     = (Exited 1,
        [NewClient (client_config sample_flags); IndicesExists "my-index";
         Log Fatal [Err "connection refused"]
             "Error during checking if index exists"]).
Proof.
  cbv zeta. split; [apply (sample_flags_accepted false false)|].
  split; [reflexivity|]. split; [reflexivity|].
  exact (@exists_error_is_fatal JSON.codec
           (with_exists_reply (cluster 404 None sample_files)
              (Failed "connection refused"))
           sample_flags 3 "connection refused"
           (sample_flags_accepted false false) eq_refl eq_refl).
Defined.

Lemma unexpected_exists_status_is_fatal_witness :
  let w := cluster 503 None sample_files in
  accepted sample_flags /\ client_ok w sample_flags
  /\ indices_exists w (client_built sample_flags) (index sample_flags)
     = Responded 503
  /\ 503 <> 200 /\ 503 <> 404
  /\ unexpected_status 503 = "unexpected status code 503"
  /\ @main JSON.codec w sample_flags 3 []
     = (Exited 1,
        [NewClient (client_config sample_flags); IndicesExists "my-index";
         Log Fatal [Err (unexpected_status 503)]
             "Error during checking if index exists"]).
Proof.
  cbv zeta. split; [apply (sample_flags_accepted false false)|].
  split; [reflexivity|]. split; [reflexivity|].
  split; [discriminate|]. split; [discriminate|]. split; [reflexivity|].
  exact (@unexpected_exists_status_is_fatal JSON.codec
           (cluster 503 None sample_files) sample_flags 3 503
           (sample_flags_accepted false false) eq_refl eq_refl
           ltac:(discriminate) ltac:(discriminate)).
Defined.

Lemma delete_error_is_fatal_witness :
  let w := with_delete_reply (cluster 200 None sample_files)
             (Failed "connection refused") in
  let f := with_lifecycle sample_flags false true in
  accepted f /\ client_ok w f
  /\ indices_exists w (client_built f) (index f) = Responded 200
  /\ deleteIndex f = true
  /\ indices_delete w (before_delete f) (index f)
     = Failed "connection refused"
  /\ @main JSON.codec w f 3 []
     = (Exited 1,
        [NewClient (client_config f); IndicesExists "my-index";
         Log Info [Str "index" "my-index"] "Deleting index";
         IndicesDelete "my-index";
         Log Fatal [Err "connection refused"] "Error during deleting index"]).
Proof.
  cbv zeta. split; [apply sample_flags_accepted|].
  split; [reflexivity|]. split; [reflexivity|]. split; [reflexivity|].
  split; [reflexivity|].
  exact (@delete_error_is_fatal JSON.codec
           (with_delete_reply (cluster 200 None sample_files)
              (Failed "connection refused"))
           (with_lifecycle sample_flags false true) 3 "connection refused"
           (sample_flags_accepted false true) eq_refl eq_refl eq_refl eq_refl).
Defined.

Lemma delete_status_decides_witness :
  let w := with_delete_reply (cluster 200 None sample_files)
             (Responded 403) in
  let f := with_lifecycle sample_flags true true in
  accepted f /\ client_ok w f
  /\ indices_exists w (client_built f) (index f) = Responded 200
  /\ deleteIndex f = true
  /\ indices_delete w (before_delete f) (index f) = Responded 403
  /\ 299 < 403
  /\ @main JSON.codec w f 3 []
     = (Exited 1,
        [NewClient (client_config f); IndicesExists "my-index";
         Log Info [Str "index" "my-index"]
             "Deleting and recreating index before adding documents";
         IndicesDelete "my-index";
         Log Fatal [Str "index" "my-index"] "Failed to delete index"]).
Proof.
  cbv zeta. split; [apply sample_flags_accepted|].
  split; [reflexivity|]. split; [reflexivity|]. split; [reflexivity|].
  split; [reflexivity|]. split; [reflexivity|].
  exact (proj1 (@delete_status_decides JSON.codec
                  (with_delete_reply (cluster 200 None sample_files)
                     (Responded 403))
                  (with_lifecycle sample_flags true true) 3 403
                  (sample_flags_accepted true true)
                  eq_refl eq_refl eq_refl eq_refl) eq_refl).
Defined.

Lemma create_error_is_fatal_witness :
  let w := with_create_reply (cluster 200 None sample_files)
             (Failed "connection refused") in
  let f := with_lifecycle sample_flags false true in
  gets_to_create w f 200
  /\ (200 = 404 \/ deleteIndex f = true)
  /\ (forall h body,
        indices_create w h (index f) body = Failed "connection refused")
  /\ exists pre body,
       @main JSON.codec w f 3 []
       = (Exited 1,
          pre ++ [IndicesCreate (index f) body;
                  Log Fatal [Err "connection refused"]
                      "Error during creating index"])
       /\ filter is_index_change pre = [IndicesDelete (index f)]
       /\ bulk_bodies pre = [].
Proof.
  cbv zeta.
  assert (G : gets_to_create
                (with_create_reply (cluster 200 None sample_files)
                   (Failed "connection refused"))
                (with_lifecycle sample_flags false true) 200).
  { split; [apply sample_flags_accepted|].
    split; [reflexivity|]. split; [intros h; reflexivity|].
    split; [now left|].
    split; [intros h; exists 200; split; reflexivity|].
    split; [intros h; split; reflexivity | now right]. }
  split; [exact G|]. split; [right; reflexivity|].
  split; [intros h body; reflexivity|].
  exact (@create_error_is_fatal JSON.codec
           (with_create_reply (cluster 200 None sample_files)
              (Failed "connection refused"))
           (with_lifecycle sample_flags false true) 3 200
           "connection refused" G (or_intror eq_refl)
           (fun h body => eq_refl)).
Defined.

Lemma reply_status_unused_witness :
  let w1 := cluster 404 None sample_files in
  let w2 := with_bulk_reply (with_create_reply w1 (Responded 500))
              (Responded 429) in
  same_but_status w1 w2
  /\ @main JSON.codec w1 sample_flags 5 []
     = @main JSON.codec w2 sample_flags 5 []
  /\ bulk w2 [] "" = Responded 429.
Proof.
  cbv zeta.
  assert (S : same_but_status (cluster 404 None sample_files)
                (with_bulk_reply
                   (with_create_reply (cluster 404 None sample_files)
                      (Responded 500))
                   (Responded 429))).
  { repeat split; intros; reflexivity. }
  split; [exact S|]. split; [|reflexivity].
  exact (@reply_status_unused JSON.codec _ _ S sample_flags 5 []).
Defined.

Lemma append_ignores_settings_witness :
  let w := cluster 200 None sample_files in
  let f := with_lifecycle sample_flags true false in
  accepted f /\ client_ok w f
  /\ indices_exists w (client_built f) (index f) = Responded 200
  /\ addToIndex f = true /\ deleteIndex f = false
  /\ snd (read_file w [] "missing.json") <> None
  /\ @main JSON.codec w (with_files f "missing.json" "missing.json") 5 []
     = @main JSON.codec w f 5 [].
Proof.
  cbv zeta. split; [apply sample_flags_accepted|].
  split; [reflexivity|]. split; [reflexivity|]. split; [reflexivity|].
  split; [reflexivity|]. split; [discriminate|].
  exact (proj2 (@append_ignores_settings JSON.codec
                  (cluster 200 None sample_files)
                  (with_lifecycle sample_flags true false) 5
                  (sample_flags_accepted true false)
                  eq_refl eq_refl eq_refl eq_refl)
           "missing.json" "missing.json").
Defined.

(** [-index my-index -data PATH -batch 2 -delete] on an index that is
    there. *)
Lemma recreate_goes_through (path : string) :
  path <> "" ->
  goes_through (cluster 200 None sample_files)
    (with_lifecycle (with_batchSize (default_flags "my-index" path) 2)
       false true) 200.
Proof.
  intros Hp. split.
  - split; [repeat split; [discriminate | exact Hp]|].
    split; [reflexivity|]. split; [intros h; reflexivity|].
    split; [now left|].
    split; [intros h; exists 200; split; reflexivity|].
    split; [intros h; split; reflexivity | now right].
  - intros h body. eexists. reflexivity.
Qed.

Lemma unreadable_data_file_witness :
  let w := cluster 200 None sample_files in
  let f := with_lifecycle
             (with_batchSize (default_flags "my-index" "missing.json") 2)
             false true in
  let err := "open missing.json: no such file or directory" in
  goes_through w f 200
  /\ (forall h, snd (read_file w h (dataFile f)) = Some err)
  /\ exists pre body,
       @main JSON.codec w f 3 []
       = (Exited 1,
          pre ++ [ReadFile "missing.json";
                  Log Fatal [Err err] "Error during reading data file"])
       /\ filter is_index_change pre
          = [IndicesDelete "my-index"; IndicesCreate "my-index" body]
       /\ bulk_bodies pre = [].
Proof.
  cbv zeta.
  split; [apply recreate_goes_through; discriminate|].
  split; [intros h; reflexivity|].
  exact (@unreadable_data_file JSON.codec (cluster 200 None sample_files)
           (with_lifecycle
              (with_batchSize (default_flags "my-index" "missing.json") 2)
              false true)
           3 200 "open missing.json: no such file or directory"
           (recreate_goes_through "missing.json" ltac:(discriminate))
           (fun h => eq_refl)).
Defined.

Lemma unparsable_data_file_witness :
  let w := cluster 200 None sample_files in
  let f := with_lifecycle
             (with_batchSize (default_flags "my-index" "broken.json") 2)
             false true in
  goes_through w f 200
  /\ (forall h, read_file w h (dataFile f) = ("}", None))
  /\ snd (@Unmarshal_records JSON.codec "}") = Some "invalid character"
  /\ exists pre body,
       @main JSON.codec w f 3 []
       = (Exited 1,
          pre ++ [ReadFile "broken.json";
                  Log Fatal [Err "invalid character"]
                      "Error during parsing data JSON"])
       /\ filter is_index_change pre
          = [IndicesDelete "my-index"; IndicesCreate "my-index" body]
       /\ bulk_bodies pre = [].
Proof.
  cbv zeta.
  split; [apply recreate_goes_through; discriminate|].
  split; [intros h; reflexivity|]. split; [reflexivity|].
  exact (@unparsable_data_file JSON.codec (cluster 200 None sample_files)
           (with_lifecycle
              (with_batchSize (default_flags "my-index" "broken.json") 2)
              false true)
           3 200 "}" "invalid character"
           (recreate_goes_through "broken.json" ltac:(discriminate))
           (fun h => eq_refl) eq_refl).
Defined.

Lemma empty_document_set_witness :
  let w := cluster 404 None [("data.json", "[]")] in
  let f := with_batchSize sample_flags (-5) in
  goes_through w f 404
  /\ (forall h, read_file w h (dataFile f) = ("[]", None))
  /\ @Unmarshal_records JSON.codec "[]" = ([], None)
  /\ exists pre body,
       @main JSON.codec w f 0 []
       = (Done tt,
          pre ++ [ReadFile "data.json"; starting_line 0; completed_line])
       /\ filter is_index_change pre = [IndicesCreate "my-index" body]
       /\ bulk_bodies pre = [].
Proof.
  cbv zeta.
  assert (G : goes_through (cluster 404 None [("data.json", "[]")])
                (with_batchSize sample_flags (-5)) 404).
  { split.
    - split; [repeat split; discriminate|].
      split; [reflexivity|]. split; [intros h; reflexivity|].
      split; [now right|].
      split; [intros h; exists 200; split; reflexivity|].
      split; [intros h; split; reflexivity | discriminate].
    - intros h body. eexists. reflexivity. }
  split; [exact G|]. split; [intros h; reflexivity|].
  split; [reflexivity|].
  exact (@empty_document_set JSON.codec
           (cluster 404 None [("data.json", "[]")])
           (with_batchSize sample_flags (-5)) 0 404 "[]"
           G (fun h => eq_refl) eq_refl).
Defined.

Lemma complete_run_witness :
  let w := cluster 404 None sample_files in
  goes_through w sample_flags 404
  /\ (forall h, read_file w h (dataFile sample_flags) = (sample_data, None))
  /\ snd (@Unmarshal_records JSON.codec sample_data) = None
  /\ fst (@Unmarshal_records JSON.codec sample_data) = sample_docs
  /\ 1 <= batchSize sample_flags <= Go.int_max
  /\ Go.len sample_docs <= 2 ^ 62
  /\ bulk_ok w
  /\ exists pre body,
       @main JSON.codec w sample_flags 2 []
       = (Done tt,
          pre ++ [ReadFile "data.json"; starting_line 3]
              ++ flat_map (@round JSON.codec sample_flags sample_docs 2) [0; 1]%nat
              ++ [completed_line])
       /\ filter is_index_change pre = [IndicesCreate "my-index" body]
       /\ bulk_bodies pre = [].
Proof.
  cbv zeta.
  assert (G : goes_through (cluster 404 None sample_files) sample_flags 404).
  { apply (cluster_goes_through 404 false false);
      [now right | discriminate]. }
  assert (Hu : snd (@Unmarshal_records JSON.codec sample_data) = None)
    by (vm_compute; reflexivity).
  assert (Hrec : fst (@Unmarshal_records JSON.codec sample_data) = sample_docs)
    by (vm_compute; reflexivity).
  assert (HB : 1 <= batchSize sample_flags <= Go.int_max)
    by (vm_compute; split; discriminate).
  assert (HN : Go.len sample_docs <= 2 ^ 62) by (vm_compute; discriminate).
  split; [exact G|]. split; [intros h; reflexivity|].
  split; [exact Hu|]. split; [exact Hrec|]. split; [exact HB|].
  split; [exact HN|]. split; [apply cluster_bulk_ok|].
  pose proof (@complete_run JSON.codec (cluster 404 None sample_files)
                sample_flags 2 404 sample_data G (fun h => eq_refl) Hu) as H.
  cbv zeta in H. rewrite Hrec in H.
  exact (H HB HN (cluster_bulk_ok 404 sample_files)
           ltac:(vm_compute; repeat constructor)).
Defined.

Lemma upload_stops_at_first_failure_witness :
  let b := Z.to_nat (batchSize sample_flags) in
  let n := ceil_div (List.length sample_docs) b in
  1 <= batchSize sample_flags <= Go.int_max
  /\ Go.len sample_docs <= 2 ^ 62
  /\ (n <= 2)%nat
  /\ (@upload JSON.codec failing_world sample_flags sample_docs 2 0 []
      = (Done tt,
         [] ++ flat_map (@round JSON.codec sample_flags sample_docs b) (seq 0 n))
      \/ exists k e,
           (k < n)%nat
           /\ bulk failing_world
                ([] ++ flat_map (@round JSON.codec sample_flags sample_docs b)
                         (seq 0 k))
                (@batch_body JSON.codec sample_flags (batch b sample_docs k))
              = Failed e
           /\ @upload JSON.codec failing_world sample_flags sample_docs 2 0 []
              = (Exited 1,
                 [] ++ flat_map (@round JSON.codec sample_flags sample_docs b)
                         (seq 0 k)
                    ++ @failed_round JSON.codec sample_flags sample_docs b k e))
  /\ @upload JSON.codec failing_world sample_flags sample_docs 2 0 []
     = (Exited 1,
        flat_map (@round JSON.codec sample_flags sample_docs b) (seq 0 1)
        ++ @failed_round JSON.codec sample_flags sample_docs b 1
             "connection refused").
Proof.
  cbv zeta.
  assert (HB : 1 <= batchSize sample_flags <= Go.int_max)
    by (vm_compute; split; discriminate).
  assert (HN : Go.len sample_docs <= 2 ^ 62) by (vm_compute; discriminate).
  assert (Hf : (ceil_div (List.length sample_docs)
                  (Z.to_nat (batchSize sample_flags)) <= 2)%nat)
    by (vm_compute; repeat constructor).
  split; [exact HB|]. split; [exact HN|]. split; [exact Hf|].
  split; [|vm_compute; reflexivity].
  exact (@upload_stops_at_first_failure JSON.codec failing_world
           sample_flags sample_docs 2 [] HB HN Hf).
Defined.

Lemma progress_lines_witness :
  let t := snd (@upload JSON.codec failing_world sample_flags sample_docs 2 0 [])
  in
  1 <= batchSize sample_flags <= Go.int_max
  /\ Go.len sample_docs <= 2 ^ 62
  /\ (ceil_div (List.length sample_docs) (Z.to_nat (batchSize sample_flags))
      <= 2)%nat
  /\ List.length (bulk_bodies t) = 2%nat
  /\ answered failing_world [] t = 1%nat
  /\ progress t = [(2, 3)]
  /\ exists t',
       t = [] ++ t'
       /\ progress t'
          = map (fun k => (Z.min (Z.of_nat (S k) * batchSize sample_flags)
                             (Go.len sample_docs), Go.len sample_docs))
                (seq 0 (answered failing_world [] t'))
       /\ List.length (progress t') = answered failing_world [] t'.
Proof.
  cbv zeta.
  assert (HB : 1 <= batchSize sample_flags <= Go.int_max)
    by (vm_compute; split; discriminate).
  assert (HN : Go.len sample_docs <= 2 ^ 62) by (vm_compute; discriminate).
  assert (Hf : (ceil_div (List.length sample_docs)
                  (Z.to_nat (batchSize sample_flags)) <= 2)%nat)
    by (vm_compute; repeat constructor).
  split; [exact HB|]. split; [exact HN|]. split; [exact Hf|].
  split; [vm_compute; reflexivity|]. split; [vm_compute; reflexivity|].
  split; [vm_compute; reflexivity|].
  destruct (@progress_lines JSON.codec failing_world
              sample_flags sample_docs 2 [] HB HN Hf)
    as (t' & Et & Hp & Hl & _).
  exists t'. split; [exact Et|]. split; [exact Hp | exact Hl].
Defined.

Lemma bodies_add_up_witness :
  let w := cluster 404 None sample_files in
  1 <= batchSize sample_flags <= Go.int_max
  /\ Go.len sample_docs <= 2 ^ 62
  /\ bulk_ok w
  /\ (ceil_div (List.length sample_docs) (Z.to_nat (batchSize sample_flags))
      <= 2)%nat
  /\ exists t,
       @upload JSON.codec w sample_flags sample_docs 2 0 [] = (Done tt, [] ++ t)
       /\ List.length (bulk_bodies t) = 2%nat
       /\ cat (bulk_bodies t)
          = @write_docs JSON.codec "my-index" sample_docs "".
Proof.
  cbv zeta.
  assert (HB : 1 <= batchSize sample_flags <= Go.int_max)
    by (vm_compute; split; discriminate).
  assert (HN : Go.len sample_docs <= 2 ^ 62) by (vm_compute; discriminate).
  assert (Hf : (ceil_div (List.length sample_docs)
                  (Z.to_nat (batchSize sample_flags)) <= 2)%nat)
    by (vm_compute; repeat constructor).
  split; [exact HB|]. split; [exact HN|].
  split; [apply cluster_bulk_ok|]. split; [exact Hf|].
  destruct (@bodies_add_up JSON.codec (cluster 404 None sample_files)
              sample_flags sample_docs 2 [] HB HN
              (cluster_bulk_ok 404 sample_files) Hf)
    as (_ & t & E & Hc).
  exists t. split; [exact E|]. split; [|exact Hc].
  assert (E' := E). vm_compute in E'. injection E' as <-. reflexivity.
Defined.

Lemma one_request_when_batch_covers_all_witness :
  let w := cluster 404 None sample_files in
  let f := with_batchSize sample_flags Go.int_max in
  sample_docs <> []
  /\ Go.len sample_docs <= batchSize f <= Go.int_max
  /\ bulk w [] (@write_docs JSON.codec (index f) sample_docs "") = Responded 200
  /\ @upload JSON.codec w f sample_docs 1 0 []
     = (Done tt,
        [Bulk (@write_docs JSON.codec "my-index" sample_docs "");
         Log Info [Int "inserted" 3; Int "total" 3] "Batch inserted"]).
Proof.
  cbv zeta.
  assert (HB : Go.len sample_docs
               <= batchSize (with_batchSize sample_flags Go.int_max)
               <= Go.int_max)
    by (vm_compute; split; discriminate).
  split; [discriminate|]. split; [exact HB|]. split; [reflexivity|].
  exact (@one_request_when_batch_covers_all JSON.codec
           (cluster 404 None sample_files)
           (with_batchSize sample_flags Go.int_max) sample_docs 0 [] 200
           ltac:(discriminate) HB eq_refl).
Defined.

Lemma client_has_one_auth_method_witness :
  let w := cluster 404 None sample_files in
  let f := with_auth sample_flags "" "" "a2V5" in
  In (NewClient (client_config f)) (snd (@main JSON.codec w f 5 []))
  /\ APIKey (client_config f) = "a2V5"
  /\ Username (client_config f) = "" /\ Password (client_config f) = "".
Proof.
  cbv zeta.
  assert (Hin : In (NewClient (client_config
                                 (with_auth sample_flags "" "" "a2V5")))
                  (snd (@main JSON.codec (cluster 404 None sample_files)
                          (with_auth sample_flags "" "" "a2V5") 5 [])))
    by (vm_compute; left; reflexivity).
  split; [exact Hin|].
  destruct (@client_has_one_auth_method JSON.codec
              (cluster 404 None sample_files)
              (with_auth sample_flags "" "" "a2V5") 5 _ Hin)
    as (_ & _ & Hk & Hup & _).
  split; [exact Hk|]. apply Hup. discriminate.
Defined.

Lemma index_changes_are_called_for_witness :
  let w := cluster 200 None sample_files in
  let f := with_lifecycle sample_flags false true in
  In (IndicesDelete "my-index") (snd (@main JSON.codec w f 5 []))
  /\ deleteIndex f = true
  /\ indices_exists w (client_built f) (index f) = Responded 200.
Proof.
  cbv zeta.
  assert (Hin : In (IndicesDelete "my-index")
                  (snd (@main JSON.codec (cluster 200 None sample_files)
                          (with_lifecycle sample_flags false true) 5 [])))
    by (vm_compute; auto 10).
  split; [exact Hin|].
  exact (proj1 (@index_changes_are_called_for JSON.codec
                  (cluster 200 None sample_files)
                  (with_lifecycle sample_flags false true) 5)
           "my-index" Hin).
Defined.

Lemma warning_when_nothing_to_delete_witness :
  let w := cluster 404 None sample_files in
  let f := with_lifecycle sample_flags true true in
  accepted f /\ client_ok w f
  /\ indices_exists w (client_built f) (index f) = Responded 404
  /\ deleteIndex f = true /\ addToIndex f = true
  /\ In (nothing_to_delete f) (snd (@main JSON.codec w f 5 [])).
Proof.
  cbv zeta. split; [apply sample_flags_accepted|].
  split; [reflexivity|]. split; [reflexivity|]. split; [reflexivity|].
  split; [reflexivity|].
  exact (proj2 (@warning_when_nothing_to_delete JSON.codec
                  (cluster 404 None sample_files)
                  (with_lifecycle sample_flags true true) 5)
           (sample_flags_accepted true true) eq_refl eq_refl eq_refl).
Defined.
